(** * api_basics: the authentication and token-lifecycle core

    A shallow embedding of the worker's request handlers (src/index.ts), the
    auth helpers (lib/auth), the [requireAuth] middleware and the relational
    schema (db/schema), with the properties the specification states about
    them; then the HTML escaping helpers (lib/sanitize), the choice of a
    rendering (lib/formatters) and the Terraform provider's API client and
    configuration (terraform-provider-apibasics), with properties read off
    the code.

    Conventions.
    - A JavaScript computation that may throw is a value of [Outcome]; a
      [try { .. } catch { .. }] block is [try_catch].
    - Text is [string]; a character is one code unit.
    - JSON data is [Json]; a number in it is kept as the text that
      [JSON.stringify] writes for it, an object as its properties in the
      order the engine lists them.
    - A request body is what [await c.req.json()] gives, an [Outcome Json],
      for the routes that are stated on every body; the other routes, and
      these too in their first form, are written on records of the fields
      that a client of the API sends, which are strings.
    - A [Date] is kept as its millisecond timestamp; a column declared
      [integer(.., {mode: 'timestamp'})] holds whole seconds, written as
      [Math.floor(ms / 1000)] and read back as [seconds * 1000].
    - The packages the worker imports (jsonwebtoken, bcryptjs), and what
      the engine and the store do that no source file shows (the text of a
      number that is not a small integer, the text of a date, a statement
      parameter that is neither text nor null), are the fields of the
      class [Platform]; every result below holds for any implementation
      of them.  The Go packages under the provider's client (net/http, the
      error texts of encoding/json) are the fields of the class
      [client.Network] in the same way. *)

From Stdlib Require Import ZArith List String Ascii Bool Lia.
From Stdlib Require Import Decimal DecimalString DecimalZ DecimalFacts.
From Stdlib Require Import DecimalPos.
Import ListNotations.

#[local] Set Warnings "-register-all".

#[local] Open Scope Z_scope.
#[local] Open Scope string_scope.

(* ====================================================================== *)
(** ** JavaScript values and control flow *)
(* ====================================================================== *)

(** The result of running code that may throw. *)
Inductive Outcome (A : Type) : Type :=
| Return (a : A)
| Throw (message : string).
Arguments Return {A} a.
Arguments Throw {A} message.

Definition bind {A B} (m : Outcome A) (k : A -> Outcome B) : Outcome B :=
  match m with
  | Return a => k a
  | Throw e => Throw e
  end.

Notation "x <- m ;; k" := (bind m (fun x => k))
  (at level 61, m at next level, right associativity).

(** [try { body } catch (error) { handler(error.message) }] *)
Definition try_catch {A} (body : Outcome A) (handler : string -> Outcome A)
    : Outcome A :=
  match body with
  | Return a => Return a
  | Throw e => handler e
  end.

(** [!s] for a value that is a string or undefined: the empty string and
    undefined are the falsy ones. *)
Definition falsy (v : option string) : bool :=
  match v with
  | None => true
  | Some s => s =? ""
  end.

(** [e.message || fallback] *)
Definition or_default (s fallback : string) : string :=
  if s =? "" then fallback else s.

(** [s.split(sep)] for a one-character separator. *)
Fixpoint split (sep : ascii) (s : string) : list string :=
  match s with
  | EmptyString => [EmptyString]
  | String c rest =>
      if Ascii.eqb c sep then EmptyString :: split sep rest
      else match split sep rest with
           | part :: parts => String c part :: parts
           | [] => [String c EmptyString]
           end
  end.

(** [s.includes(c)] for a one-character needle. *)
Fixpoint includes (s : string) (c : ascii) : bool :=
  match s with
  | EmptyString => false
  | String d rest => Ascii.eqb d c || includes rest c
  end.

(** [s.length] *)
Definition strlen (s : string) : Z := Z.of_nat (String.length s).

(** [Math.floor(ms / 1000)] *)
Definition seconds_of_ms (ms : Z) : Z := ms / 1000.

(** JSON data: request bodies, response bodies, the preferences blob.  An
    object is its properties in the order the engine lists them ([ordered],
    below, says what orders there are).  A number is kept as the text that
    [JSON.stringify] writes for it, which tells numbers apart as far as the
    code can: the digits of an integer, [1.5], [1e+21], and the word null
    for an infinity, which is what a literal too large for a double is read
    as. *)
Inductive Json : Type :=
| JNull
| JBool (b : bool)
| JNum (text : string)
| JStr (s : string)
| JArr (items : list Json)
| JObj (members : list (string * Json)).

(** [typeof v] for a JSON value. *)
Definition typeof (v : Json) : string :=
  match v with
  | JNull => "object"
  | JBool _ => "boolean"
  | JNum _ => "number"
  | JStr _ => "string"
  | JArr _ => "object"
  | JObj _ => "object"
  end.

(** *** JSON.stringify *)

Definition dquote : ascii := "034"%char.
Definition backslash : ascii := "\"%char.

Definition hex_digit (n : Z) : ascii :=
  match n with
  | 0 => "0" | 1 => "1" | 2 => "2" | 3 => "3" | 4 => "4" | 5 => "5"
  | 6 => "6" | 7 => "7" | 8 => "8" | 9 => "9" | 10 => "a" | 11 => "b"
  | 12 => "c" | 13 => "d" | 14 => "e" | _ => "f"
  end%char.

Definition code (c : ascii) : Z := Z.of_nat (nat_of_ascii c).

(** One character of a quoted string: the two-character escapes, the
    [\u00XX] form for the other control characters, itself otherwise. *)
Definition quote_char (c : ascii) : string :=
  if Ascii.eqb c dquote then String backslash (String dquote "")
  else if Ascii.eqb c backslash then String backslash (String backslash "")
  else if (code c =? 8)%Z then "\b"
  else if (code c =? 9)%Z then "\t"
  else if (code c =? 10)%Z then "\n"
  else if (code c =? 12)%Z then "\f"
  else if (code c =? 13)%Z then "\r"
  else if (code c <? 32)%Z then
    "\u00" ++ String (hex_digit (code c / 16))
                     (String (hex_digit (code c mod 16)) "")
  else String c "".

Fixpoint quote_body (s : string) : string :=
  match s with
  | EmptyString => String dquote ""
  | String c rest => quote_char c ++ quote_body rest
  end.

Definition quote (s : string) : string := String dquote (quote_body s).

(** [JSON.stringify(v)] with no indentation. *)
Fixpoint JSON_stringify (v : Json) : string :=
  match v with
  | JNull => "null"
  | JBool true => "true"
  | JBool false => "false"
  | JNum text => text
  | JStr s => quote s
  | JArr items =>
      "[" ++ (fix elements (l : list Json) : string :=
                match l with
                | [] => "]"
                | [x] => JSON_stringify x ++ "]"
                | x :: more => JSON_stringify x ++ "," ++ elements more
                end) items
  | JObj members =>
      "{" ++ (fix pairs (l : list (string * Json)) : string :=
                match l with
                | [] => "}"
                | [(k, x)] => quote k ++ ":" ++ JSON_stringify x ++ "}"
                | (k, x) :: more =>
                    quote k ++ ":" ++ JSON_stringify x ++ "," ++ pairs more
                end) members
  end.

(** *** JSON.parse *)

Definition is_ws (c : ascii) : bool :=
  Ascii.eqb c " " || (code c =? 9)%Z || (code c =? 10)%Z || (code c =? 13)%Z.

Definition is_digit (c : ascii) : bool :=
  ((48 <=? code c) && (code c <=? 57))%Z.

Fixpoint skip_ws (s : string) : string :=
  match s with
  | String c rest => if is_ws c then skip_ws rest else s
  | EmptyString => EmptyString
  end.

(** The longest prefix of digits, and what follows it. *)
Fixpoint span_digits (s : string) : string * string :=
  match s with
  | String c rest =>
      if is_digit c then
        let '(ds, tail) := span_digits rest in (String c ds, tail)
      else (EmptyString, s)
  | EmptyString => (EmptyString, EmptyString)
  end.

Definition hex_value (c : ascii) : option Z :=
  let n := code c in
  if ((48 <=? n) && (n <=? 57))%Z then Some (n - 48)
  else if ((97 <=? n) && (n <=? 102))%Z then Some (n - 87)
  else if ((65 <=? n) && (n <=? 70))%Z then Some (n - 55)
  else None.

Definition ascii_of_code (n : Z) : ascii := ascii_of_nat (Z.to_nat n).

(** The character an escape sequence stands for, and the text after the
    sequence; [s] is the text after the backslash.  A [\uXXXX] escape above
    code 255 names a code unit the model's characters do not have. *)
Definition unescape (s : string) : option (ascii * string) :=
  match s with
  | String e rest =>
      if Ascii.eqb e dquote then Some (dquote, rest)
      else if Ascii.eqb e backslash then Some (backslash, rest)
      else if Ascii.eqb e "/" then Some ("/"%char, rest)
      else if Ascii.eqb e "b" then Some (ascii_of_code 8, rest)
      else if Ascii.eqb e "t" then Some (ascii_of_code 9, rest)
      else if Ascii.eqb e "n" then Some (ascii_of_code 10, rest)
      else if Ascii.eqb e "f" then Some (ascii_of_code 12, rest)
      else if Ascii.eqb e "r" then Some (ascii_of_code 13, rest)
      else if Ascii.eqb e "u" then
        match rest with
        | String h1 (String h2 (String h3 (String h4 rest'))) =>
            match hex_value h1, hex_value h2, hex_value h3, hex_value h4 with
            | Some 0, Some 0, Some a, Some b =>
                Some (ascii_of_code (16 * a + b), rest')
            | _, _, _, _ => None
            end
        | _ => None
        end
      else None
  | EmptyString => None
  end.

(** The text of a string literal after its opening quote.  The fuel bounds
    the characters read; the literal's length is enough. *)
Fixpoint parse_chars (fuel : nat) (s : string) : option (string * string) :=
  match fuel with
  | O => None
  | S fuel' =>
      match s with
      | EmptyString => None
      | String c rest =>
          if Ascii.eqb c dquote then Some (EmptyString, rest)
          else if Ascii.eqb c backslash then
            match unescape rest with
            | Some (d, rest') =>
                match parse_chars fuel' rest' with
                | Some (body, tail) => Some (String d body, tail)
                | None => None
                end
            | None => None
            end
          else if (code c <? 32)%Z then None
          else match parse_chars fuel' rest with
               | Some (body, tail) => Some (String c body, tail)
               | None => None
               end
      end
  end.

Definition parse_string (s : string) : option (string * string) :=
  parse_chars (S (String.length s)) s.

(** Whether the text starts with a character that passes the test. *)
Definition starts_with (test : ascii -> bool) (s : string) : bool :=
  match s with
  | String c _ => test c
  | EmptyString => false
  end.

(** A zero followed by more digits. *)
Definition leading_zero (ds : string) : bool :=
  match ds with
  | String c (String _ _) => Ascii.eqb c "0"
  | _ => false
  end.

(** The start of a fraction or of an exponent. *)
Definition is_fraction_start (c : ascii) : bool :=
  Ascii.eqb c "." || Ascii.eqb c "e" || Ascii.eqb c "E".

(** The mark of an exponent. *)
Definition is_exponent_mark (c : ascii) : bool :=
  Ascii.eqb c "e" || Ascii.eqb c "E".

Definition is_sign (c : ascii) : bool := Ascii.eqb c "+" || Ascii.eqb c "-".

(** One leading character that passes the test, if there is one, and the
    text after it. *)
Definition take_char (test : ascii -> bool) (s : string) : string * string :=
  match s with
  | String c rest => if test c then (String c EmptyString, rest) else (EmptyString, s)
  | EmptyString => (EmptyString, s)
  end.

(** The fraction of a number literal, if the text starts with a point: the
    point and the digits, which must be there. *)
Definition scan_fraction (s : string) : option (string * string) :=
  match s with
  | String c rest =>
      if Ascii.eqb c "." then
        let '(fs, tail) := span_digits rest in
        if fs =? "" then None else Some (String c fs, tail)
      else Some (EmptyString, s)
  | EmptyString => Some (EmptyString, s)
  end.

(** The exponent of a number literal, if the text starts with its mark:
    the mark, a sign or none, and the digits, which must be there. *)
Definition scan_exponent (s : string) : option (string * string) :=
  match s with
  | String c rest =>
      if is_exponent_mark c then
        let '(sign, unsigned) := take_char is_sign rest in
        let '(es, tail) := span_digits unsigned in
        if es =? "" then None else Some (String c (sign ++ es), tail)
      else Some (EmptyString, s)
  | EmptyString => Some (EmptyString, s)
  end.

(** A number literal at the start of the text, and the text after it: an
    optional minus sign, digits with no leading zero, an optional fraction
    and an optional exponent. *)
Definition scan_number (s : string) : option (string * string) :=
  let '(sign, unsigned) := take_char (Ascii.eqb "-") s in
  let '(ds, after_digits) := span_digits unsigned in
  if ds =? "" then None
  else if leading_zero ds then None
  else
    match scan_fraction after_digits with
    | None => None
    | Some (fraction, after_fraction) =>
        match scan_exponent after_fraction with
        | None => None
        | Some (exponent, tail) =>
            Some (sign ++ ds ++ fraction ++ exponent, tail)
        end
    end.

(** The text after [word], when [s] starts with it. *)
Fixpoint expect (word : string) (s : string) : option string :=
  match word with
  | EmptyString => Some s
  | String w word' =>
      match s with
      | String c rest => if Ascii.eqb c w then expect word' rest else None
      | EmptyString => None
      end
  end.

Definition literal (word : string) (v : Json) (s : string)
    : option (Json * string) :=
  match expect word s with
  | Some tail => Some (v, tail)
  | None => None
  end.

(** The digits of an integer, with a minus sign when it is negative. *)
Definition digits (n : Z) : string := NilZero.string_of_int (Z.to_int n).

(** The array index a property key names, if it names one: the digits of a
    number below 2^32 - 1, with no leading zero. *)
Definition array_index (key : string) : option Z :=
  match NilZero.int_of_string key with
  | Some d =>
      let n := Z.of_int d in
      if (key =? digits n) && (0 <=? n)%Z && (n <? 2 ^ 32 - 1)%Z
      then Some n else None
  | None => None
  end.

(** The order in which an object lists its properties: the array indices
    first, ascending, then the other keys as they were created.
    [comes_before key k]: a new key [key] is listed before [k]. *)
Definition comes_before (key k : string) : bool :=
  match array_index key, array_index k with
  | Some i, Some j => (i <? j)%Z
  | Some _, None => true
  | None, _ => false
  end.

(** [object[key] = x] where the object is being built: a key that is there
    keeps its place and takes the new value. *)
Fixpoint define (key : string) (x : Json) (members : list (string * Json))
    : list (string * Json) :=
  match members with
  | [] => [(key, x)]
  | (k, y) :: more =>
      if k =? key then (k, x) :: more
      else if comes_before key k then (key, x) :: members
      else (k, y) :: define key x more
  end.

(** The object [JSON.parse] builds from the members of a text, in the order
    of the text. *)
Definition object_of (members : list (string * Json))
    : list (string * Json) :=
  fold_left (fun object kx => define (fst kx) (snd kx) object) members [].

(** The keys of an object as it lists them: no key twice, each in its
    place. *)
Fixpoint ordered (keys : list string) : bool :=
  match keys with
  | [] => true
  | k :: more =>
      forallb (fun k' => negb (k =? k') && negb (comes_before k' k)) more
      && ordered more
  end.

Section Parser.

(** The reader of number literals: the text that [JSON.stringify] would
    write for the number a literal denotes, in JavaScript; the literal as
    it is, for a reader that keeps it.  The maker of objects: [object_of]
    in JavaScript; the members as they are, for a reader that goes through
    them one by one. *)
Variable number : string -> string.
Variable object : list (string * Json) -> list (string * Json).

(** A value, the elements of an array after its bracket, the members of an
    object after its brace.  Each returns what it read and the text left.
    The fuel bounds the nesting and the number of items. *)
Fixpoint parse_value (fuel : nat) (s : string) : option (Json * string) :=
  match fuel with
  | O => None
  | S fuel' =>
      match skip_ws s with
      | EmptyString => None
      | String c rest =>
          if Ascii.eqb c "n" then literal "ull" JNull rest
          else if Ascii.eqb c "t" then literal "rue" (JBool true) rest
          else if Ascii.eqb c "f" then literal "alse" (JBool false) rest
          else if Ascii.eqb c dquote then
            match parse_string rest with
            | Some (str, tail) => Some (JStr str, tail)
            | None => None
            end
          else if Ascii.eqb c "[" then
            match skip_ws rest with
            | String "]"%char tail => Some (JArr [], tail)
            | _ =>
                match parse_elements fuel' rest with
                | Some (items, tail) => Some (JArr items, tail)
                | None => None
                end
            end
          else if Ascii.eqb c "{" then
            match skip_ws rest with
            | String "}"%char tail => Some (JObj [], tail)
            | _ =>
                match parse_members fuel' rest with
                | Some (members, tail) => Some (JObj (object members), tail)
                | None => None
                end
            end
          else
            match scan_number (String c rest) with
            | Some (lit, tail) => Some (JNum (number lit), tail)
            | None => None
            end
      end
  end

with parse_elements (fuel : nat) (s : string)
    : option (list Json * string) :=
  match fuel with
  | O => None
  | S fuel' =>
      match parse_value fuel' s with
      | Some (x, tail) =>
          match skip_ws tail with
          | String ","%char more =>
              match parse_elements fuel' more with
              | Some (xs, tail') => Some (x :: xs, tail')
              | None => None
              end
          | String "]"%char tail' => Some ([x], tail')
          | _ => None
          end
      | None => None
      end
  end

with parse_members (fuel : nat) (s : string)
    : option (list (string * Json) * string) :=
  match fuel with
  | O => None
  | S fuel' =>
      match skip_ws s with
      | String c rest =>
          if Ascii.eqb c dquote then
            match parse_string rest with
            | Some (key, tail) =>
                match skip_ws tail with
                | String ":"%char more =>
                    match parse_value fuel' more with
                    | Some (x, tail') =>
                        match skip_ws tail' with
                        | String ","%char more' =>
                            match parse_members fuel' more' with
                            | Some (ms, tail'') => Some ((key, x) :: ms, tail'')
                            | None => None
                            end
                        | String "}"%char tail'' => Some ([(key, x)], tail'')
                        | _ => None
                        end
                    | None => None
                    end
                | _ => None
                end
            | None => None
            end
          else None
      | EmptyString => None
      end
  end.

(** A text that is one value, then nothing but white space. *)
Definition parse_text (text : string) : Outcome Json :=
  match parse_value (S (String.length text)) text with
  | Some (v, tail) =>
      match skip_ws tail with
      | EmptyString => Return v
      | _ => Throw "Unexpected non-whitespace character after JSON"
      end
  | None => Throw "Unexpected token in JSON"
  end.

End Parser.

(** *** The text of arrays and objects, and the fuel a value needs *)

(** Where a number literal may end: not before a digit, a point or an
    exponent mark. *)
Definition number_end (rest : string) : Prop :=
  starts_with is_digit rest = false
  /\ starts_with is_fraction_start rest = false.

Definition elements_text : list Json -> string :=
  fix elements (l : list Json) : string :=
    match l with
    | [] => "]"
    | [x] => JSON_stringify x ++ "]"
    | x :: more => JSON_stringify x ++ "," ++ elements more
    end.

Definition members_text : list (string * Json) -> string :=
  fix pairs (l : list (string * Json)) : string :=
    match l with
    | [] => "}"
    | [(k, x)] => quote k ++ ":" ++ JSON_stringify x ++ "}"
    | (k, x) :: more =>
        quote k ++ ":" ++ JSON_stringify x ++ "," ++ pairs more
    end.

(** The fuel a value needs: one unit for the value and one for each item. *)
Fixpoint size (v : Json) : nat :=
  match v with
  | JArr items => S (fold_right (fun x n => S (size x + n)) O items)
  | JObj members => S (fold_right (fun kx n => S (size (snd kx) + n)) O members)
  | _ => 1
  end.

(** A number's text that a reader takes as one literal and keeps as it
    is; or the word null, which is read as null. *)
Definition number_text (number : string -> string) (text : string) : bool :=
  match scan_number text with
  | Some (lit, tail) => (lit =? text) && (tail =? "") && (number text =? text)
  | None => false
  end
  || (text =? "null").

(** A value all of whose numbers are such texts and all of whose objects
    have their keys as [keys] wants them.  With [number_of_literal] and
    [ordered], these are the values of JavaScript that JSON data can
    denote. *)
Fixpoint canonical (number : string -> string) (keys : list string -> bool)
    (v : Json) : bool :=
  match v with
  | JNum text => number_text number text
  | JArr items => forallb (canonical number keys) items
  | JObj members =>
      keys (map fst members)
      && forallb (fun kx => canonical number keys (snd kx)) members
  | _ => true
  end.

(** A value as it is read back from its text: an infinity was written as
    null. *)
Fixpoint reread (v : Json) : Json :=
  match v with
  | JNum text => if text =? "null" then JNull else v
  | JArr items => JArr (map reread items)
  | JObj members => JObj (map (fun kx => (fst kx, reread (snd kx))) members)
  | _ => v
  end.

(** The property proved of every such value: its text, followed by
    anything a number may end before, is read back with that rest left
    over. *)
Definition reads_back (number : string -> string)
    (object : list (string * Json) -> list (string * Json)) (v : Json)
    : Prop :=
  forall fuel rest,
    (size v <= fuel)%nat -> number_end rest ->
    parse_value number object fuel (JSON_stringify v ++ rest)
    = Some (reread v, rest).

(** [d[key]] for response data. *)
Fixpoint lookup (key : string) (members : list (string * Json))
    : option Json :=
  match members with
  | [] => None
  | (k, x) :: more => if k =? key then Some x else lookup key more
  end.

Definition field (key : string) (d : Json) : option Json :=
  match d with
  | JObj members => lookup key members
  | _ => None
  end.

(* ====================================================================== *)
(** ** lib/auth *)
(* ====================================================================== *)

(** [interface TokenPayload], with the registered claims [iat] and [exp]
    that jsonwebtoken adds when signing with [expiresIn], and the claim
    [nbf] that it reads when verifying: a token signed elsewhere with the
    same secret may carry one.  The [type] field is whatever string the
    token carries. *)
Record TokenPayload : Type := {
  tp_userId : string;
  tp_email : string;
  tp_type : string;
  tp_iat : Z;
  tp_nbf : option Z;
  tp_exp : option Z
}.

(** The imported packages, and what the runtime and the store do that the
    sources do not show.
    - [bcrypt_hash password rounds salt]: bcryptjs [hash]; [salt] is the
      randomness drawn by the call.
    - [bcrypt_compare password hash]: bcryptjs [compare].
    - [jws_encode payload secret]: the compact HS256 serialisation.
    - [jws_decode token]: the payload of a three-part token, [None] when the
      token is malformed.
    - [jws_check token secret]: whether the signature part matches.
    - [number_literal_text literal]: for a number literal that is not an
      integer of magnitude up to 2^53, the text [JSON.stringify] writes for
      the number JavaScript reads it as: the shortest decimal that names
      the same double, and the word null when the literal overflows.
    - [date_text ms]: [new Date(ms).toJSON()], the ISO text of the date, or
      [None] for a date out of range, which is written as null.
    - [d1_text v]: what the store takes a statement parameter for that is a
      number, a boolean, an array or an object where a TEXT column is
      compared or written: the text, or its refusal of the value.
    - [js_less_than v n]: [v < n] for a JSON value and an integer. *)
Class Platform : Type := {
  bcrypt_hash : string -> Z -> string -> string;
  bcrypt_compare : string -> string -> bool;
  jws_encode : TokenPayload -> string -> string;
  jws_decode : string -> option TokenPayload;
  jws_check : string -> string -> bool;
  number_literal_text : string -> string;
  date_text : Z -> option string;
  d1_text : Json -> Outcome string;
  js_less_than : Json -> Z -> bool
}.

Section Runtime.
Context `{Platform}.

(** The text [JSON.stringify] writes for the number a literal denotes.  An
    integer of magnitude up to 2^53 is a double, and is written in digits,
    zero without a sign. *)
Definition number_of_literal (lit : string) : string :=
  match NilZero.int_of_string lit with
  | Some d =>
      if (Z.abs (Z.of_int d) <=? 2 ^ 53)%Z then digits (Z.of_int d)
      else number_literal_text lit
  | None => number_literal_text lit
  end.

(** [JSON.parse(text)] *)
Definition JSON_parse (text : string) : Outcome Json :=
  parse_text number_of_literal object_of text.

(** An integer the worker computes, as JSON data. *)
Definition number (n : Z) : Json := JNum (number_of_literal (digits n)).

(** The values of JavaScript that JSON data can denote. *)
Definition js_value (v : Json) : bool := canonical number_of_literal ordered v.

End Runtime.

Section Auth.
Context `{Platform}.

(** [jwt.sign(payload, secret, {expiresIn})] at clock [now] (ms). *)
Definition jwt_sign (userId email type : string) (secret : string)
    (expiresIn now : Z) : Outcome string :=
  if secret =? "" then Throw "secretOrPrivateKey must have a value"
  else
    let iat := seconds_of_ms now in
    Return (jws_encode {| tp_userId := userId; tp_email := email;
                          tp_type := type; tp_iat := iat; tp_nbf := None;
                          tp_exp := Some (iat + expiresIn) |} secret).

(** [jwt.verify(token, secret)] at clock [now] (ms). *)
Definition jwt_verify (token secret : string) (now : Z)
    : Outcome TokenPayload :=
  if token =? "" then Throw "jwt must be provided"
  else match jws_decode token with
       | None => Throw "jwt malformed"
       | Some payload =>
           if secret =? "" then Throw "secret or public key must be provided"
           else if negb (jws_check token secret) then Throw "invalid signature"
           else if match tp_nbf payload with
                   | Some nbf => (nbf >? seconds_of_ms now)%Z
                   | None => false
                   end
           then Throw "jwt not active"
           else match tp_exp payload with
                | Some exp =>
                    if (seconds_of_ms now >=? exp)%Z then Throw "jwt expired"
                    else Return payload
                | None => Return payload
                end
       end.

Definition hashPassword (password salt : string) : string :=
  bcrypt_hash password 10 salt.

Definition verifyPassword (password hash : string) : bool :=
  bcrypt_compare password hash.

Definition generateAccessToken (userId email secret : string)
    (expirySeconds now : Z) : Outcome string :=
  jwt_sign userId email "access" secret expirySeconds now.

Definition verifyAccessToken (token secret : string) (now : Z)
    : Outcome (option TokenPayload) :=
  try_catch
    (payload <- jwt_verify token secret now ;;
     if negb (tp_type payload =? "access") then Return None
     else Return (Some payload))
    (fun _ => Return None).

End Auth.

(** [extractBearerToken(authHeader)] *)
Definition extractBearerToken (authHeader : option string) : option string :=
  if falsy authHeader then None
  else
    let parts := split " " (match authHeader with Some h => h | None => "" end) in
    if negb (Nat.eqb (List.length parts) 2)
       || negb (nth 0 parts "" =? "Bearer")
    then None
    else nth_error parts 1.

(** [generateRefreshToken()]: 32 bytes from [crypto.getRandomValues], each
    written as two lower-case hexadecimal digits.  [random i] is the value
    the generator puts in cell [i]. *)
Definition getRandomValues (size : nat) (random : nat -> Z) : list Z :=
  map (fun i => random i mod 256) (seq 0 size).

Definition hex_byte (byte : Z) : string :=
  String (hex_digit (byte / 16)) (String (hex_digit (byte mod 16)) "").

Definition generateRefreshToken (random : nat -> Z) : string :=
  String.concat "" (map hex_byte (getRandomValues 32 random)).

(** [isValidUUID(uuid)]: the regular expression
    [/^[0-9a-f]{8}-[0-9a-f]{4}-4[0-9a-f]{3}-[89ab][0-9a-f]{3}-[0-9a-f]{12}$/i]
    read as a list of character classes, one per position. *)
Inductive CharClass : Type := Hex | Dash | Four | Variant.

Definition is_hex (c : ascii) : bool :=
  let n := nat_of_ascii c in
  ((48 <=? n) && (n <=? 57) || (97 <=? n) && (n <=? 102)
   || (65 <=? n) && (n <=? 70))%nat.

Definition in_class (k : CharClass) (c : ascii) : bool :=
  match k with
  | Hex => is_hex c
  | Dash => Ascii.eqb c "-"
  | Four => Ascii.eqb c "4"
  | Variant =>
      Ascii.eqb c "8" || Ascii.eqb c "9" || Ascii.eqb c "a" || Ascii.eqb c "b"
      || Ascii.eqb c "A" || Ascii.eqb c "B"
  end.

Definition uuidRegex : list CharClass :=
  repeat Hex 8 ++ [Dash] ++ repeat Hex 4 ++ [Dash; Four] ++ repeat Hex 3
  ++ [Dash; Variant] ++ repeat Hex 3 ++ [Dash] ++ repeat Hex 12.

Fixpoint matches (pattern : list CharClass) (s : string) : bool :=
  match pattern, s with
  | [], EmptyString => true
  | k :: pattern', String c rest => in_class k c && matches pattern' rest
  | _, _ => false
  end.

Definition isValidUUID (uuid : string) : bool := matches uuidRegex uuid.

(* ====================================================================== *)
(** ** db/schema: the tables and the queries the handlers run *)
(* ====================================================================== *)

(** The rows.  [users.bio] and [todos.description] are the text columns
    without [notNull()]: they hold a text or NULL. *)
Record User : Type := {
  user_id : string;
  user_email : string;
  user_password : string;
  user_name : string;
  user_bio : option string;
  user_preferences : string;
  user_createdAt : Z;
  user_updatedAt : Z
}.

Record RefreshToken : Type := {
  rt_id : Z;
  rt_token : string;
  rt_userId : string;
  rt_expiresAt : Z;
  rt_createdAt : Z
}.

Record Todo : Type := {
  todo_id : string;
  todo_userId : string;
  todo_title : string;
  todo_description : option string;
  todo_completed : bool;
  todo_createdAt : Z;
  todo_updatedAt : Z
}.

(** The store: the three tables in row order, and the counter behind the
    [autoIncrement] key of [refresh_tokens]. *)
Record Database : Type := {
  users : list User;
  refreshTokens : list RefreshToken;
  todos : list Todo;
  refresh_seq : Z
}.

Definition empty_db : Database :=
  {| users := []; refreshTokens := []; todos := []; refresh_seq := 0 |}.

Definition set_users (us : list User) (db : Database) : Database :=
  {| users := us; refreshTokens := refreshTokens db; todos := todos db;
     refresh_seq := refresh_seq db |}.

Definition set_refreshTokens (rs : list RefreshToken) (db : Database)
    : Database :=
  {| users := users db; refreshTokens := rs; todos := todos db;
     refresh_seq := refresh_seq db |}.

Definition set_todos (ts : list Todo) (db : Database) : Database :=
  {| users := users db; refreshTokens := refreshTokens db; todos := ts;
     refresh_seq := refresh_seq db |}.

(** [.get()]: the first row of a result, or undefined. *)
Definition get {A} (rows : list A) : option A := hd_error rows.

(** [select().from(users).where(eq(users.email, email))] *)
Definition users_by_email (email : string) (db : Database) : list User :=
  filter (fun u => user_email u =? email) (users db).

(** [select().from(users).where(eq(users.id, id))] *)
Definition users_by_id (id : string) (db : Database) : list User :=
  filter (fun u => user_id u =? id) (users db).

(** [select({token, user}).from(refreshTokens)
      .innerJoin(users, eq(refreshTokens.userId, users.id))
      .where(eq(refreshTokens.token, token))] *)
Definition refresh_join_by_token (token : string) (db : Database)
    : list (RefreshToken * User) :=
  flat_map (fun r => map (fun u => (r, u)) (users_by_id (rt_userId r) db))
           (filter (fun r => rt_token r =? token) (refreshTokens db)).

(** [select().from(todos).where(eq(todos.userId, userId))] *)
Definition todos_by_user (userId : string) (db : Database) : list Todo :=
  filter (fun t => todo_userId t =? userId) (todos db).

(** [select().from(todos)
      .where(and(eq(todos.id, id), eq(todos.userId, userId)))] *)
Definition todos_by_id_and_user (id userId : string) (db : Database)
    : list Todo :=
  filter (fun t => (todo_id t =? id) && (todo_userId t =? userId)) (todos db).

(** [insert(users).values(u).returning()]; the primary key and the unique
    email are checked by the store. *)
Definition insert_user (u : User) (db : Database)
    : Outcome (list User * Database) :=
  if existsb (fun v => user_id v =? user_id u) (users db)
  then Throw "UNIQUE constraint failed: users.id"
  else if existsb (fun v => user_email v =? user_email u) (users db)
  then Throw "UNIQUE constraint failed: users.email"
  else Return ([u], set_users (users db ++ [u]) db).

(** [insert(refreshTokens).values({token, userId, expiresAt})]: the key is
    the next counter value and [created_at] is the store's own
    [unixepoch()], read at [db_now]. *)
Definition insert_refreshToken (token userId : string)
    (expiresAt : Z) (db_now : Z) (db : Database) : Outcome Database :=
  if existsb (fun r => rt_token r =? token) (refreshTokens db)
  then Throw "UNIQUE constraint failed: refresh_tokens.token"
  else if negb (existsb (fun u => user_id u =? userId) (users db))
  then Throw "FOREIGN KEY constraint failed"
  else
    let row := {| rt_id := refresh_seq db + 1; rt_token := token;
                  rt_userId := userId;
                  rt_expiresAt := seconds_of_ms expiresAt;
                  rt_createdAt := db_now |} in
    Return {| users := users db;
              refreshTokens := refreshTokens db ++ [row];
              todos := todos db;
              refresh_seq := refresh_seq db + 1 |}.

(** [delete(refreshTokens).where(eq(refreshTokens.token, token)).returning()] *)
Definition delete_refreshToken (token : string) (db : Database)
    : list RefreshToken * Database :=
  (filter (fun r => rt_token r =? token) (refreshTokens db),
   set_refreshTokens
     (filter (fun r => negb (rt_token r =? token)) (refreshTokens db)) db).

(** [insert(todos).values(t).returning()] *)
Definition insert_todo (t : Todo) (db : Database)
    : Outcome (list Todo * Database) :=
  if existsb (fun v => todo_id v =? todo_id t) (todos db)
  then Throw "UNIQUE constraint failed: todos.id"
  else if negb (existsb (fun u => user_id u =? todo_userId t) (users db))
  then Throw "FOREIGN KEY constraint failed"
  else Return ([t], set_todos (todos db ++ [t]) db).

(** [delete(todos).where(eq(todos.id, id))] *)
Definition delete_todo (id : string) (db : Database) : Database :=
  set_todos (filter (fun t => negb (todo_id t =? id)) (todos db)) db.

(** [update(table).set(updates).where(..).returning()]: the rows that match
    are rewritten in place and returned. *)
Definition update_where {A} (hit : A -> bool) (change : A -> A)
    (rows : list A) : list A * list A :=
  (map change (filter hit rows),
   map (fun r => if hit r then change r else r) rows).

Definition update_user (id : string) (change : User -> User) (db : Database)
    : list User * Database :=
  let '(returned, rows) :=
    update_where (fun u => user_id u =? id) change (users db) in
  (returned, set_users rows db).

Definition update_todo (id : string) (change : Todo -> Todo) (db : Database)
    : list Todo * Database :=
  let '(returned, rows) :=
    update_where (fun t => todo_id t =? id) change (todos db) in
  (returned, set_todos rows db).

(* ====================================================================== *)
(** ** Requests, responses and the handlers' effects *)
(* ====================================================================== *)

(** Modelled from the spec: the [Env] bindings (./types is not among the
    sources).  Section 6: the signing secret for access tokens, the
    access-token lifetime in seconds, the refresh-token lifetime in seconds.
    The two lifetimes are the integers [parseInt] reads from the bindings. *)
Record Env : Type := {
  JWT_SECRET : string;
  JWT_ACCESS_EXPIRY : Z;
  JWT_REFRESH_EXPIRY : Z
}.

(** What a handler hands to [formatResponse]: the data and the status.  The
    rendering (plain text, HTML or JSON) is chosen from the request's own
    headers and is a function of these two. *)
Record Response : Type := {
  status : Z;
  data : Json
}.

Definition formatResponse (d : Json) (code : Z) : Response :=
  {| status := code; data := d |}.

(** [{ error, message }] *)
Definition failure (error message : string) : Json :=
  JObj [("error", JStr error); ("message", JStr message)].

(** [{ success: true, message, ...fields }] *)
Definition success (message : string) (fields : list (string * Json)) : Json :=
  JObj (("success", JBool true) :: ("message", JStr message) :: fields).

(** A [Date] inside response data, by its timestamp in seconds: the text
    of the date, or null for a date out of range. *)
Definition date_json `{Platform} (seconds : Z) : Json :=
  match date_text (seconds * 1000) with
  | Some text => JStr text
  | None => JNull
  end.

(** A handler body: it reads and writes the store and may throw; a throw
    leaves the store as it was at that point. *)
Definition Handler (A : Type) : Type := Database -> Outcome A * Database.

Definition ret {A} (a : A) : Handler A := fun db => (Return a, db).

Definition throw {A} (message : string) : Handler A :=
  fun db => (Throw message, db).

Definition hbind {A B} (m : Handler A) (k : A -> Handler B) : Handler B :=
  fun db =>
    match m db with
    | (Return a, db') => k a db'
    | (Throw e, db') => (Throw e, db')
    end.

Notation "x <~ m ;; k" := (hbind m (fun x => k))
  (at level 61, m at next level, right associativity).

(** Code that does not touch the store. *)
Definition lift {A} (o : Outcome A) : Handler A := fun db => (o, db).

(** A [select]. *)
Definition query {A} (q : Database -> A) : Handler A :=
  fun db => (Return (q db), db).

(** A statement with [returning()]; a failed statement changes nothing. *)
Definition run {A} (stmt : Database -> Outcome (A * Database)) : Handler A :=
  fun db =>
    match stmt db with
    | Return (a, db') => (Return a, db')
    | Throw e => (Throw e, db)
    end.

(** A statement whose result is not used. *)
Definition exec (stmt : Database -> Outcome Database) : Handler unit :=
  run (fun db => db' <- stmt db ;; Return (tt, db')).

(** The [try { .. } catch (error) { return formatResponse(.., 500) }] around
    every route body. *)
Definition route (body : Handler Response) (fallback : string)
    : Database -> Response * Database :=
  fun db =>
    match body db with
    | (Return r, db') => (r, db')
    | (Throw e, db') =>
        (formatResponse
           (failure "Internal Server Error" (or_default e fallback)) 500, db')
    end.

(** A field that holds a string once it is known not to be undefined. *)
Definition str (v : option string) : string :=
  match v with
  | Some s => s
  | None => EmptyString
  end.

(** [result[0]] of a [returning()] list. *)
Definition first {A} (rows : list A) : Handler A :=
  match rows with
  | r :: _ => ret r
  | [] => throw "Cannot read properties of undefined"
  end.

(** The bodies of the requests a client of the API sends: an object whose
    fields are strings when they are present, and [None] when they are
    undefined.  The two fields a route inspects with [typeof] or [Boolean]
    are JSON values.  The routes are first written out on these bodies;
    POST /register, POST /token, PUT /profile and PUT /todos/:id, which use
    a field as a value before any test of its type, follow on whatever
    [await c.req.json()] gives ([register_request] and the others), with
    the lemmas that the two agree on these bodies. *)
Record RegisterBody : Type := {
  reg_email : option string;
  reg_password : option string;
  reg_name : option string
}.

Record TokenBody : Type := {
  tok_email : option string;
  tok_password : option string
}.

Record RefreshBody : Type := {
  refresh_token : option string
}.

Record ProfileBody : Type := {
  prof_name : option string;
  prof_bio : option string;
  prof_preferences : option Json
}.

Record NewTodoBody : Type := {
  new_title : option string;
  new_description : option string
}.

Record TodoBody : Type := {
  upd_title : option string;
  upd_description : option string;
  upd_completed : option Json
}.

(** [Boolean(v)] *)
Definition Boolean (v : Json) : bool :=
  match v with
  | JNull => false
  | JBool b => b
  | JNum text => negb (text =? "0")
  | JStr s => negb (s =? "")
  | JArr _ => true
  | JObj _ => true
  end.

(** What [requireAuth] leaves in the context: [c.set('userId', ..)] and
    [c.set('userEmail', ..)]. *)
Record Context : Type := {
  ctx_userId : string;
  ctx_userEmail : string
}.

(** A nullable text column inside response data. *)
Definition text_json (v : option string) : Json :=
  match v with
  | Some s => JStr s
  | None => JNull
  end.

Definition todo_json `{Platform} (t : Todo) : Json :=
  JObj [("id", JStr (todo_id t)); ("userId", JStr (todo_userId t));
        ("title", JStr (todo_title t));
        ("description", text_json (todo_description t));
        ("completed", JBool (todo_completed t));
        ("createdAt", date_json (todo_createdAt t));
        ("updatedAt", date_json (todo_updatedAt t))].

(* ====================================================================== *)
(** ** middleware/auth and the routes of src/index.ts *)
(* ====================================================================== *)

Section Routes.
Context `{Platform} (env : Env).

(** An exception no route catches: the framework answers for it. *)
Definition uncaught : Response :=
  formatResponse (JStr "Internal Server Error") 500.

(** [requireAuth(c, next)]; [now] is the clock [jwt.verify] reads. *)
Definition requireAuth (authHeader : option string) (now : Z)
    (next : Context -> Database -> Response * Database)
    : Database -> Response * Database :=
  let token := extractBearerToken authHeader in
  if falsy token then
    fun db =>
      (formatResponse
         (failure "Unauthorized"
            "Missing or invalid Authorization header. Expected: Authorization: Bearer <token>")
         401, db)
  else
    match verifyAccessToken (str token) (JWT_SECRET env) now with
    | Throw _ => fun db => (uncaught, db)
    | Return None =>
        fun db =>
          (formatResponse
             (failure "Unauthorized" "Invalid or expired access token") 401,
           db)
    | Return (Some payload) =>
        next {| ctx_userId := tp_userId payload;
                ctx_userEmail := tp_email payload |}
    end.

(** POST /register on a body whose fields are strings ([register_request],
    further down, is the route on any body, and
    [register_request_strings] that the two agree here).  [uuid] is the
    value of [crypto.randomUUID()], [salt] the randomness of the hash,
    [db_now] the store's [unixepoch()]. *)
Definition register (body : RegisterBody) (uuid salt : string) (db_now : Z)
    : Database -> Response * Database :=
  route
    (let email := reg_email body in
     let password := reg_password body in
     let name := reg_name body in
     if falsy email || falsy password || falsy name then
       ret (formatResponse
              (failure "Bad Request"
                 "Missing required fields: email, password, name") 400)
     else if negb (includes (str email) "@") then
       ret (formatResponse (failure "Bad Request" "Invalid email format") 400)
     else if (strlen (str password) <? 8)%Z then
       ret (formatResponse
              (failure "Bad Request"
                 "Password must be at least 8 characters long") 400)
     else
       existingUser <~ query (fun db => get (users_by_email (str email) db)) ;;
       match existingUser with
       | Some _ =>
           ret (formatResponse
                  (failure "Conflict" "User with this email already exists")
                  409)
       | None =>
           let hashedPassword := hashPassword (str password) salt in
           let userId := uuid in
           result <~ run (insert_user
                            {| user_id := userId;
                               user_email := str email;
                               user_password := hashedPassword;
                               user_name := str name;
                               user_bio := Some EmptyString;
                               user_preferences := "{}";
                               user_createdAt := db_now;
                               user_updatedAt := db_now |}) ;;
           user <~ first result ;;
           ret (formatResponse
                  (success "User registered successfully"
                     [("userId", JStr (user_id user));
                      ("email", JStr (user_email user));
                      ("name", JStr (user_name user))]) 201)
       end)
    "Failed to register user".

(** POST /token on a body whose fields are strings ([token_request] is the
    route on any body, [token_request_strings] the agreement).  [random]
    fills the refresh token's bytes, [now] is the worker's clock in
    milliseconds, [db_now] the store's [unixepoch()] when the row is
    inserted. *)
Definition token (body : TokenBody) (random : nat -> Z) (now db_now : Z)
    : Database -> Response * Database :=
  route
    (let email := tok_email body in
     let password := tok_password body in
     if falsy email || falsy password then
       ret (formatResponse
              (failure "Bad Request"
                 "Missing required fields: email, password") 400)
     else
       user <~ query (fun db => get (users_by_email (str email) db)) ;;
       match user with
       | None =>
           ret (formatResponse
                  (failure "Unauthorized" "Invalid email or password") 401)
       | Some user =>
           let isValid := verifyPassword (str password) (user_password user) in
           if negb isValid then
             ret (formatResponse
                    (failure "Unauthorized" "Invalid email or password") 401)
           else
             accessToken <~ lift (generateAccessToken (user_id user)
                                    (user_email user) (JWT_SECRET env)
                                    (JWT_ACCESS_EXPIRY env) now) ;;
             let refreshToken := generateRefreshToken random in
             let refreshExpirySeconds := JWT_REFRESH_EXPIRY env in
             let expiresAt := (now + refreshExpirySeconds * 1000)%Z in
             _ <~ exec (insert_refreshToken refreshToken (user_id user)
                          expiresAt db_now) ;;
             ret (formatResponse
                    (JObj [("success", JBool true);
                           ("token_type", JStr "Bearer");
                           ("access_token", JStr accessToken);
                           ("refresh_token", JStr refreshToken);
                           ("expires_in", number (JWT_ACCESS_EXPIRY env))]) 200)
       end)
    "Failed to authenticate".

(** POST /refresh; [now] is the worker's clock in milliseconds. *)
Definition refresh (body : RefreshBody) (now : Z)
    : Database -> Response * Database :=
  route
    (let refresh_token := refresh_token body in
     if falsy refresh_token then
       ret (formatResponse
              (failure "Bad Request" "Missing required field: refresh_token")
              400)
     else
       tokenRecord <~ query (fun db =>
                        get (refresh_join_by_token (str refresh_token) db)) ;;
       match tokenRecord with
       | None =>
           ret (formatResponse
                  (failure "Unauthorized" "Invalid refresh token") 401)
       | Some (token, user) =>
           if (rt_expiresAt token * 1000 <? now)%Z then
             _ <~ run (fun db =>
                    Return (delete_refreshToken (str refresh_token) db)) ;;
             ret (formatResponse
                    (failure "Unauthorized" "Refresh token has expired") 401)
           else
             accessToken <~ lift (generateAccessToken (user_id user)
                                    (user_email user) (JWT_SECRET env)
                                    (JWT_ACCESS_EXPIRY env) now) ;;
             ret (formatResponse
                    (JObj [("success", JBool true);
                           ("token_type", JStr "Bearer");
                           ("access_token", JStr accessToken);
                           ("expires_in", number (JWT_ACCESS_EXPIRY env))]) 200)
       end)
    "Failed to refresh token".

(** POST /revoke *)
Definition revoke (body : RefreshBody) : Database -> Response * Database :=
  route
    (let refresh_token := refresh_token body in
     if falsy refresh_token then
       ret (formatResponse
              (failure "Bad Request" "Missing required field: refresh_token")
              400)
     else
       result <~ run (fun db =>
                   Return (delete_refreshToken (str refresh_token) db)) ;;
       if Nat.eqb (List.length result) 0 then
         ret (formatResponse
                (failure "Not Found" "Refresh token not found") 404)
       else
         ret (formatResponse
                (JObj [("success", JBool true);
                       ("message", JStr "Token revoked successfully")]) 200))
    "Failed to revoke token".

(** GET /profile, after [requireAuth]. *)
Definition get_profile (c : Context) : Database -> Response * Database :=
  route
    (let userId := ctx_userId c in
     user <~ query (fun db => get (users_by_id userId db)) ;;
     match user with
     | None => ret (formatResponse (failure "Not Found" "User not found") 404)
     | Some user =>
         preferences <~ lift (JSON_parse (user_preferences user)) ;;
         ret (formatResponse
                (JObj [("id", JStr (user_id user));
                       ("email", JStr (user_email user));
                       ("name", JStr (user_name user));
                       ("bio", text_json (user_bio user));
                       ("preferences", preferences);
                       ("createdAt", date_json (user_createdAt user));
                       ("updatedAt", date_json (user_updatedAt user))]) 200)
     end)
    "Failed to get profile".

(** The [updates] object of PUT /profile, as the change it makes to a row:
    a column is left as it is ([None]) or set; [bio] may be set to NULL. *)
Definition profile_updates (updatedAt : Z) (name : option string)
    (bio : option (option string)) (preferences : option string)
    (u : User) : User :=
  {| user_id := user_id u;
     user_email := user_email u;
     user_password := user_password u;
     user_name := match name with Some n => n | None => user_name u end;
     user_bio := match bio with Some b => b | None => user_bio u end;
     user_preferences :=
       match preferences with Some p => p | None => user_preferences u end;
     user_createdAt := user_createdAt u;
     user_updatedAt := updatedAt |}.

(** PUT /profile, after [requireAuth], on a body whose name and bio are
    strings ([put_profile_request] is the route on any body,
    [put_profile_request_strings] the agreement); [now] is the worker's
    clock. *)
Definition put_profile (c : Context) (body : ProfileBody) (now : Z)
    : Database -> Response * Database :=
  route
    (let userId := ctx_userId c in
     let name := prof_name body in
     let bio := prof_bio body in
     let preferences := prof_preferences body in
     let updatedAt := seconds_of_ms now in
     let store (stored : option string) : Handler Response :=
       result <~ run (fun db =>
                   Return (update_user userId
                             (profile_updates updatedAt name
                                (option_map Some bio) stored) db)) ;;
       user <~ first result ;;
       preferences' <~ lift (JSON_parse (user_preferences user)) ;;
       ret (formatResponse
              (success "Profile updated successfully"
                 [("profile",
                   JObj [("id", JStr (user_id user));
                         ("email", JStr (user_email user));
                         ("name", JStr (user_name user));
                         ("bio", text_json (user_bio user));
                         ("preferences", preferences')])]) 200) in
     match preferences with
     | Some p =>
         if negb (typeof p =? "object") then
           ret (formatResponse
                  (failure "Bad Request" "preferences must be an object") 400)
         else store (Some (JSON_stringify p))
     | None => store None
     end)
    "Failed to update profile".

(** GET /todos, after [requireAuth]. *)
Definition list_todos (c : Context) : Database -> Response * Database :=
  route
    (let userId := ctx_userId c in
     userTodos <~ query (todos_by_user userId) ;;
     ret (formatResponse (JArr (map todo_json userTodos)) 200))
    "Failed to get todos".

(** POST /todos, after [requireAuth]. *)
Definition create_todo (c : Context) (body : NewTodoBody) (uuid : string)
    (db_now : Z) : Database -> Response * Database :=
  route
    (let userId := ctx_userId c in
     let title := new_title body in
     let description := new_description body in
     if falsy title then
       ret (formatResponse
              (failure "Bad Request" "Missing required field: title") 400)
     else
       let todoId := uuid in
       result <~ run (insert_todo
                        {| todo_id := todoId;
                           todo_userId := userId;
                           todo_title := str title;
                           todo_description :=
                             Some (if falsy description then EmptyString
                                   else str description);
                           todo_completed := false;
                           todo_createdAt := db_now;
                           todo_updatedAt := db_now |}) ;;
       todo <~ first result ;;
       ret (formatResponse
              (success "Todo created successfully" [("todo", todo_json todo)])
              201))
    "Failed to create todo".

(** GET /todos/:id, after [requireAuth]. *)
Definition get_todo (c : Context) (todoId : string)
    : Database -> Response * Database :=
  route
    (let userId := ctx_userId c in
     if negb (isValidUUID todoId) then
       ret (formatResponse (failure "Bad Request" "Invalid todo ID format") 400)
     else
       todo <~ query (fun db => get (todos_by_id_and_user todoId userId db)) ;;
       match todo with
       | None => ret (formatResponse (failure "Not Found" "Todo not found") 404)
       | Some todo => ret (formatResponse (todo_json todo) 200)
       end)
    "Failed to get todo".

(** The [updates] object of PUT /todos/:id, as the change it makes: a
    column is left as it is ([None]) or set; [description] may be set to
    NULL. *)
Definition todo_updates (updatedAt : Z) (title : option string)
    (description : option (option string)) (completed : option Json)
    (t : Todo) : Todo :=
  {| todo_id := todo_id t;
     todo_userId := todo_userId t;
     todo_title := match title with Some x => x | None => todo_title t end;
     todo_description :=
       match description with Some x => x | None => todo_description t end;
     todo_completed :=
       match completed with
       | Some x => Boolean x
       | None => todo_completed t
       end;
     todo_createdAt := todo_createdAt t;
     todo_updatedAt := updatedAt |}.

(** PUT /todos/:id, after [requireAuth], on a body whose title and
    description are strings ([put_todo_request] is the route on any body,
    [put_todo_request_strings] the agreement). *)
Definition put_todo (c : Context) (todoId : string) (body : TodoBody)
    (now : Z) : Database -> Response * Database :=
  route
    (let userId := ctx_userId c in
     if negb (isValidUUID todoId) then
       ret (formatResponse (failure "Bad Request" "Invalid todo ID format") 400)
     else
       existingTodo <~ query (fun db =>
                         get (todos_by_id_and_user todoId userId db)) ;;
       match existingTodo with
       | None => ret (formatResponse (failure "Not Found" "Todo not found") 404)
       | Some _ =>
           result <~ run (fun db =>
                       Return (update_todo todoId
                                 (todo_updates (seconds_of_ms now)
                                    (upd_title body)
                                    (option_map Some (upd_description body))
                                    (upd_completed body)) db)) ;;
           todo <~ first result ;;
           ret (formatResponse
                  (success "Todo updated successfully"
                     [("todo", todo_json todo)]) 200)
       end)
    "Failed to update todo".

(** DELETE /todos/:id, after [requireAuth]. *)
Definition delete_todo_route (c : Context) (todoId : string)
    : Database -> Response * Database :=
  route
    (let userId := ctx_userId c in
     if negb (isValidUUID todoId) then
       ret (formatResponse (failure "Bad Request" "Invalid todo ID format") 400)
     else
       existingTodo <~ query (fun db =>
                         get (todos_by_id_and_user todoId userId db)) ;;
       match existingTodo with
       | None => ret (formatResponse (failure "Not Found" "Todo not found") 404)
       | Some _ =>
           _ <~ exec (fun db => Return (delete_todo todoId db)) ;;
           ret (formatResponse
                  (JObj [("success", JBool true);
                         ("message", JStr "Todo deleted successfully")]) 200)
       end)
    "Failed to delete todo".

(** One request to the worker, with everything it reads from outside: the
    body, the Authorization header, the clocks and the random values. *)
Inductive Request : Type :=
| PostRegister (body : RegisterBody) (uuid salt : string) (db_now : Z)
| PostToken (body : TokenBody) (random : nat -> Z) (now db_now : Z)
| PostRefresh (body : RefreshBody) (now : Z)
| PostRevoke (body : RefreshBody)
| GetProfile (authorization : option string) (now : Z)
| PutProfile (authorization : option string) (body : ProfileBody) (now : Z)
| GetTodos (authorization : option string) (now : Z)
| PostTodos (authorization : option string) (body : NewTodoBody)
    (uuid : string) (now db_now : Z)
| GetTodo (authorization : option string) (id : string) (now : Z)
| PutTodo (authorization : option string) (id : string) (body : TodoBody)
    (now : Z)
| DeleteTodo (authorization : option string) (id : string) (now : Z).

(** The router: [app.post('/register', ..)], [app.get('/profile',
    requireAuth, ..)] and so on. *)
Definition app (r : Request) : Database -> Response * Database :=
  match r with
  | PostRegister body uuid salt db_now => register body uuid salt db_now
  | PostToken body random now db_now => token body random now db_now
  | PostRefresh body now => refresh body now
  | PostRevoke body => revoke body
  | GetProfile h now => requireAuth h now get_profile
  | PutProfile h body now =>
      requireAuth h now (fun c => put_profile c body now)
  | GetTodos h now => requireAuth h now list_todos
  | PostTodos h body uuid now db_now =>
      requireAuth h now (fun c => create_todo c body uuid db_now)
  | GetTodo h id now => requireAuth h now (fun c => get_todo c id)
  | PutTodo h id body now =>
      requireAuth h now (fun c => put_todo c id body now)
  | DeleteTodo h id now =>
      requireAuth h now (fun c => delete_todo_route c id)
  end.

(** The store after a sequence of requests. *)
Fixpoint serve (requests : list Request) (db : Database) : Database :=
  match requests with
  | [] => db
  | r :: later => serve later (snd (app r db))
  end.

End Routes.

(** The stores the worker can be in: those a sequence of requests builds
    from the empty one. *)
Definition reachable `{Platform} (env : Env) (db : Database) : Prop :=
  exists requests, serve env requests empty_db = db.

(* ====================================================================== *)
(** ** The routes on the body as it arrives *)
(* ====================================================================== *)

(** POST /register, POST /token, PUT /profile and PUT /todos/:id on what
    [await c.req.json()] gives: the value the body's text denotes, or the
    throw for a text that is not JSON.  A field of the body is any value,
    or undefined ([None]). *)

(** [const { key } = body]: null has no properties to read; a value that is
    not an object has none of the names the routes ask for. *)
Definition destructure (key : string) (body : Json) : Outcome (option Json) :=
  match body with
  | JNull =>
      Throw ("Cannot destructure property '" ++ key
             ++ "' of 'body' as it is null.")
  | _ => Return (field key body)
  end.

(** [!v] *)
Definition js_not (v : option Json) : bool :=
  match v with
  | Some x => negb (Boolean x)
  | None => true
  end.

(** A field once [!v] has been found false. *)
Definition the (v : option Json) : Json :=
  match v with
  | Some x => x
  | None => JNull
  end.

(** [email.includes('@')]: the method of a string, or of an array, which
    looks for an element that is the string; a number, a boolean or an
    object has no such method. *)
Definition includes_at (email : Json) : Outcome bool :=
  match email with
  | JStr s => Return (includes s "@")
  | JArr items =>
      Return (existsb (fun x => match x with
                                | JStr s => s =? "@"
                                | _ => false
                                end) items)
  | JNull => Throw "Cannot read properties of null (reading 'includes')"
  | _ => Throw "email.includes is not a function"
  end.

(** [password.length < n]: the length of a string or of an array, the
    member of that name of an object; a number or a boolean has no length,
    and undefined is less than nothing. *)
Definition shorter_than `{Platform} (password : Json) (n : Z)
    : Outcome bool :=
  match password with
  | JStr s => Return (strlen s <? n)%Z
  | JArr items => Return (Z.of_nat (List.length items) <? n)%Z
  | JObj members =>
      Return match lookup "length" members with
             | Some v => js_less_than v n
             | None => false
             end
  | JNull => Throw "Cannot read properties of null (reading 'length')"
  | _ => Return false
  end.

(** [hashPassword(password)] and [verifyPassword(password, hash)] on a
    value: bcryptjs refuses a password that is not a string. *)
Definition hashPassword_of `{Platform} (password : Json) (salt : string)
    : Outcome string :=
  match password with
  | JStr s => Return (hashPassword s salt)
  | _ => Throw ("Illegal arguments: " ++ typeof password ++ ", number")
  end.

Definition verifyPassword_of `{Platform} (password : Json) (hash : string)
    : Outcome bool :=
  match password with
  | JStr s => Return (verifyPassword s hash)
  | _ => Throw ("Illegal arguments: " ++ typeof password ++ ", string")
  end.

(** A value as the parameter of a statement, for a TEXT column: a string is
    its text, null is NULL ([None]), another value is what the store makes
    of it. *)
Definition bind_text `{Platform} (v : Json) : Outcome (option string) :=
  match v with
  | JStr s => Return (Some s)
  | JNull => Return None
  | _ => text <- d1_text v ;; Return (Some text)
  end.

(** The column of an [updates] object: not set for undefined. *)
Definition bind_column `{Platform} (v : option Json)
    : Outcome (option (option string)) :=
  match v with
  | Some x => text <- bind_text x ;; Return (Some text)
  | None => Return None
  end.

(** [where(eq(users.email, email))]: NULL equals nothing. *)
Definition users_where_email (email : option string) (db : Database)
    : list User :=
  match email with
  | Some text => users_by_email text db
  | None => []
  end.

(** [update(users).set(updates).where(eq(users.id, id)).returning()]:
    [users.name] is NOT NULL, which the store checks on every row it
    changes. *)
Definition update_profile (id : string) (updatedAt : Z)
    (name bio : option (option string)) (preferences : option string)
    (db : Database) : Outcome (list User * Database) :=
  match name with
  | Some None =>
      if existsb (fun u => user_id u =? id) (users db)
      then Throw "NOT NULL constraint failed: users.name"
      else Return ([], db)
  | Some (Some text) =>
      Return (update_user id
                (profile_updates updatedAt (Some text) bio preferences) db)
  | None =>
      Return (update_user id
                (profile_updates updatedAt None bio preferences) db)
  end.

(** [update(todos).set(updates).where(eq(todos.id, id)).returning()]:
    [todos.title] is NOT NULL. *)
Definition update_todo_columns (id : string) (updatedAt : Z)
    (title description : option (option string)) (completed : option Json)
    (db : Database) : Outcome (list Todo * Database) :=
  match title with
  | Some None =>
      if existsb (fun t => todo_id t =? id) (todos db)
      then Throw "NOT NULL constraint failed: todos.title"
      else Return ([], db)
  | Some (Some text) =>
      Return (update_todo id
                (todo_updates updatedAt (Some text) description completed) db)
  | None =>
      Return (update_todo id
                (todo_updates updatedAt None description completed) db)
  end.

Section Arrivals.
Context `{Platform} (env : Env).

(** POST /register *)
Definition register_request (body : Outcome Json) (uuid salt : string)
    (db_now : Z) : Database -> Response * Database :=
  route
    (body <~ lift body ;;
     email <~ lift (destructure "email" body) ;;
     password <~ lift (destructure "password" body) ;;
     name <~ lift (destructure "name" body) ;;
     if js_not email || js_not password || js_not name then
       ret (formatResponse
              (failure "Bad Request"
                 "Missing required fields: email, password, name") 400)
     else
       has_at <~ lift (includes_at (the email)) ;;
       if negb has_at then
         ret (formatResponse
                (failure "Bad Request" "Invalid email format") 400)
       else
         short <~ lift (shorter_than (the password) 8) ;;
         if short then
           ret (formatResponse
                  (failure "Bad Request"
                     "Password must be at least 8 characters long") 400)
         else
           email_text <~ lift (bind_text (the email)) ;;
           existingUser <~ query (fun db =>
                             get (users_where_email email_text db)) ;;
           match existingUser with
           | Some _ =>
               ret (formatResponse
                      (failure "Conflict"
                         "User with this email already exists") 409)
           | None =>
               hashedPassword <~ lift (hashPassword_of (the password) salt) ;;
               let userId := uuid in
               name_text <~ lift (bind_text (the name)) ;;
               result <~ run (insert_user
                                {| user_id := userId;
                                   user_email := str email_text;
                                   user_password := hashedPassword;
                                   user_name := str name_text;
                                   user_bio := Some EmptyString;
                                   user_preferences := "{}";
                                   user_createdAt := db_now;
                                   user_updatedAt := db_now |}) ;;
               user <~ first result ;;
               ret (formatResponse
                      (success "User registered successfully"
                         [("userId", JStr (user_id user));
                          ("email", JStr (user_email user));
                          ("name", JStr (user_name user))]) 201)
           end)
    "Failed to register user".

(** POST /token *)
Definition token_request (body : Outcome Json) (random : nat -> Z)
    (now db_now : Z) : Database -> Response * Database :=
  route
    (body <~ lift body ;;
     email <~ lift (destructure "email" body) ;;
     password <~ lift (destructure "password" body) ;;
     if js_not email || js_not password then
       ret (formatResponse
              (failure "Bad Request"
                 "Missing required fields: email, password") 400)
     else
       email_text <~ lift (bind_text (the email)) ;;
       user <~ query (fun db => get (users_where_email email_text db)) ;;
       match user with
       | None =>
           ret (formatResponse
                  (failure "Unauthorized" "Invalid email or password") 401)
       | Some user =>
           isValid <~ lift (verifyPassword_of (the password)
                              (user_password user)) ;;
           if negb isValid then
             ret (formatResponse
                    (failure "Unauthorized" "Invalid email or password") 401)
           else
             accessToken <~ lift (generateAccessToken (user_id user)
                                    (user_email user) (JWT_SECRET env)
                                    (JWT_ACCESS_EXPIRY env) now) ;;
             let refreshToken := generateRefreshToken random in
             let refreshExpirySeconds := JWT_REFRESH_EXPIRY env in
             let expiresAt := (now + refreshExpirySeconds * 1000)%Z in
             _ <~ exec (insert_refreshToken refreshToken (user_id user)
                          expiresAt db_now) ;;
             ret (formatResponse
                    (JObj [("success", JBool true);
                           ("token_type", JStr "Bearer");
                           ("access_token", JStr accessToken);
                           ("refresh_token", JStr refreshToken);
                           ("expires_in", number (JWT_ACCESS_EXPIRY env))])
                    200)
       end)
    "Failed to authenticate".

(** PUT /profile, after [requireAuth]; [now] is the worker's clock. *)
Definition put_profile_request (c : Context) (body : Outcome Json) (now : Z)
    : Database -> Response * Database :=
  route
    (let userId := ctx_userId c in
     body <~ lift body ;;
     name <~ lift (destructure "name" body) ;;
     bio <~ lift (destructure "bio" body) ;;
     preferences <~ lift (destructure "preferences" body) ;;
     let updatedAt := seconds_of_ms now in
     let store (stored : option string) : Handler Response :=
       name_text <~ lift (bind_column name) ;;
       bio_text <~ lift (bind_column bio) ;;
       result <~ run (update_profile userId updatedAt name_text bio_text
                        stored) ;;
       user <~ first result ;;
       preferences' <~ lift (JSON_parse (user_preferences user)) ;;
       ret (formatResponse
              (success "Profile updated successfully"
                 [("profile",
                   JObj [("id", JStr (user_id user));
                         ("email", JStr (user_email user));
                         ("name", JStr (user_name user));
                         ("bio", text_json (user_bio user));
                         ("preferences", preferences')])]) 200) in
     match preferences with
     | Some p =>
         if negb (typeof p =? "object") then
           ret (formatResponse
                  (failure "Bad Request" "preferences must be an object") 400)
         else store (Some (JSON_stringify p))
     | None => store None
     end)
    "Failed to update profile".

(** PUT /todos/:id, after [requireAuth]: the body is read once the id has
    passed, and before the todo is looked up. *)
Definition put_todo_request (c : Context) (todoId : string)
    (body : Outcome Json) (now : Z) : Database -> Response * Database :=
  route
    (let userId := ctx_userId c in
     if negb (isValidUUID todoId) then
       ret (formatResponse (failure "Bad Request" "Invalid todo ID format") 400)
     else
       body <~ lift body ;;
       title <~ lift (destructure "title" body) ;;
       description <~ lift (destructure "description" body) ;;
       completed <~ lift (destructure "completed" body) ;;
       existingTodo <~ query (fun db =>
                         get (todos_by_id_and_user todoId userId db)) ;;
       match existingTodo with
       | None => ret (formatResponse (failure "Not Found" "Todo not found") 404)
       | Some _ =>
           title_text <~ lift (bind_column title) ;;
           description_text <~ lift (bind_column description) ;;
           result <~ run (update_todo_columns todoId (seconds_of_ms now)
                            title_text description_text completed) ;;
           todo <~ first result ;;
           ret (formatResponse
                  (success "Todo updated successfully"
                     [("todo", todo_json todo)]) 200)
       end)
    "Failed to update todo".

End Arrivals.

(** The bodies above as the values they are: a field that is undefined is
    not a member. *)
Definition members_of (fields : list (string * option Json))
    : list (string * Json) :=
  flat_map (fun kv => match snd kv with
                      | Some v => [(fst kv, v)]
                      | None => []
                      end) fields.

Definition RegisterBody_json (body : RegisterBody) : Json :=
  JObj (members_of [("email", option_map JStr (reg_email body));
                    ("password", option_map JStr (reg_password body));
                    ("name", option_map JStr (reg_name body))]).

Definition TokenBody_json (body : TokenBody) : Json :=
  JObj (members_of [("email", option_map JStr (tok_email body));
                    ("password", option_map JStr (tok_password body))]).

Definition ProfileBody_json (body : ProfileBody) : Json :=
  JObj (members_of [("name", option_map JStr (prof_name body));
                    ("bio", option_map JStr (prof_bio body));
                    ("preferences", prof_preferences body)]).

Definition TodoBody_json (body : TodoBody) : Json :=
  JObj (members_of [("title", option_map JStr (upd_title body));
                    ("description", option_map JStr (upd_description body));
                    ("completed", upd_completed body)]).

(** A stand-in for the imported packages, to run the handlers on examples:
    a hash is the salt, a colon and the password; a token is the payload's
    fields and then the secret, with bars between them; a number literal
    that is not a small integer is kept as it is written, a date is written
    as its milliseconds, the store takes nothing but text and null, and no
    value is less than a number. *)
Definition fixture_number (n : Z) : string :=
  NilZero.string_of_int (Z.to_int n).

Definition fixture_encode (payload : TokenPayload) (secret : string) : string :=
  String.concat "|"
    [tp_userId payload; tp_email payload; tp_type payload;
     fixture_number (tp_iat payload);
     match tp_nbf payload with
     | Some nbf => fixture_number nbf
     | None => EmptyString
     end;
     match tp_exp payload with
     | Some exp => fixture_number exp
     | None => EmptyString
     end;
     secret].

Definition fixture_decode (token : string) : option TokenPayload :=
  match split "|" token with
  | [userId; email; type; iat; nbf; exp; _] =>
      match NilZero.int_of_string iat with
      | Some i =>
          Some {| tp_userId := userId; tp_email := email; tp_type := type;
                  tp_iat := Z.of_int i;
                  tp_nbf := option_map Z.of_int (NilZero.int_of_string nbf);
                  tp_exp := option_map Z.of_int (NilZero.int_of_string exp) |}
      | None => None
      end
  | _ => None
  end.

Definition fixture : Platform :=
  {| bcrypt_hash := fun password _ salt => salt ++ ":" ++ password;
     bcrypt_compare := fun password hash =>
       match split ":" hash with
       | [_; p] => p =? password
       | _ => false
       end;
     jws_encode := fixture_encode;
     jws_decode := fixture_decode;
     jws_check := fun token secret => last (split "|" token) "" =? secret;
     number_literal_text := fun literal => literal;
     date_text := fun ms => Some (fixture_number ms);
     d1_text := fun _ => Throw "D1_TYPE_ERROR: Type not supported";
     js_less_than := fun _ _ => false |}.

(** The constraints the schema declares, as a test on a store: the primary
    keys [users.id] and [todos.id], the unique columns [users.email] and
    [refresh_tokens.token], and the two references to [users.id]. *)
Fixpoint distinct (keys : list string) : bool :=
  match keys with
  | [] => true
  | k :: rest => negb (existsb (String.eqb k) rest) && distinct rest
  end.

Definition has_user (id : string) (db : Database) : bool :=
  existsb (fun u => user_id u =? id) (users db).

Definition constraints (db : Database) : bool :=
  distinct (map user_id (users db))
  && distinct (map user_email (users db))
  && distinct (map rt_token (refreshTokens db))
  && forallb (fun r => has_user (rt_userId r) db) (refreshTokens db)
  && distinct (map todo_id (todos db))
  && forallb (fun t => has_user (todo_userId t) db) (todos db).

(** A refresh-token row is past its expiry at clock [now] (ms): the test
    [new Date(expiresAt) < new Date()]. *)
Definition past_expiry (r : RefreshToken) (now : Z) : Prop :=
  (rt_expiresAt r * 1000 < now)%Z.

(** A login request that draws the token [tok] from the random source. *)
Definition issues (q : Request) (tok : string) : Prop :=
  match q with
  | PostToken _ random _ _ => generateRefreshToken random = tok
  | _ => False
  end.

(** A login request for which the worker's clock and the store's clock read
    the same second. *)
Definition same_second (q : Request) : Prop :=
  match q with
  | PostToken _ _ now db_now => db_now = seconds_of_ms now
  | _ => True
  end.

(** The end-to-end run of the specification's section 8, on the stand-in
    packages: one account registers and logs in. *)
Definition scenario_env : Env :=
  {| JWT_SECRET := "signing-secret";
     JWT_ACCESS_EXPIRY := 3600;
     JWT_REFRESH_EXPIRY := 2592000 |}.

Definition alice : RegisterBody :=
  {| reg_email := Some "a@b.com";
     reg_password := Some "password123";
     reg_name := Some "A" |}.

Definition alice_id : string := "123e4567-e89b-42d3-a456-426614174000".

Definition alice_login : TokenBody :=
  {| tok_email := Some "a@b.com"; tok_password := Some "password123" |}.

(** A random source that counts: cell [i] holds [i]. *)
Definition counting (i : nat) : Z := Z.of_nat i.

Definition scenario : list Request :=
  [PostRegister alice alice_id "salt" 1700000000;
   PostToken alice_login counting 1700000100000 1700000100].

Definition scenario_db : Database :=
  @serve fixture scenario_env scenario empty_db.

Definition scenario_refresh_token : string := generateRefreshToken counting.

Definition scenario_row : RefreshToken :=
  {| rt_id := 1; rt_token := scenario_refresh_token; rt_userId := alice_id;
     rt_expiresAt := 1702592100; rt_createdAt := 1700000100 |}.

(** A second account, with a todo of its own. *)
Definition bob : RegisterBody :=
  {| reg_email := Some "b@c.org";
     reg_password := Some "correct horse";
     reg_name := Some "B" |}.

Definition bob_id : string := "223e4567-e89b-42d3-a456-426614174001".

Definition bob_todo_id : string := "323e4567-e89b-42d3-a456-426614174002".

(** The Authorization header an account sends after a login at second
    [iat], with the stand-in packages. *)
Definition bearer (userId email : string) (iat : Z) : option string :=
  Some ("Bearer " ++
        fixture_encode
          {| tp_userId := userId; tp_email := email; tp_type := "access";
             tp_iat := iat; tp_nbf := None;
             tp_exp := Some (iat + JWT_ACCESS_EXPIRY scenario_env)%Z |}
          (JWT_SECRET scenario_env)).

Definition alice_header : option string := bearer alice_id "a@b.com" 1700000100.

Definition bob_header : option string := bearer bob_id "b@c.org" 1700000160.

Definition two_accounts : list Request :=
  scenario ++
  [PostRegister bob bob_id "pepper" 1700000150;
   PostTodos bob_header
     {| new_title := Some "Buy milk"; new_description := None |}
     bob_todo_id 1700000200000 1700000200].

Definition two_accounts_db : Database :=
  @serve fixture scenario_env two_accounts empty_db.

(** What POST /register checks before it looks at the store: a field is
    missing, the email has no at sign, the password is under 8 characters. *)
Definition register_invalid (body : RegisterBody) : Prop :=
  falsy (reg_email body) = true \/ falsy (reg_password body) = true
  \/ falsy (reg_name body) = true
  \/ includes (str (reg_email body)) "@" = false
  \/ (strlen (str (reg_password body)) < 8)%Z.

(** What POST /register checks of a body before it looks at the store, on
    the body as it arrives: a field is missing or otherwise falsy; the
    email is a string or an array with no at sign in it; the email has one
    and the password is a string or an array shorter than 8. *)
Definition register_refused `{Platform} (body : Json) : Prop :=
  let email := field "email" body in
  let password := field "password" body in
  let name := field "name" body in
  js_not email = true \/ js_not password = true \/ js_not name = true
  \/ includes_at (the email) = Return false
  \/ (includes_at (the email) = Return true
      /\ shorter_than (the password) 8 = Return true).

(** No number of the value is an infinity. *)
Fixpoint finite (v : Json) : bool :=
  match v with
  | JNum text => negb (text =? "null")
  | JArr items => forallb finite items
  | JObj members => forallb (fun kx => finite (snd kx)) members
  | _ => true
  end.

(** What the specification says of a token, in terms of the package's
    parts: it parses, its signature matches under a secret that is there,
    its expiry is not reached; and what the specification does not
    mention: its not-before time, when it carries one, is still ahead. *)
Definition well_formed `{Platform} (token : string) (payload : TokenPayload)
    : Prop :=
  token <> "" /\ jws_decode token = Some payload.

Definition signature_valid `{Platform} (token secret : string) : Prop :=
  secret <> "" /\ jws_check token secret = true.

Definition expired (payload : TokenPayload) (now : Z) : Prop :=
  exists exp, tp_exp payload = Some exp /\ (exp <= seconds_of_ms now)%Z.

Definition not_yet_active (payload : TokenPayload) (now : Z) : Prop :=
  exists nbf, tp_nbf payload = Some nbf /\ (seconds_of_ms now < nbf)%Z.

(** A token of the stand-in packages that is signed with the scenario's
    secret for the first account, of type access, good for an hour from
    second 1700000100 and not to be used before second 1700000400. *)
Definition postdated : string :=
  fixture_encode {| tp_userId := alice_id; tp_email := "a@b.com";
                    tp_type := "access"; tp_iat := 1700000100;
                    tp_nbf := Some 1700000400;
                    tp_exp := Some 1700003700 |} "signing-secret".

(* ====================================================================== *)
(** ** Further definitions: what the handlers store and answer *)
(* ====================================================================== *)

(** The account POST /register stores for a body, an id, a salt and the
    store's clock. *)
Definition new_account `{Platform} (body : RegisterBody) (uuid salt : string)
    (db_now : Z) : User :=
  {| user_id := uuid;
     user_email := str (reg_email body);
     user_password := hashPassword (str (reg_password body)) salt;
     user_name := str (reg_name body);
     user_bio := Some EmptyString;
     user_preferences := "{}";
     user_createdAt := db_now;
     user_updatedAt := db_now |}.

(** The row POST /token stores for an account, and the store with it. *)
Definition login_row (env : Env) (db : Database) (userId : string)
    (random : nat -> Z) (now db_now : Z) : RefreshToken :=
  {| rt_id := refresh_seq db + 1;
     rt_token := generateRefreshToken random;
     rt_userId := userId;
     rt_expiresAt := seconds_of_ms (now + JWT_REFRESH_EXPIRY env * 1000);
     rt_createdAt := db_now |}.

Definition with_login_row (env : Env) (db : Database) (userId : string)
    (random : nat -> Z) (now db_now : Z) : Database :=
  {| users := users db;
     refreshTokens :=
       (refreshTokens db ++ [login_row env db userId random now db_now])%list;
     todos := todos db;
     refresh_seq := refresh_seq db + 1 |}.

(** The data of a successful POST /token. *)
Definition login_data `{Platform} (env : Env) (accessToken refreshToken : string) : Json :=
  JObj [("success", JBool true);
        ("token_type", JStr "Bearer");
        ("access_token", JStr accessToken);
        ("refresh_token", JStr refreshToken);
        ("expires_in", number (JWT_ACCESS_EXPIRY env))].

(** The payload [generateAccessToken] signs at clock [now]. *)
Definition access_payload (userId email : string) (expirySeconds now : Z)
    : TokenPayload :=
  {| tp_userId := userId; tp_email := email; tp_type := "access";
     tp_iat := seconds_of_ms now; tp_nbf := None;
     tp_exp := Some (seconds_of_ms now + expirySeconds)%Z |}.

(** What no request changes in an account: its id, email, password hash and
    creation time. *)
Definition same_credentials (u u' : User) : Prop :=
  user_id u' = user_id u /\ user_email u' = user_email u
  /\ user_password u' = user_password u
  /\ user_createdAt u' = user_createdAt u.

(** Response data with no password member, at the top or in its profile. *)
Definition hides_password (d : Json) : Prop :=
  field "password" d = None
  /\ forall p, field "profile" d = Some p -> field "password" p = None.

(** The request carries a header whose token verifies for the account. *)
Definition authenticated_as `{Platform} (env : Env)
    (authHeader : option string) (now : Z) (userId : string) : Prop :=
  exists t payload,
    extractBearerToken authHeader = Some t
    /\ verifyAccessToken t (JWT_SECRET env) now = Return (Some payload)
    /\ tp_userId payload = userId.

(** The todo POST /todos stores for a caller, a body, an id and the store's
    clock. *)
Definition new_todo (c : Context) (body : NewTodoBody) (uuid : string)
    (db_now : Z) : Todo :=
  {| todo_id := uuid;
     todo_userId := ctx_userId c;
     todo_title := str (new_title body);
     todo_description :=
       Some (if falsy (new_description body) then EmptyString
             else str (new_description body));
     todo_completed := false;
     todo_createdAt := db_now;
     todo_updatedAt := db_now |}.

(** Reading back two hexadecimal digits at a time. *)
Fixpoint unhex (s : string) : list Z :=
  match s with
  | String a (String b rest) =>
      match hex_value a, hex_value b with
      | Some x, Some y => (16 * x + y)%Z :: unhex rest
      | _, _ => []
      end
  | _ => []
  end.

(** A lower-case hexadecimal digit. *)
Definition is_lower_hex (c : ascii) : bool :=
  ((48 <=? code c) && (code c <=? 57) || (97 <=? code c) && (code c <=? 102))%Z.

Fixpoint all_chars (test : ascii -> bool) (s : string) : bool :=
  match s with
  | EmptyString => true
  | String c rest => test c && all_chars test rest
  end.

(* ====================================================================== *)
(** ** lib/sanitize *)
(* ====================================================================== *)

(** [s.replace(/c/g, replacement)] for a pattern of one character. *)
Fixpoint replace_all (c : ascii) (replacement : string) (s : string)
    : string :=
  match s with
  | EmptyString => EmptyString
  | String d rest =>
      (if Ascii.eqb d c then replacement else String d EmptyString)
      ++ replace_all c replacement rest
  end.

Definition squote : ascii := "039"%char.

(** [escapeHtml(unsafe)] for a string: the five replacements, in the order
    the source chains them. *)
Definition escapeHtml (unsafe : string) : string :=
  replace_all squote "&#039;"
    (replace_all dquote "&quot;"
       (replace_all ">" "&gt;"
          (replace_all "<" "&lt;"
             (replace_all "&" "&amp;" unsafe)))).

(** The entity of one character, or the character itself. *)
Definition escape_char (c : ascii) : string :=
  if Ascii.eqb c "&" then "&amp;"
  else if Ascii.eqb c "<" then "&lt;"
  else if Ascii.eqb c ">" then "&gt;"
  else if Ascii.eqb c dquote then "&quot;"
  else if Ascii.eqb c squote then "&#039;"
  else String c EmptyString.

Fixpoint escape_each (s : string) : string :=
  match s with
  | EmptyString => EmptyString
  | String c rest => escape_char c ++ escape_each rest
  end.

(** The characters that open or close markup or an attribute value. *)
Definition is_markup (c : ascii) : bool :=
  Ascii.eqb c "<" || Ascii.eqb c ">" || Ascii.eqb c dquote
  || Ascii.eqb c squote.

Definition is_special (c : ascii) : bool := Ascii.eqb c "&" || is_markup c.

Fixpoint any_char (test : ascii -> bool) (s : string) : bool :=
  match s with
  | EmptyString => false
  | String c rest => test c || any_char test rest
  end.

(** [sanitizeObject(obj)] for JSON data, whose members are the own
    properties in the order [Object.entries] lists them.  The assignment
    [sanitized[key] = ..] with the key [__proto__] goes to the prototype
    setter of the fresh object and creates no property, so such a member
    is not among the result's. *)
Fixpoint sanitizeObject (obj : Json) : Json :=
  match obj with
  | JStr s => JStr (escapeHtml s)
  | JArr items => JArr (map sanitizeObject items)
  | JObj members =>
      JObj (flat_map
              (fun kx =>
                 if String.eqb (fst kx) "__proto__" then []
                 else [(fst kx, sanitizeObject (snd kx))])
              members)
  | _ => obj
  end.

(** Every string value inside a JSON value, member names apart. *)
Fixpoint string_values (v : Json) : list string :=
  match v with
  | JStr s => [s]
  | JArr items => flat_map string_values items
  | JObj members => flat_map (fun kx => string_values (snd kx)) members
  | _ => []
  end.

(** [c.toLowerCase()] for one code unit below 256: the Latin capitals and
    the accented capitals other than the multiplication sign. *)
Definition to_lower (c : ascii) : ascii :=
  let n := nat_of_ascii c in
  if ((65 <=? n) && (n <=? 90)
      || (192 <=? n) && (n <=? 222) && negb (n =? 215))%nat
  then ascii_of_nat (n + 32)
  else c.

Fixpoint toLowerCase (s : string) : string :=
  match s with
  | EmptyString => EmptyString
  | String c rest => String (to_lower c) (toLowerCase rest)
  end.

(** White space and line terminators below code 256, as [trim] sees them. *)
Definition is_white_space (c : ascii) : bool :=
  let n := nat_of_ascii c in
  ((9 <=? n) && (n <=? 13) || (n =? 32) || (n =? 160))%nat.

Fixpoint trimStart (s : string) : string :=
  match s with
  | EmptyString => EmptyString
  | String c rest => if is_white_space c then trimStart rest else s
  end.

Fixpoint trimEnd (s : string) : string :=
  match s with
  | EmptyString => EmptyString
  | String c rest =>
      match trimEnd rest with
      | EmptyString =>
          if is_white_space c then EmptyString else String c EmptyString
      | kept => String c kept
      end
  end.

Definition trim (s : string) : string := trimEnd (trimStart s).

(** [s.startsWith(prefix)] *)
Definition startsWith (s prefix : string) : bool := String.prefix prefix s.

Definition dangerousProtocols : list string :=
  ["javascript:"; "data:"; "vbscript:"; "file:"].

(** [sanitizeUrl(url)] for a string. *)
Definition sanitizeUrl (url : string) : string :=
  let trimmed := toLowerCase (trim url) in
  if existsb (startsWith trimmed) dangerousProtocols then "#"
  else escapeHtml url.

(** No character of [p] passes the test. *)
Definition none_char (test : ascii -> bool) (p : string) : Prop :=
  any_char test p = false.

(* ====================================================================== *)
(** ** lib/formatters *)
(* ====================================================================== *)

(** [s.includes(needle)] *)
Fixpoint includes_text (s needle : string) : bool :=
  String.prefix needle s
  || match s with
     | EmptyString => false
     | String _ rest => includes_text rest needle
     end.

Inductive ClientType : Type := curl | browser | json.

(** [detectClientType(c)], from the two request headers it reads; a header
    the request does not have is [None]. *)
Definition detectClientType (user_agent accept_header : option string)
    : ClientType :=
  let userAgent := or_default (str user_agent) "" in
  let accept := or_default (str accept_header) "" in
  if includes_text accept "application/json" then json
  else if includes_text accept "text/html" then browser
  else if includes_text (toLowerCase userAgent) "curl" then curl
  else if includes_text (toLowerCase userAgent) "mozilla"
          || includes_text (toLowerCase userAgent) "chrome"
          || includes_text (toLowerCase userAgent) "safari" then browser
  else json.

(* ====================================================================== *)
(** ** terraform-provider-apibasics: internal/client *)
(* ====================================================================== *)

Module client.

(** [struct Client], without the [http.Client] it holds. *)
Record Client : Type := {
  BaseURL : string;
  Email : string;
  Password : string;
  AccessToken : string;
  RefreshToken : string
}.

Definition NewClient (baseURL email password : string) : Client :=
  {| BaseURL := baseURL; Email := email; Password := password;
     AccessToken := EmptyString; RefreshToken := EmptyString |}.

(** What the client puts into an [http.Request]: the method, the URL, the
    two headers it sets and the value whose JSON text is the body. *)
Record HttpRequest : Type := {
  Method : string;
  URL : string;
  Authorization : option string;
  ContentType : option string;
  Payload : option Json
}.

(** What it reads of an [http.Response]: the status and the whole body. *)
Record HttpResponse : Type := {
  StatusCode : Z;
  Body : string
}.

(** The packages under the client: [http.NewRequest], which refuses some
    URLs, [HTTPClient.Do] over a network in some state, and the texts of
    the errors of [encoding/json]. *)
Class Network : Type := {
  World : Type;
  NewRequest : string -> string -> Outcome unit;
  Do : HttpRequest -> World -> Outcome HttpResponse * World;
  SyntaxError : string -> string;
  UnmarshalTypeError : string -> string
}.

(** *** encoding/json into a struct *)

Inductive Kind : Type := KString | KBool | KInt.

(** The struct field a member's key is stored to: the one of that name,
    or else one that differs from it in letter case only. *)
Definition find_field (fields : list (string * Kind)) (key : string)
    : option (string * Kind) :=
  match find (fun f => fst f =? key) fields with
  | Some f => Some f
  | None => find (fun f => toLowerCase (fst f) =? toLowerCase key) fields
  end.

(** The reader of encoding/json: a number is kept as its literal until it
    is stored, an object is gone through member by member. *)
Definition scan (text : string) : Outcome Json :=
  parse_text (fun literal => literal) (fun members => members) text.

(** [strconv.ParseInt(literal, 10, 64)]: the integer that a literal made of
    digits denotes, when 64 bits hold it. *)
Definition ParseInt (literal : string) : option Z :=
  match NilZero.int_of_string literal with
  | Some d =>
      let n := Z.of_int d in
      if (- 2 ^ 63 <=? n)%Z && (n <? 2 ^ 63)%Z then Some n else None
  | None => None
  end.

(** Whether a value can be stored to a field of the kind; [int] has 64
    bits. *)
Definition fits (k : Kind) (v : Json) : bool :=
  match k, v with
  | KString, JStr _ => true
  | KBool, JBool _ => true
  | KInt, JNum literal =>
      match ParseInt literal with
      | Some _ => true
      | None => false
      end
  | _, _ => false
  end.

(** The members of an object one after the other: a member of no field is
    skipped, [null] leaves the field as it is, a value of the wrong type
    is the error that is returned in the end, the first such. *)
Fixpoint store_members `{Network} {T} (fields : list (string * Kind))
    (set : string -> Json -> T -> T) (members : list (string * Json))
    (t : T) : Outcome T :=
  match members with
  | [] => Return t
  | (key, v) :: more =>
      match find_field fields key with
      | None => store_members fields set more t
      | Some (name, kind) =>
          match v with
          | JNull => store_members fields set more t
          | _ =>
              if fits kind v then store_members fields set more (set name v t)
              else Throw (UnmarshalTypeError name)
          end
      end
  end.

(** A JSON value decoded into a struct that starts as [zero]. *)
Definition decode_struct `{Network} {T} (fields : list (string * Kind))
    (set : string -> Json -> T -> T) (zero : T) (v : Json) : Outcome T :=
  match v with
  | JObj members => store_members fields set members zero
  | JNull => Return zero
  | _ => Throw (UnmarshalTypeError EmptyString)
  end.

(** [json.Unmarshal(text, &t)]: the text is one value. *)
Definition Unmarshal `{Network} {T} (fields : list (string * Kind))
    (set : string -> Json -> T -> T) (zero : T) (text : string) : Outcome T :=
  match scan text with
  | Return v => decode_struct fields set zero v
  | Throw _ => Throw (SyntaxError text)
  end.

(** [json.NewDecoder(body).Decode(&t)]: the first value of the stream. *)
Definition Decode `{Network} {T} (fields : list (string * Kind))
    (set : string -> Json -> T -> T) (zero : T) (text : string) : Outcome T :=
  match parse_value (fun literal => literal) (fun members => members)
          (S (String.length text)) text with
  | Some (v, _) => decode_struct fields set zero v
  | None => Throw (SyntaxError text)
  end.

(** [struct TokenResponse] *)
Record TokenResponse : Type := {
  tr_TokenType : string;
  tr_AccessToken : string;
  tr_RefreshToken : string;
  tr_ExpiresIn : Z
}.

Definition TokenResponse_fields : list (string * Kind) :=
  [("token_type", KString); ("access_token", KString);
   ("refresh_token", KString); ("expires_in", KInt)].

Definition TokenResponse_zero : TokenResponse :=
  {| tr_TokenType := EmptyString; tr_AccessToken := EmptyString;
     tr_RefreshToken := EmptyString; tr_ExpiresIn := 0 |}.

Definition TokenResponse_set (name : string) (v : Json) (t : TokenResponse)
    : TokenResponse :=
  match v with
  | JStr s =>
      if name =? "token_type" then
        {| tr_TokenType := s; tr_AccessToken := tr_AccessToken t;
           tr_RefreshToken := tr_RefreshToken t;
           tr_ExpiresIn := tr_ExpiresIn t |}
      else if name =? "access_token" then
        {| tr_TokenType := tr_TokenType t; tr_AccessToken := s;
           tr_RefreshToken := tr_RefreshToken t;
           tr_ExpiresIn := tr_ExpiresIn t |}
      else if name =? "refresh_token" then
        {| tr_TokenType := tr_TokenType t;
           tr_AccessToken := tr_AccessToken t;
           tr_RefreshToken := s; tr_ExpiresIn := tr_ExpiresIn t |}
      else t
  | JNum literal =>
      if name =? "expires_in" then
        {| tr_TokenType := tr_TokenType t;
           tr_AccessToken := tr_AccessToken t;
           tr_RefreshToken := tr_RefreshToken t;
           tr_ExpiresIn := match ParseInt literal with
                           | Some n => n
                           | None => tr_ExpiresIn t
                           end |}
      else t
  | _ => t
  end.

(** [struct Todo] *)
Record Todo : Type := {
  ID : string;
  UserID : string;
  Title : string;
  Description : string;
  Completed : bool;
  CreatedAt : string;
  UpdatedAt : string
}.

Definition Todo_fields : list (string * Kind) :=
  [("id", KString); ("userId", KString); ("title", KString);
   ("description", KString); ("completed", KBool);
   ("createdAt", KString); ("updatedAt", KString)].

Definition Todo_zero : Todo :=
  {| ID := EmptyString; UserID := EmptyString; Title := EmptyString;
     Description := EmptyString; Completed := false;
     CreatedAt := EmptyString; UpdatedAt := EmptyString |}.

Definition Todo_set (name : string) (v : Json) (t : Todo)
    : Todo :=
  match v with
  | JStr s =>
      {| ID := if name =? "id" then s else ID t;
         UserID := if name =? "userId" then s else UserID t;
         Title := if name =? "title" then s else Title t;
         Description := if name =? "description" then s else Description t;
         Completed := Completed t;
         CreatedAt := if name =? "createdAt" then s else CreatedAt t;
         UpdatedAt := if name =? "updatedAt" then s else UpdatedAt t |}
  | JBool b =>
      {| ID := ID t; UserID := UserID t; Title := Title t;
         Description := Description t;
         Completed := if name =? "completed" then b else Completed t;
         CreatedAt := CreatedAt t; UpdatedAt := UpdatedAt t |}
  | _ => t
  end.

(** [%d] of a status code. *)
Definition itoa (n : Z) : string := NilZero.string_of_int (Z.to_int n).

Section ClientMethods.
Context `{Network}.

(** [c.Authenticate()]: the error or [nil], the client as the call leaves
    it, and the network after the call.  [json.Marshal] of a map of
    strings has no error. *)
Definition Authenticate (c : Client) (w : World)
    : Outcome unit * Client * World :=
  let loginData :=
    JObj [("email", JStr (Email c)); ("password", JStr (Password c))] in
  match NewRequest "POST" (BaseURL c ++ "/token") with
  | Throw err => (Throw ("failed to create auth request: " ++ err), c, w)
  | Return _ =>
      let req := {| Method := "POST"; URL := BaseURL c ++ "/token";
                    Authorization := None;
                    ContentType := Some "application/json";
                    Payload := Some loginData |} in
      match Do req w with
      | (Throw err, w') => (Throw ("auth request failed: " ++ err), c, w')
      | (Return resp, w') =>
          if negb (StatusCode resp =? 200)%Z then
            (Throw ("authentication failed (status "
                    ++ itoa (StatusCode resp) ++ "): " ++ Body resp), c, w')
          else
            match Unmarshal TokenResponse_fields TokenResponse_set
                    TokenResponse_zero (Body resp) with
            | Throw err =>
                (Throw ("failed to parse auth response: " ++ err), c, w')
            | Return tokenResp =>
                (Return tt,
                 {| BaseURL := BaseURL c; Email := Email c;
                    Password := Password c;
                    AccessToken := tr_AccessToken tokenResp;
                    RefreshToken := tr_RefreshToken tokenResp |}, w')
            end
      end
  end.

(** The request [Authenticate] sends. *)
Definition login_request (c : Client) : HttpRequest :=
  {| Method := "POST"; URL := BaseURL c ++ "/token";
     Authorization := None; ContentType := Some "application/json";
     Payload := Some (JObj [("email", JStr (Email c));
                            ("password", JStr (Password c))]) |}.

(** The request [DoRequest] builds. *)
Definition authorized (c : Client) (method path : string)
    (body : option Json) : HttpRequest :=
  {| Method := method; URL := BaseURL c ++ path;
     Authorization := Some ("Bearer " ++ AccessToken c);
     ContentType := match body with
                    | Some _ => Some "application/json"
                    | None => None
                    end;
     Payload := body |}.

(** [c.DoRequest(method, path, body)] for a body that [json.Marshal]
    accepts, as the maps the client passes are.  The function calls itself
    after a 401 and a login, without a bound: [fuel] bounds the calls here
    and [None] is a run that needs more of them. *)
Fixpoint DoRequest (fuel : nat) (method path : string) (body : option Json)
    (c : Client) (w : World)
    : option (Outcome HttpResponse * Client * World) :=
  match fuel with
  | O => None
  | S fuel =>
      match NewRequest method (BaseURL c ++ path) with
      | Throw err => Some (Throw ("failed to create request: " ++ err), c, w)
      | Return _ =>
          match Do (authorized c method path body) w with
          | (Throw err, w') => Some (Throw ("request failed: " ++ err), c, w')
          | (Return resp, w') =>
              if (StatusCode resp =? 401)%Z then
                match Authenticate c w' with
                | (Throw err, c', w'') =>
                    Some (Throw ("re-authentication failed: " ++ err),
                          c', w'')
                | (Return _, c', w'') =>
                    DoRequest fuel method path body c' w''
                end
              else Some (Return resp, c, w')
          end
      end
  end.

(** [c.CreateTodo(title, description, completed)] *)
Definition CreateTodo (fuel : nat) (title description : string)
    (completed : bool) (c : Client) (w : World)
    : option (Outcome Todo * Client * World) :=
  let todo := JObj [("completed", JBool completed);
                    ("description", JStr description);
                    ("title", JStr title)] in
  match DoRequest fuel "POST" "/todos" (Some todo) c w with
  | None => None
  | Some (Throw err, c', w') => Some (Throw err, c', w')
  | Some (Return resp, c', w') =>
      if negb (StatusCode resp =? 200)%Z && negb (StatusCode resp =? 201)%Z then
        Some (Throw ("create todo failed (status "
                     ++ itoa (StatusCode resp) ++ "): " ++ Body resp),
              c', w')
      else
        match Decode Todo_fields Todo_set Todo_zero
                (Body resp) with
        | Throw err =>
            Some (Throw ("failed to decode response: " ++ err), c', w')
        | Return createdTodo => Some (Return createdTodo, c', w')
        end
  end.

(** [c.GetTodo(id)] *)
Definition GetTodo (fuel : nat) (id : string) (c : Client) (w : World)
    : option (Outcome Todo * Client * World) :=
  match DoRequest fuel "GET" ("/todos/" ++ id) None c w with
  | None => None
  | Some (Throw err, c', w') => Some (Throw err, c', w')
  | Some (Return resp, c', w') =>
      if (StatusCode resp =? 404)%Z then Some (Throw "todo not found", c', w')
      else if negb (StatusCode resp =? 200)%Z then
        Some (Throw ("get todo failed (status "
                     ++ itoa (StatusCode resp) ++ "): " ++ Body resp),
              c', w')
      else
        match Decode Todo_fields Todo_set Todo_zero
                (Body resp) with
        | Throw err =>
            Some (Throw ("failed to decode response: " ++ err), c', w')
        | Return todo => Some (Return todo, c', w')
        end
  end.

(** The members of [updates], in the order [json.Marshal] writes the keys
    of a map. *)
Definition updates_of (title description : option string)
    (completed : option bool) : Json :=
  JObj (match completed with Some b => [("completed", JBool b)] | None => [] end
        ++ match description with
           | Some s => [("description", JStr s)]
           | None => []
           end
        ++ match title with Some s => [("title", JStr s)] | None => [] end)%list.

(** [c.UpdateTodo(id, title, description, completed)] *)
Definition UpdateTodo (fuel : nat) (id : string)
    (title description : option string) (completed : option bool)
    (c : Client) (w : World)
    : option (Outcome Todo * Client * World) :=
  let updates := updates_of title description completed in
  match DoRequest fuel "PUT" ("/todos/" ++ id) (Some updates) c w with
  | None => None
  | Some (Throw err, c', w') => Some (Throw err, c', w')
  | Some (Return resp, c', w') =>
      if negb (StatusCode resp =? 200)%Z then
        Some (Throw ("update todo failed (status "
                     ++ itoa (StatusCode resp) ++ "): " ++ Body resp),
              c', w')
      else
        match Decode Todo_fields Todo_set Todo_zero
                (Body resp) with
        | Throw err =>
            Some (Throw ("failed to decode response: " ++ err), c', w')
        | Return updatedTodo => Some (Return updatedTodo, c', w')
        end
  end.

(** [c.DeleteTodo(id)] *)
Definition DeleteTodo (fuel : nat) (id : string) (c : Client) (w : World)
    : option (Outcome unit * Client * World) :=
  match DoRequest fuel "DELETE" ("/todos/" ++ id) None c w with
  | None => None
  | Some (Throw err, c', w') => Some (Throw err, c', w')
  | Some (Return resp, c', w') =>
      if (StatusCode resp =? 404)%Z then Some (Return tt, c', w')
      else if negb (StatusCode resp =? 200)%Z then
        Some (Throw ("delete todo failed (status "
                     ++ itoa (StatusCode resp) ++ "): " ++ Body resp),
              c', w')
      else Some (Return tt, c', w')
  end.

End ClientMethods.

End client.

(* ====================================================================== *)
(** ** terraform-provider-apibasics: internal/provider *)
(* ====================================================================== *)

Module provider.
Import client.

(** [types.String]: null, unknown or a known string. *)
Inductive TfString : Type :=
| TfNull
| TfUnknown
| TfValue (s : string).

Definition IsNull (x : TfString) : bool :=
  match x with
  | TfNull => true
  | _ => false
  end.

Definition ValueString (x : TfString) : string :=
  match x with
  | TfValue s => s
  | _ => EmptyString
  end.

(** [struct apibasicsProviderModel] *)
Record apibasicsProviderModel : Type := {
  cfg_Endpoint : TfString;
  cfg_Email : TfString;
  cfg_Password : TfString
}.

(** What [Configure] leaves in the response: the diagnostics, each a
    summary and a detail, all of them errors, and the client handed to
    resources and data sources. *)
Record ConfigureResponse : Type := {
  Diagnostics : list (string * string);
  DataSourceData : option Client;
  ResourceData : option Client
}.

(** [p.Configure(ctx, req, resp)] for a configuration that was read
    without a diagnostic; [Getenv] is the environment of the process. *)
Definition Configure `{Network} (config : apibasicsProviderModel)
    (Getenv : string -> string) (w : World) : ConfigureResponse * World :=
  let endpoint := Getenv "APIBASICS_ENDPOINT" in
  let email := Getenv "APIBASICS_EMAIL" in
  let password := Getenv "APIBASICS_PASSWORD" in
  let endpoint := if negb (IsNull (cfg_Endpoint config))
                  then ValueString (cfg_Endpoint config) else endpoint in
  let email := if negb (IsNull (cfg_Email config))
               then ValueString (cfg_Email config) else email in
  let password := if negb (IsNull (cfg_Password config))
                  then ValueString (cfg_Password config) else password in
  let endpoint := if endpoint =? ""
                  then "https://api-basics.sharted.workers.dev"
                  else endpoint in
  let diagnostics :=
    ((if email =? "" then
        [("Missing Email Configuration",
          ("The provider requires an email for authentication. "
           ++ "Set the email value in the configuration or use the APIBASICS_EMAIL environment variable.")%string)]
      else [])
     ++ (if password =? "" then
           [("Missing Password Configuration",
             ("The provider requires a password for authentication. "
              ++ "Set the password value in the configuration or use the APIBASICS_PASSWORD environment variable.")%string)]
         else []))%list in
  match diagnostics with
  | _ :: _ =>
      ({| Diagnostics := diagnostics; DataSourceData := None;
          ResourceData := None |}, w)
  | [] =>
      let apiClient := NewClient endpoint email password in
      match Authenticate apiClient w with
      | (Throw err, _, w') =>
          ({| Diagnostics :=
                [("Unable to Authenticate with API",
                  "An unexpected error occurred when authenticating with the API. "
                  ++ "Error: " ++ err)];
              DataSourceData := None; ResourceData := None |}, w')
      | (Return _, apiClient, w') =>
          ({| Diagnostics := []; DataSourceData := Some apiClient;
              ResourceData := Some apiClient |}, w')
      end
  end.

End provider.

(** The values the reader of encoding/json takes from a text as they
    were written: every number is a literal or the word null. *)
Definition as_written (v : Json) : bool :=
  canonical (fun literal => literal) (fun _ => true) v.

(** What the worker sends for a [formatResponse] that takes the JSON
    branch, as it does for a request with the headers of the client: the
    status and the text of the data.  A [Date] in the data is written here
    as the number that stands for it. *)
Definition wire (r : Response) : client.HttpResponse :=
  {| client.StatusCode := status r;
     client.Body := JSON_stringify (data r) |}.

(** A network for examples: its state counts the requests sent, and the
    answer to a request is a function of the request and the count. *)
Definition scripted
    (answer : client.HttpRequest -> nat -> Outcome client.HttpResponse)
    : client.Network :=
  {| client.World := nat;
     client.NewRequest := fun _ _ => Return tt;
     client.Do := fun req n => (answer req n, S n);
     client.SyntaxError := fun _ => "invalid character";
     client.UnmarshalTypeError := fun name => "cannot unmarshal into " ++ name |}.

(** Values for the examples of the second half: a random source other than
    [counting], the row of the first account, the contexts the guard sets
    for the two accounts and the todo of the second. *)
Definition counting_from_one (i : nat) : Z := Z.of_nat i + 1.

Definition alice_row : User :=
  @new_account fixture alice alice_id "salt" 1700000000.

Definition alice_context : Context :=
  {| ctx_userId := alice_id; ctx_userEmail := "a@b.com" |}.

Definition bob_context : Context :=
  {| ctx_userId := bob_id; ctx_userEmail := "b@c.org" |}.

Definition bob_todo : Todo :=
  new_todo bob_context
    {| new_title := Some "Buy milk"; new_description := None |}
    bob_todo_id 1700000200.

(** The client of the first account and the answers of three networks:
    one that sends what POST /token answers to the client's login, one that
    answers 401 once and 200 from then on, and one on which every token has
    expired by the time it is used. *)
Definition alice_client : client.Client :=
  client.NewClient "https://api.example" "a@b.com" "password123".

Definition token_pair : Json :=
  JObj [("access_token", JStr "first"); ("refresh_token", JStr "second")].

Definition login_answer (req : client.HttpRequest) (n : nat)
    : Outcome client.HttpResponse :=
  Return (wire (fst (@token fixture scenario_env alice_login
                       counting_from_one 1700000300000 1700000300
                       scenario_db))).

Definition expired_once (req : client.HttpRequest) (n : nat)
    : Outcome client.HttpResponse :=
  match client.Authorization req, n with
  | None, _ =>
      Return {| client.StatusCode := 200;
                client.Body := JSON_stringify token_pair |}
  | Some _, O =>
      Return {| client.StatusCode := 401; client.Body := "expired" |}
  | Some _, _ => Return {| client.StatusCode := 200; client.Body := "[]" |}
  end.

Definition always_expired (req : client.HttpRequest) (n : nat)
    : Outcome client.HttpResponse :=
  match client.Authorization req with
  | None =>
      Return {| client.StatusCode := 200;
                client.Body := JSON_stringify token_pair |}
  | Some _ =>
      Return {| client.StatusCode := 401; client.Body := "expired" |}
  end.

Definition create_answer (req : client.HttpRequest) (n : nat)
    : Outcome client.HttpResponse :=
  Return (wire (fst (@create_todo fixture alice_context
                       {| new_title := Some "Buy milk";
                          new_description := Some "two litres" |}
                       bob_todo_id 1700000400 scenario_db))).

Definition environment (name : string) : string :=
  if name =? "APIBASICS_EMAIL" then "a@b.com"
  else if name =? "APIBASICS_PASSWORD" then "password123"
  else EmptyString.

(* ====================================================================== *)
(** * Properties *)
(* ====================================================================== *)

(** ** Strings *)

Lemma split_nonempty sep s : split sep s <> [].
Proof.
  destruct s as [|c rest]; simpl; [discriminate|].
  destruct (Ascii.eqb c sep); [discriminate|].
  destruct (split sep rest); discriminate.
Qed.

(** One part: the text itself, with no separator in it. *)
Lemma split_one sep s x :
  split sep s = [x] <-> x = s /\ includes s sep = false.
Proof.
  revert x. induction s as [|c rest IH]; intros x; simpl.
  - split.
    + intros Heq. injection Heq as <-. now split.
    + intros [-> _]. reflexivity.
  - destruct (Ascii.eqb c sep) eqn:Hc; simpl.
    + split; [|intros [_ Hf]; discriminate].
      intros Heq. injection Heq as _ Hs. now apply split_nonempty in Hs.
    + destruct (split sep rest) as [|part parts] eqn:Hs.
      * now apply split_nonempty in Hs.
      * split.
        -- intros Heq. injection Heq as <- ->.
           destruct (IH part) as [Hfwd _]. destruct (Hfwd eq_refl) as [-> Hf].
           now split.
        -- intros [-> Hf]. destruct (IH rest) as [_ Hbwd].
           assert (Hp : part :: parts = [rest]) by now apply Hbwd.
           now injection Hp as -> ->.
Qed.

(** Two parts: the text is the first, one separator, the second, and the
    separator is in neither. *)
Lemma split_two sep s a b :
  split sep s = [a; b] <->
  s = a ++ String sep b /\ includes a sep = false /\ includes b sep = false.
Proof.
  revert a. induction s as [|c rest IH]; intros a; simpl.
  - split; [discriminate|]. intros [Heq _]. destruct a; discriminate.
  - destruct (Ascii.eqb c sep) eqn:Hc.
    + apply Ascii.eqb_eq in Hc. subst c. split.
      * intros Heq. injection Heq as <- Hs. apply split_one in Hs.
        destruct Hs as [-> Hf]. now repeat split.
      * intros [Heq [Ha Hb]]. destruct a as [|d a'].
        -- simpl in Heq. injection Heq as ->.
           assert (Hs : split sep b = [b]) by now apply split_one.
           now rewrite Hs.
        -- simpl in Heq, Ha. injection Heq as <- _.
           rewrite Ascii.eqb_refl in Ha. discriminate.
    + destruct (split sep rest) as [|part parts] eqn:Hs.
      * now apply split_nonempty in Hs.
      * split.
        -- intros Heq. injection Heq as <- ->.
           destruct (IH part) as [Hfwd _].
           destruct (Hfwd eq_refl) as [Hr [Ha Hb]].
           subst rest. simpl. rewrite Hc. now repeat split.
        -- intros [Heq [Ha Hb]]. destruct a as [|d a'].
           ++ simpl in Heq. injection Heq as -> _.
              rewrite Ascii.eqb_refl in Hc. discriminate.
           ++ simpl in Heq, Ha. injection Heq as <- ->. rewrite Hc in Ha.
              simpl in Ha. destruct (IH a') as [_ Hbwd].
              assert (Hp : part :: parts = [a'; b]) by now apply Hbwd.
              now injection Hp as -> ->.
Qed.

(** ** JSON: what is written is read back *)

Lemma append_assoc (a b c : string) : (a ++ b) ++ c = a ++ (b ++ c).
Proof. induction a as [|x a IH]; simpl; [reflexivity|now rewrite IH]. Qed.

Lemma length_append (a b : string) :
  String.length (a ++ b) = (String.length a + String.length b)%nat.
Proof. induction a as [|x a IH]; simpl; [reflexivity|now rewrite IH]. Qed.

Lemma append_empty (a : string) : a ++ "" = a.
Proof. induction a as [|x a IH]; simpl; [reflexivity|now rewrite IH]. Qed.

(** *** Numbers *)

Lemma span_digits_uint (d : uint) (rest : string) :
  starts_with is_digit rest = false ->
  span_digits (NilEmpty.string_of_uint d ++ rest)
  = (NilEmpty.string_of_uint d, rest).
Proof.
  intros Hrest. induction d as [|d IH|d IH|d IH|d IH|d IH|d IH|d IH|d IH|d IH|d IH];
    simpl; try (rewrite IH; reflexivity).
  destruct rest as [|c rest]; [reflexivity|]. simpl in *. now rewrite Hrest.
Qed.

Lemma to_uint_no_leading_zero (p : positive) (d : uint) :
  Pos.to_uint p <> D0 d.
Proof.
  intros Heq.
  assert (Hnorm : Pos.to_uint p = unorm (Pos.to_uint p)).
  { rewrite <- (Unsigned.to_of (Pos.to_uint p)), Unsigned.of_to. reflexivity. }
  unfold unorm in Hnorm.
  destruct (nzhead (Pos.to_uint p)) eqn:Hnz;
    try (rewrite Hnorm in Heq; rewrite <- Hnz in Heq;
         now apply nzhead_nonzero in Heq).
  now apply (Unsigned.to_uint_nonzero p).
Qed.

Lemma string_of_uint_nonempty (d : uint) :
  d <> Nil -> NilEmpty.string_of_uint d <> "".
Proof. destruct d; simpl; congruence. Qed.

Lemma string_of_uint_leading (d : uint) :
  (forall d', d <> D0 d') -> leading_zero (NilEmpty.string_of_uint d) = false.
Proof.
  intros Hd. destruct d as [|d|d|d|d|d|d|d|d|d|d]; simpl; try reflexivity;
    try (destruct (NilEmpty.string_of_uint d); reflexivity).
  now elim (Hd d).
Qed.

(** The digits of a positive number, scanned. *)
Lemma scan_digits_pos (p : positive) :
  let ds := NilEmpty.string_of_uint (Pos.to_uint p) in
  span_digits ds = (ds, "")
  /\ (ds =? "") = false /\ leading_zero ds = false
  /\ starts_with (Ascii.eqb "-") ds = false
  /\ NilZero.string_of_uint (Pos.to_uint p) = ds.
Proof.
  intros ds. split; [|split; [|split; [|split]]].
  - pose proof (span_digits_uint (Pos.to_uint p) "" eq_refl) as Hs.
    now rewrite append_empty in Hs.
  - apply String.eqb_neq, string_of_uint_nonempty, Unsigned.to_uint_nonnil.
  - apply string_of_uint_leading. intros d'. apply to_uint_no_leading_zero.
  - unfold ds. destruct (Pos.to_uint p) eqn:Hp; try reflexivity.
  - unfold NilZero.string_of_uint, ds. destruct (Pos.to_uint p) eqn:Hp;
      try reflexivity. now elim (Unsigned.to_uint_nonnil p).
Qed.

(** The digits of an integer are one number literal. *)
Lemma scan_number_digits (n : Z) :
  scan_number (digits n) = Some (digits n, "").
Proof.
  unfold digits. destruct n as [|p|p]; [reflexivity| |].
  - destruct (scan_digits_pos p) as [Hspan [Hne [Hlead [Hminus Htext]]]].
    change (NilZero.string_of_int (Z.to_int (Z.pos p)))
      with (NilZero.string_of_uint (Pos.to_uint p)).
    rewrite Htext. unfold scan_number, take_char.
    destruct (NilEmpty.string_of_uint (Pos.to_uint p)) as [|c ds] eqn:Hds;
      [discriminate|].
    cbn [starts_with] in Hminus. rewrite Hminus, Hspan, Hne, Hlead.
    cbn. now rewrite append_empty.
  - destruct (scan_digits_pos p) as [Hspan [Hne [Hlead [_ Htext]]]].
    change (NilZero.string_of_int (Z.to_int (Z.neg p)))
      with (String "-" (NilZero.string_of_uint (Pos.to_uint p))).
    rewrite Htext. unfold scan_number, take_char.
    change (Ascii.eqb "-" "-") with true. cbn iota.
    rewrite Hspan, Hne, Hlead. cbn. now rewrite append_empty.
Qed.

Lemma int_of_digits (n : Z) :
  NilZero.int_of_string (digits n) = Some (Z.to_int n).
Proof.
  unfold digits. apply NilZero.isi.
  - destruct n; simpl; try discriminate.
    intros Heq. injection Heq as Heq.
    now apply (Unsigned.to_uint_nonnil p).
  - destruct n; simpl; try discriminate.
    intros Heq. injection Heq as Heq.
    now apply (Unsigned.to_uint_nonnil p).
Qed.

Lemma span_digits_app (s ds tl rest : string) :
  span_digits s = (ds, tl) ->
  (tl = "" -> starts_with is_digit rest = false) ->
  span_digits (s ++ rest) = (ds, tl ++ rest).
Proof.
  revert ds tl. induction s as [|c s IH]; intros ds tl Hs Hrest.
  - injection Hs as <- <-. simpl.
    destruct rest as [|c rest]; [reflexivity|].
    specialize (Hrest eq_refl). simpl in *. now rewrite Hrest.
  - simpl in *. destruct (is_digit c).
    + destruct (span_digits s) as [ds' tl'] eqn:Hs'.
      injection Hs as <- <-. now rewrite (IH ds' tl' eq_refl Hrest).
    + injection Hs as <- <-. reflexivity.
Qed.

Lemma scan_fraction_app (s frac tl rest : string) :
  scan_fraction s = Some (frac, tl) ->
  (tl = "" -> number_end rest) ->
  scan_fraction (s ++ rest) = Some (frac, tl ++ rest).
Proof.
  intros Hs Hrest. destruct s as [|c s].
  - injection Hs as <- <-. simpl. destruct rest as [|c rest]; [reflexivity|].
    destruct (Hrest eq_refl) as [_ Hf]. simpl in *.
    unfold is_fraction_start in Hf.
    destruct (Ascii.eqb c "."); [discriminate|reflexivity].
  - simpl in *. destruct (Ascii.eqb c ".").
    + destruct (span_digits s) as [fs tail] eqn:Hspan.
      destruct (fs =? "") eqn:Hfs; [discriminate|]. injection Hs as <- <-.
      rewrite (span_digits_app s fs tail rest Hspan), Hfs; [reflexivity|].
      intros Ht. now destruct (Hrest Ht).
    + injection Hs as <- <-. reflexivity.
Qed.

Lemma scan_exponent_app (s exponent tl rest : string) :
  scan_exponent s = Some (exponent, tl) ->
  (tl = "" -> number_end rest) ->
  scan_exponent (s ++ rest) = Some (exponent, tl ++ rest).
Proof.
  intros Hs Hrest. destruct s as [|c s].
  - injection Hs as <- <-. simpl. destruct rest as [|c rest]; [reflexivity|].
    destruct (Hrest eq_refl) as [_ Hf]. simpl in *.
    unfold is_fraction_start in Hf. unfold is_exponent_mark.
    destruct (Ascii.eqb c "."), (Ascii.eqb c "e"), (Ascii.eqb c "E");
      try discriminate; reflexivity.
  - simpl in *. destruct (is_exponent_mark c).
    + destruct s as [|d s].
      * simpl in Hs. discriminate.
      * simpl in *. destruct (is_sign d).
        -- destruct (span_digits s) as [es tail] eqn:Hspan.
           destruct (es =? "") eqn:Hes; [discriminate|]. injection Hs as <- <-.
           rewrite (span_digits_app s es tail rest Hspan), Hes; [reflexivity|].
           intros Ht. now destruct (Hrest Ht).
        -- destruct (span_digits (String d s)) as [es tail] eqn:Hspan.
           destruct (es =? "") eqn:Hes; [discriminate|]. injection Hs as <- <-.
           change (String d (s ++ rest)) with (String d s ++ rest).
           rewrite (span_digits_app (String d s) es tail rest Hspan), Hes;
             [reflexivity|].
           intros Ht. now destruct (Hrest Ht).
    + injection Hs as <- <-. reflexivity.
Qed.

(** A literal is scanned the same way with more text after it, when the
    literal cannot go on into that text. *)
Lemma scan_number_app (t lit tl rest : string) :
  scan_number t = Some (lit, tl) ->
  (tl = "" -> number_end rest) ->
  scan_number (t ++ rest) = Some (lit, tl ++ rest).
Proof.
  unfold scan_number. intros Hs Hrest.
  destruct (take_char (Ascii.eqb "-") t) as [sign unsigned] eqn:Hsign.
  destruct (span_digits unsigned) as [ds after_digits] eqn:Hds.
  destruct (ds =? "") eqn:Hne; [discriminate|].
  destruct (leading_zero ds) eqn:Hlead; [discriminate|].
  destruct (scan_fraction after_digits) as [[fraction after_fraction]|] eqn:Hf;
    [|discriminate].
  destruct (scan_exponent after_fraction) as [[exponent tail]|] eqn:He;
    [|discriminate].
  injection Hs as <- <-.
  assert (Hfrac_end : after_fraction = "" -> number_end rest).
  { intros ->. simpl in He. injection He as _ <-. now apply Hrest. }
  assert (Hdigits_end : after_digits = "" -> number_end rest).
  { intros ->. simpl in Hf. injection Hf as _ <-. now apply Hfrac_end. }
  assert (Htake : take_char (Ascii.eqb "-") (t ++ rest)
                  = (sign, unsigned ++ rest)).
  { destruct t as [|c t].
    - simpl in Hsign. injection Hsign as <- <-. simpl in Hds.
      injection Hds as <- _. discriminate.
    - cbn [take_char append] in *.
      destruct (Ascii.eqb "-" c); injection Hsign as <- <-; reflexivity. }
  rewrite Htake.
  rewrite (span_digits_app unsigned ds after_digits rest Hds), Hne, Hlead.
  2:{ intros Ht. now destruct (Hdigits_end Ht). }
  rewrite (scan_fraction_app _ _ _ rest Hf Hfrac_end).
  rewrite (scan_exponent_app _ _ _ rest He Hrest). reflexivity.
Qed.

Lemma span_digits_head (s ds tl : string) :
  span_digits s = (ds, tl) -> ds <> "" ->
  exists c t, s = String c t /\ is_digit c = true.
Proof.
  intros Hs Hne. destruct s as [|c s]; simpl in Hs.
  - injection Hs as <- _. now elim Hne.
  - destruct (is_digit c) eqn:Hc; [eauto|].
    injection Hs as <- _. now elim Hne.
Qed.

(** A literal starts with a minus sign or a digit. *)
Lemma scan_number_head (t lit tl : string) :
  scan_number t = Some (lit, tl) ->
  exists c t', t = String c t' /\ (c = "-"%char \/ is_digit c = true).
Proof.
  unfold scan_number. intros Hs.
  destruct (take_char (Ascii.eqb "-") t) as [sign unsigned] eqn:Hsign.
  destruct (span_digits unsigned) as [ds after_digits] eqn:Hds.
  destruct (String.eqb_spec ds "") as [|Hne]; [discriminate|].
  destruct t as [|c t]; cbn [take_char] in Hsign.
  - injection Hsign as <- <-. simpl in Hds. injection Hds as <- _.
    now elim Hne.
  - destruct (Ascii.eqb_spec "-"%char c) as [<-|Hc].
    + eauto.
    + injection Hsign as <- <-.
      destruct (span_digits_head _ _ _ Hds Hne) as [d [t' [Heq Hd]]].
      injection Heq as <- <-. eauto.
Qed.

Section Runtime.
Context `{Platform}.

(** An integer the worker computes is a number that reads back, when a
    double holds it exactly. *)
Lemma number_of_literal_digits (n : Z) :
  (Z.abs n <= 2 ^ 53)%Z -> number_of_literal (digits n) = digits n.
Proof.
  intros Hn. unfold number_of_literal. rewrite int_of_digits.
  rewrite (DecimalZ.of_to n).
  destruct (Z.leb_spec (Z.abs n) (2 ^ 53)) as [_|Hgt]; [reflexivity|lia].
Qed.

Lemma number_text_digits (n : Z) :
  (Z.abs n <= 2 ^ 53)%Z -> number_text number_of_literal (digits n) = true.
Proof.
  intros Hn. unfold number_text.
  rewrite scan_number_digits, number_of_literal_digits, !String.eqb_refl
    by assumption.
  reflexivity.
Qed.

Lemma number_digits (n : Z) :
  (Z.abs n <= 2 ^ 53)%Z -> number n = JNum (digits n).
Proof. intros Hn. unfold number. now rewrite number_of_literal_digits. Qed.

End Runtime.

(** The digits of an integer are a literal for a reader that keeps
    literals, and are not the word null. *)
Lemma literal_text_digits (n : Z) :
  number_text (fun literal => literal) (digits n) = true.
Proof.
  unfold number_text. now rewrite scan_number_digits, !String.eqb_refl.
Qed.

Lemma digits_not_null (n : Z) : (digits n =? "null") = false.
Proof.
  destruct (scan_number_head _ _ _ (scan_number_digits n))
    as [c [t [Heq Hc]]].
  rewrite Heq. destruct (String.eqb_spec (String c t) "null") as [Hnull|];
    [|reflexivity].
  injection Hnull as -> _. destruct Hc as [Hc|Hc]; discriminate.
Qed.

(** *** Strings *)

(** Reading the escape of one character gives the character back. *)
Lemma parse_chars_quote_char (c : ascii) (tail : string) (fuel : nat) :
  parse_chars (S fuel) (quote_char c ++ tail) =
  match parse_chars fuel tail with
  | Some (body, rest) => Some (String c body, rest)
  | None => None
  end.
Proof.
  destruct c as [[|] [|] [|] [|] [|] [|] [|] [|]]; reflexivity.
Qed.

Lemma parse_chars_quote_body (s rest : string) (fuel : nat) :
  (String.length s < fuel)%nat ->
  parse_chars fuel (quote_body s ++ rest) = Some (s, rest).
Proof.
  revert fuel. induction s as [|c s IH]; intros fuel Hfuel; simpl in *.
  - destruct fuel as [|fuel]; [lia|]. reflexivity.
  - destruct fuel as [|fuel]; [lia|].
    rewrite append_assoc, parse_chars_quote_char, IH by lia. reflexivity.
Qed.

Lemma quote_char_length (c : ascii) : (1 <= String.length (quote_char c))%nat.
Proof.
  unfold quote_char.
  repeat match goal with
         | |- context [if ?b then _ else _] => destruct b
         end; simpl; lia.
Qed.

Lemma quote_body_length (s : string) :
  (String.length s < String.length (quote_body s))%nat.
Proof.
  induction s as [|c s IH]; simpl; [lia|].
  rewrite length_append. pose proof (quote_char_length c). lia.
Qed.

Lemma parse_string_quote (s rest : string) :
  parse_string (quote_body s ++ rest) = Some (s, rest).
Proof.
  unfold parse_string. apply parse_chars_quote_body.
  rewrite length_append. pose proof (quote_body_length s). lia.
Qed.

(** *** Values *)

Lemma Json_induction (P : Json -> Prop) :
  P JNull -> (forall b, P (JBool b)) -> (forall text, P (JNum text)) ->
  (forall s, P (JStr s)) ->
  (forall items, Forall P items -> P (JArr items)) ->
  (forall members, Forall (fun kx => P (snd kx)) members -> P (JObj members)) ->
  forall v, P v.
Proof.
  intros Hnull Hbool Hnum Hstr Harr Hobj.
  fix IH 1. intros [ |b|n|s|items|members].
  - exact Hnull.
  - apply Hbool.
  - apply Hnum.
  - apply Hstr.
  - apply Harr. induction items as [|x items IHitems]; constructor.
    + apply IH.
    + exact IHitems.
  - apply Hobj. induction members as [|[k x] members IHmembers]; constructor.
    + apply IH.
    + exact IHmembers.
Qed.

(** A minus sign or a digit is none of the characters a value of another
    kind starts with. *)
Lemma number_dispatch (c : ascii) :
  c = "-"%char \/ is_digit c = true ->
  is_ws c = false /\ Ascii.eqb c "n" = false /\ Ascii.eqb c "t" = false
  /\ Ascii.eqb c "f" = false /\ Ascii.eqb c dquote = false
  /\ Ascii.eqb c "[" = false /\ Ascii.eqb c "{" = false
  /\ Ascii.eqb c "]" = false /\ Ascii.eqb c "}" = false.
Proof.
  destruct c as [[|] [|] [|] [|] [|] [|] [|] [|]];
    intros [Hc|Hc]; try discriminate; repeat split; reflexivity.
Qed.

(** *** Objects *)

Lemma define_last (key : string) (x : Json) (members : list (string * Json)) :
  forallb (fun k => negb (k =? key) && negb (comes_before key k))
    (map fst members) = true ->
  define key x members = (members ++ [(key, x)])%list.
Proof.
  induction members as [|[k y] members IH]; [reflexivity|].
  cbn [map fst forallb define]. intros Hk.
  apply andb_prop in Hk. destruct Hk as [Hk Hmore].
  apply andb_prop in Hk. destruct Hk as [Hne Hafter].
  apply negb_true_iff in Hne, Hafter. rewrite Hne, Hafter, IH by assumption.
  reflexivity.
Qed.

Lemma ordered_app (a : list string) (key : string) (b : list string) :
  ordered (a ++ key :: b) = true ->
  forallb (fun k => negb (k =? key) && negb (comes_before key k)) a = true
  /\ ordered ((a ++ [key]) ++ b) = true.
Proof.
  rewrite <- List.app_assoc. cbn [app]. intros Ho. split; [|exact Ho].
  induction a as [|k a IH]; [reflexivity|].
  cbn [app ordered forallb] in *.
  apply andb_prop in Ho. destruct Ho as [Hk Ho].
  rewrite forallb_app in Hk. apply andb_prop in Hk. destruct Hk as [_ Hk].
  cbn [forallb] in Hk. apply andb_prop in Hk. destruct Hk as [Hk _].
  rewrite Hk, IH by assumption. reflexivity.
Qed.

Lemma fold_define (members acc : list (string * Json)) :
  ordered (map fst (acc ++ members)) = true ->
  fold_left (fun object kx => define (fst kx) (snd kx) object) members acc
  = (acc ++ members)%list.
Proof.
  revert acc. induction members as [|[k x] members IH]; intros acc Ho.
  - now rewrite List.app_nil_r.
  - rewrite List.map_app in Ho. cbn [map fst] in Ho.
    apply ordered_app in Ho. destruct Ho as [Hk Ho].
    cbn [fold_left fst snd]. rewrite define_last by assumption.
    rewrite IH.
    + now rewrite <- List.app_assoc.
    + now rewrite !List.map_app.
Qed.

(** An object whose keys are in their places is built as it is. *)
Lemma object_of_ordered (members : list (string * Json)) :
  ordered (map fst members) = true -> object_of members = members.
Proof. intros Ho. unfold object_of. now rewrite fold_define. Qed.

Section Reading.
Variable number : string -> string.
Variable object : list (string * Json) -> list (string * Json).
Variable keys : list string -> bool.
Hypothesis object_keys :
  forall members, keys (map fst members) = true -> object members = members.

(** The two kinds of number text. *)
Lemma number_text_cases (text : string) :
  number_text number text = true ->
  (scan_number text = Some (text, "") /\ number text = text)
  \/ text = "null".
Proof.
  unfold number_text. intros Ht. apply orb_prop in Ht.
  destruct Ht as [Ht|Ht]; [left|right; now apply String.eqb_eq].
  destruct (scan_number text) as [[lit tail]|]; [|discriminate].
  apply andb_prop in Ht. destruct Ht as [Ht Hn].
  apply andb_prop in Ht. destruct Ht as [Hl Htl].
  apply String.eqb_eq in Hl, Htl, Hn. subst. now split.
Qed.

(** What the text of a value starts with: no white space, and no closing
    bracket or brace. *)
Lemma stringify_head (v : Json) :
  canonical number keys v = true ->
  exists c t, JSON_stringify v = String c t
              /\ is_ws c = false /\ Ascii.eqb c "]" = false
              /\ Ascii.eqb c "}" = false.
Proof.
  intros Hv. destruct v as [ |[|]|text|s|items|members];
    try (eexists; eexists; split; [reflexivity|repeat split]).
  cbn [canonical] in Hv. apply number_text_cases in Hv.
  destruct Hv as [[Hscan _]| ->].
  - destruct (scan_number_head _ _ _ Hscan) as [c [t [-> Hc]]].
    exists c, t. split; [reflexivity|].
    apply number_dispatch in Hc. tauto.
  - eexists; eexists; split; [reflexivity|repeat split].
Qed.

Lemma skip_ws_head (c : ascii) (t : string) :
  is_ws c = false -> skip_ws (String c t) = String c t.
Proof. intros Hc. simpl. now rewrite Hc. Qed.

Lemma number_end_punctuation (c : ascii) (rest : string) :
  c = ","%char \/ c = "]"%char \/ c = "}"%char ->
  number_end (String c rest).
Proof. intros [->|[->| ->]]; split; reflexivity. Qed.

Lemma parse_elements_step (fuel : nat) (s : string) :
  parse_elements number object (S fuel) s =
  match parse_value number object fuel s with
  | Some (x, tail) =>
      match skip_ws tail with
      | String ","%char more =>
          match parse_elements number object fuel more with
          | Some (xs, tail') => Some (x :: xs, tail')
          | None => None
          end
      | String "]"%char tail' => Some ([x], tail')
      | _ => None
      end
  | None => None
  end.
Proof. reflexivity. Qed.

Lemma parse_members_step (fuel : nat) (key rest : string) :
  parse_members number object (S fuel) (String dquote (quote_body key ++ rest)) =
  match skip_ws rest with
  | String ":"%char more =>
      match parse_value number object fuel more with
      | Some (x, tail') =>
          match skip_ws tail' with
          | String ","%char more' =>
              match parse_members number object fuel more' with
              | Some (ms, tail'') => Some ((key, x) :: ms, tail'')
              | None => None
              end
          | String "}"%char tail'' => Some ([(key, x)], tail'')
          | _ => None
          end
      | None => None
      end
  | _ => None
  end.
Proof.
  cbn [parse_members skip_ws is_ws].
  change (is_ws dquote) with false. cbn iota.
  rewrite Ascii.eqb_refl, parse_string_quote. reflexivity.
Qed.

Lemma parse_elements_text (items : list Json) :
  Forall (reads_back number object) items -> items <> [] ->
  forall fuel rest,
    (fold_right (fun x n => S (size x + n)) O items <= fuel)%nat ->
    parse_elements number object fuel (elements_text items ++ rest)
    = Some (map reread items, rest).
Proof.
  induction 1 as [|x items Hx Hitems IH]; [congruence|]. intros _ fuel rest.
  simpl fold_right. intros Hfuel.
  destruct fuel as [|fuel]; [lia|]. rewrite parse_elements_step.
  destruct items as [|y items].
  - change (elements_text [x]) with (JSON_stringify x ++ "]").
    rewrite append_assoc.
    rewrite Hx; [|simpl in Hfuel; lia|now apply number_end_punctuation; auto].
    reflexivity.
  - change (elements_text (x :: y :: items))
      with (JSON_stringify x ++ "," ++ elements_text (y :: items)).
    rewrite !append_assoc.
    rewrite Hx; [|simpl in Hfuel; lia|now apply number_end_punctuation; auto].
    change (skip_ws ("," ++ elements_text (y :: items) ++ rest))
      with (String ","%char (elements_text (y :: items) ++ rest)).
    cbn iota.
    rewrite IH; [reflexivity|discriminate|simpl in *; lia].
Qed.

Lemma parse_members_text (members : list (string * Json)) :
  Forall (fun kx => reads_back number object (snd kx)) members -> members <> [] ->
  forall fuel rest,
    (fold_right (fun kx n => S (size (snd kx) + n)) O members <= fuel)%nat ->
    parse_members number object fuel (members_text members ++ rest)
    = Some (map (fun kx => (fst kx, reread (snd kx))) members, rest).
Proof.
  induction 1 as [|[k x] members Hx Hmembers IH]; [congruence|].
  intros _ fuel rest. simpl fold_right. intros Hfuel.
  destruct fuel as [|fuel]; [lia|]. cbn [snd] in Hx.
  destruct members as [|[k' y] members].
  - change (members_text [(k, x)] ++ rest)
      with (String dquote ((quote_body k ++ ":" ++ JSON_stringify x ++ "}")
                           ++ rest)).
    rewrite append_assoc, parse_members_step.
    change (skip_ws ((":" ++ JSON_stringify x ++ "}") ++ rest))
      with (String ":"%char ((JSON_stringify x ++ "}") ++ rest)).
    cbn iota. rewrite append_assoc.
    rewrite Hx; [|simpl in Hfuel; lia|now apply number_end_punctuation; auto].
    reflexivity.
  - change (members_text ((k, x) :: (k', y) :: members) ++ rest)
      with (String dquote
              ((quote_body k ++ ":" ++ JSON_stringify x ++ ","
                ++ members_text ((k', y) :: members)) ++ rest)).
    rewrite append_assoc, parse_members_step.
    change (skip_ws ((":" ++ JSON_stringify x ++ ","
                      ++ members_text ((k', y) :: members)) ++ rest))
      with (String ":"%char
              ((JSON_stringify x ++ ","
                ++ members_text ((k', y) :: members)) ++ rest)).
    cbn iota. rewrite !append_assoc.
    rewrite Hx; [|simpl in Hfuel; lia|now apply number_end_punctuation; auto].
    change (skip_ws ("," ++ members_text ((k', y) :: members) ++ rest))
      with (String ","%char (members_text ((k', y) :: members) ++ rest)).
    cbn iota.
    rewrite IH; [reflexivity|discriminate|simpl in *; lia].
Qed.

Lemma parse_value_array (fuel : nat) (c : ascii) (t : string) :
  is_ws c = false -> Ascii.eqb c "]" = false ->
  parse_value number object (S fuel) (String "[" (String c t)) =
  match parse_elements number object fuel (String c t) with
  | Some (items, tail) => Some (JArr items, tail)
  | None => None
  end.
Proof.
  intros Hws Hb. cbn [parse_value]. rewrite !skip_ws_head by assumption || reflexivity.
  cbn [Ascii.eqb Bool.eqb dquote]. cbn iota.
  destruct c as [[|] [|] [|] [|] [|] [|] [|] [|]];
    try reflexivity; discriminate.
Qed.

Lemma parse_value_object (fuel : nat) (t : string) :
  parse_value number object (S fuel) (String "{" (String dquote t)) =
  match parse_members number object fuel (String dquote t) with
  | Some (members, tail) => Some (JObj (object members), tail)
  | None => None
  end.
Proof. reflexivity. Qed.

Lemma canonical_items (items : list Json) (P : Json -> Prop) :
  Forall (fun x => canonical number keys x = true -> P x) items ->
  forallb (canonical number keys) items = true -> Forall P items.
Proof.
  induction 1 as [|x items Hx _ IH]; [constructor|].
  cbn [forallb]. intros Hc. apply andb_prop in Hc. destruct Hc as [Hcx Hcs].
  constructor; auto.
Qed.

Lemma canonical_members (members : list (string * Json)) (P : Json -> Prop) :
  Forall (fun kx => canonical number keys (snd kx) = true -> P (snd kx)) members ->
  forallb (fun kx => canonical number keys (snd kx)) members = true ->
  Forall (fun kx => P (snd kx)) members.
Proof.
  induction 1 as [|x items Hx _ IH]; [constructor|].
  cbn [forallb]. intros Hc. apply andb_prop in Hc. destruct Hc as [Hcx Hcs].
  constructor; auto.
Qed.

Theorem parse_value_stringify (v : Json) :
  canonical number keys v = true -> reads_back number object v.
Proof.
  induction v as [ |b|text|s|items Hitems|members Hmembers]
    using Json_induction;
    intros Hv fuel rest Hfuel Hend;
    (destruct fuel as [|fuel]; [simpl in Hfuel; lia|]).
  - reflexivity.
  - destruct b; reflexivity.
  - cbn [canonical] in Hv. apply number_text_cases in Hv.
    destruct Hv as [[Hscan Hnum]| ->]; [|reflexivity].
    assert (Hnot : (text =? "null") = false).
    { destruct (String.eqb_spec text "null") as [->|]; [discriminate|].
      reflexivity. }
    destruct (scan_number_head _ _ _ Hscan) as [c [t [Htext Hc]]].
    pose proof (scan_number_app text text "" rest Hscan (fun _ => Hend))
      as Hnumber.
    cbn [JSON_stringify reread]. rewrite Hnot.
    rewrite Htext in Hnumber |- *. apply number_dispatch in Hc.
    destruct Hc as [Hws [Hn [Ht [Hf [Hq [Hb [Hbr _]]]]]]].
    simpl append in *. cbn [parse_value]. rewrite skip_ws_head by assumption.
    rewrite Hn, Ht, Hf, Hq, Hb, Hbr, Hnumber. rewrite <- Htext, Hnum.
    reflexivity.
  - change (JSON_stringify (JStr s) ++ rest)
      with (String dquote (quote_body s ++ rest)).
    cbn [parse_value]. rewrite skip_ws_head by reflexivity.
    change (Ascii.eqb dquote "n") with false.
    change (Ascii.eqb dquote "t") with false.
    change (Ascii.eqb dquote "f") with false.
    rewrite Ascii.eqb_refl. cbn iota.
    rewrite parse_string_quote. reflexivity.
  - cbn [canonical] in Hv.
    pose proof (canonical_items items _ Hitems Hv) as Hread.
    destruct items as [|x items]; [reflexivity|].
    change (JSON_stringify (JArr (x :: items)) ++ rest)
      with (String "[" (elements_text (x :: items) ++ rest)).
    assert (Hhead : exists c t,
               elements_text (x :: items) ++ rest = String c t
               /\ is_ws c = false /\ Ascii.eqb c "]" = false).
    { cbn [forallb] in Hv. apply andb_prop in Hv. destruct Hv as [Hx _].
      destruct (stringify_head x Hx) as [c [t [Htext [Hws [Hb _]]]]].
      destruct items;
        [change (elements_text [x]) with (JSON_stringify x ++ "]")
        |change (elements_text (x :: j :: items))
           with (JSON_stringify x ++ "," ++ elements_text (j :: items))];
        rewrite Htext; simpl; eauto. }
    destruct Hhead as [c [t [Htext [Hws Hb]]]].
    rewrite Htext, parse_value_array by assumption. rewrite <- Htext.
    rewrite (parse_elements_text (x :: items) Hread);
      [reflexivity|discriminate|simpl in *; lia].
  - cbn [canonical] in Hv. apply andb_prop in Hv. destruct Hv as [Hkeys Hv].
    pose proof (canonical_members members _ Hmembers Hv) as Hread.
    destruct members as [|[k x] members]; [reflexivity|].
    change (JSON_stringify (JObj ((k, x) :: members)) ++ rest)
      with (String "{" (members_text ((k, x) :: members) ++ rest)).
    assert (Hhead : exists t,
               members_text ((k, x) :: members) ++ rest = String dquote t).
    { destruct members as [|[k' y] members]; simpl; eauto. }
    destruct Hhead as [t Htext].
    rewrite Htext, parse_value_object. rewrite <- Htext.
    rewrite (parse_members_text ((k, x) :: members) Hread);
      [|discriminate|simpl in *; lia].
    rewrite object_keys; [reflexivity|].
    rewrite map_map. exact Hkeys.
Qed.

(** The text of a value is at least as long as the fuel it needs. *)
Lemma size_le_length (v : Json) :
  canonical number keys v = true ->
  (size v <= String.length (JSON_stringify v))%nat.
Proof.
  induction v as [ |b|text|s|items Hitems|members Hmembers]
    using Json_induction; intros Hv.
  - simpl. lia.
  - destruct b; simpl; lia.
  - destruct (stringify_head (JNum text) Hv) as [c [t [Htext _]]].
    rewrite Htext. simpl. lia.
  - simpl. lia.
  - cbn [canonical] in Hv.
    pose proof (canonical_items items _ Hitems Hv) as Hlen. clear Hitems Hv.
    change (JSON_stringify (JArr items)) with ("[" ++ elements_text items).
    simpl. apply le_n_S.
    induction Hlen as [|x items Hx Hlen IH]; [simpl; lia|].
    destruct items as [|y items].
    + change (elements_text [x]) with (JSON_stringify x ++ "]").
      rewrite length_append. simpl. lia.
    + change (elements_text (x :: y :: items))
        with (JSON_stringify x ++ "," ++ elements_text (y :: items)).
      rewrite !length_append. simpl in *. lia.
  - cbn [canonical] in Hv. apply andb_prop in Hv. destruct Hv as [_ Hv].
    pose proof (canonical_members members
                  (fun x => (size x <= String.length (JSON_stringify x))%nat)
                  Hmembers Hv) as Hlen.
    clear Hmembers Hv.
    change (JSON_stringify (JObj members)) with ("{" ++ members_text members).
    simpl. apply le_n_S.
    induction Hlen as [|[k x] members Hx Hlen IH]; [simpl; lia|].
    simpl in Hx. destruct members as [|[k' y] members].
    + change (members_text [(k, x)])
        with (quote k ++ ":" ++ JSON_stringify x ++ "}").
      rewrite !length_append. simpl. lia.
    + change (members_text ((k, x) :: (k', y) :: members))
        with (quote k ++ ":" ++ JSON_stringify x ++ ","
              ++ members_text ((k', y) :: members)).
      rewrite !length_append. simpl in *. lia.
Qed.

(** A text written by [JSON.stringify] is read back as the value. *)
Theorem parse_text_stringify (v : Json) :
  canonical number keys v = true ->
  parse_text number object (JSON_stringify v) = Return (reread v).
Proof.
  intros Hv. unfold parse_text.
  rewrite <- (append_empty (JSON_stringify v)) at 2.
  rewrite parse_value_stringify; [reflexivity|assumption| |split; reflexivity].
  pose proof (size_le_length v Hv). lia.
Qed.

End Reading.

(** [JSON.parse(JSON.stringify(v))] is [v], up to the infinities that were
    written as null. *)
Theorem JSON_parse_stringify `{Platform} (v : Json) :
  js_value v = true -> JSON_parse (JSON_stringify v) = Return (reread v).
Proof. apply parse_text_stringify. exact object_of_ordered. Qed.

(** *** What [JSON.parse] returns *)

Lemma comes_before_asym (key k : string) :
  comes_before key k = true -> comes_before k key = false.
Proof.
  unfold comes_before.
  destruct (array_index key) as [i|], (array_index k) as [j|];
    try discriminate; try reflexivity.
  intros Hlt. apply Z.ltb_lt in Hlt. apply Z.ltb_ge. lia.
Qed.

Lemma comes_before_later (key k k' : string) :
  comes_before key k = true -> comes_before k' k = false ->
  comes_before k' key = false.
Proof.
  unfold comes_before.
  destruct (array_index key) as [i|], (array_index k) as [j|],
    (array_index k') as [j'|]; try discriminate; try reflexivity.
  intros Hlt Hge. apply Z.ltb_lt in Hlt. apply Z.ltb_ge in Hge.
  apply Z.ltb_ge. lia.
Qed.

Lemma define_keys (key : string) (x : Json) (members : list (string * Json))
    (k : string) :
  In k (map fst (define key x members)) ->
  k = key \/ In k (map fst members).
Proof.
  induction members as [|[k0 y] members IH]; cbn [define map fst In].
  - intros [<-|[]]. now left.
  - destruct (k0 =? key) eqn:Hsame; [|destruct (comes_before key k0)];
      cbn [map fst In]; intros Hin.
    + now right.
    + destruct Hin as [<-|Hin]; [now left|now right].
    + destruct Hin as [<-|Hin]; [right; now left|].
      destruct (IH Hin) as [->|Hk]; [now left|right; now right].
Qed.

(** Defining a property keeps the keys in their places. *)
Lemma define_ordered (key : string) (x : Json)
    (members : list (string * Json)) :
  ordered (map fst members) = true ->
  ordered (map fst (define key x members)) = true.
Proof.
  induction members as [|[k y] members IH]; [reflexivity|].
  cbn [define map fst ordered]. intros Ho.
  apply andb_prop in Ho. destruct Ho as [Hk Ho].
  rewrite forallb_forall in Hk.
  destruct (k =? key) eqn:Hsame.
  { cbn [map fst ordered]. apply andb_true_intro.
    split; [now apply forallb_forall|assumption]. }
  destruct (comes_before key k) eqn:Hbefore.
  - cbn [map fst ordered forallb]. rewrite String.eqb_sym, Hsame.
    rewrite (comes_before_asym _ _ Hbefore). cbn [negb andb].
    apply andb_true_intro. split.
    + apply forallb_forall. intros k' Hk'. specialize (Hk k' Hk').
      apply andb_prop in Hk. destruct Hk as [_ Hlater].
      apply negb_true_iff in Hlater.
      rewrite (comes_before_later _ _ _ Hbefore Hlater). cbn [negb].
      rewrite andb_true_r. apply negb_true_iff, String.eqb_neq.
      intros <-. congruence.
    + apply andb_true_intro. split; [now apply forallb_forall|assumption].
  - cbn [map fst ordered]. apply andb_true_intro. split; [|now apply IH].
    apply forallb_forall. intros k' Hk'.
    destruct (define_keys _ _ _ _ Hk') as [->|Hin]; [|now apply Hk].
    now rewrite Hsame, Hbefore.
Qed.

Lemma define_values (P : Json -> bool) (key : string) (x : Json)
    (members : list (string * Json)) :
  P x = true -> forallb (fun kx => P (snd kx)) members = true ->
  forallb (fun kx => P (snd kx)) (define key x members) = true.
Proof.
  intros Hx. induction members as [|[k y] members IH]; cbn [define forallb snd].
  - now rewrite Hx.
  - intros Hall. apply andb_prop in Hall. destruct Hall as [Hy Hall].
    destruct (k =? key); [|destruct (comes_before key k)];
      cbn [forallb snd].
    + now rewrite Hx, Hall.
    + now rewrite Hx, Hy, Hall.
    + now rewrite Hy, IH.
Qed.

(** The object built from the members of a text has its keys in their
    places, and the values of the members. *)
Lemma object_of_built (P : Json -> bool) (members : list (string * Json)) :
  forallb (fun kx => P (snd kx)) members = true ->
  ordered (map fst (object_of members)) = true
  /\ forallb (fun kx => P (snd kx)) (object_of members) = true.
Proof.
  unfold object_of.
  assert (Hacc : forall acc,
             ordered (map fst acc) = true ->
             forallb (fun kx => P (snd kx)) acc = true ->
             forallb (fun kx => P (snd kx)) members = true ->
             let built :=
               fold_left (fun object kx => define (fst kx) (snd kx) object)
                 members acc in
             ordered (map fst built) = true
             /\ forallb (fun kx => P (snd kx)) built = true).
  { induction members as [|[k x] members IH]; intros acc Ho Hp Hall.
    - now split.
    - cbn [forallb snd] in Hall. apply andb_prop in Hall.
      destruct Hall as [Hx Hall]. cbn [fold_left fst snd].
      apply IH; [now apply define_ordered|now apply define_values|exact Hall]. }
  intros Hall. now apply Hacc.
Qed.

Section Steps.
Variable number : string -> string.
Variable object : list (string * Json) -> list (string * Json).

Lemma parse_value_unfold (fuel : nat) (s : string) :
  parse_value number object (S fuel) s =
  match skip_ws s with
  | EmptyString => None
  | String c rest =>
      if Ascii.eqb c "n" then literal "ull" JNull rest
      else if Ascii.eqb c "t" then literal "rue" (JBool true) rest
      else if Ascii.eqb c "f" then literal "alse" (JBool false) rest
      else if Ascii.eqb c dquote then
        match parse_string rest with
        | Some (str, tail) => Some (JStr str, tail)
        | None => None
        end
      else if Ascii.eqb c "[" then
        match skip_ws rest with
        | String "]"%char tail => Some (JArr [], tail)
        | _ =>
            match parse_elements number object fuel rest with
            | Some (items, tail) => Some (JArr items, tail)
            | None => None
            end
        end
      else if Ascii.eqb c "{" then
        match skip_ws rest with
        | String "}"%char tail => Some (JObj [], tail)
        | _ =>
            match parse_members number object fuel rest with
            | Some (members, tail) => Some (JObj (object members), tail)
            | None => None
            end
        end
      else
        match scan_number (String c rest) with
        | Some (lit, tail) => Some (JNum (number lit), tail)
        | None => None
        end
  end.
Proof. reflexivity. Qed.

Lemma parse_elements_unfold (fuel : nat) (s : string) :
  parse_elements number object (S fuel) s =
  match parse_value number object fuel s with
  | Some (x, tail) =>
      match skip_ws tail with
      | String ","%char more =>
          match parse_elements number object fuel more with
          | Some (xs, tail') => Some (x :: xs, tail')
          | None => None
          end
      | String "]"%char tail' => Some ([x], tail')
      | _ => None
      end
  | None => None
  end.
Proof. reflexivity. Qed.

Lemma parse_members_unfold (fuel : nat) (s : string) :
  parse_members number object (S fuel) s =
  match skip_ws s with
  | String c rest =>
      if Ascii.eqb c dquote then
        match parse_string rest with
        | Some (key, tail) =>
            match skip_ws tail with
            | String ":"%char more =>
                match parse_value number object fuel more with
                | Some (x, tail') =>
                    match skip_ws tail' with
                    | String ","%char more' =>
                        match parse_members number object fuel more' with
                        | Some (ms, tail'') => Some ((key, x) :: ms, tail'')
                        | None => None
                        end
                    | String "}"%char tail'' => Some ([(key, x)], tail'')
                    | _ => None
                    end
                | None => None
                end
            | _ => None
            end
        | None => None
        end
      else None
  | EmptyString => None
  end.
Proof. reflexivity. Qed.

End Steps.

(** Split on what a reader met, down to the values it returned. *)
Ltac reader_cases :=
  repeat match goal with
         | |- context [if ?b then _ else _] => destruct b
         | |- context [match ?e with _ => _ end] =>
             lazymatch e with
             | context [match _ with _ => _ end] => fail
             | _ => destruct e eqn:?
             end
         end.

Section Values.
Context `{Platform}.

(** The engine writes a number as a text that it reads back as the same
    number. *)
Hypothesis number_reads_back :
  forall s literal tail,
    scan_number s = Some (literal, tail) ->
    number_text number_of_literal (number_literal_text literal) = true.

Lemma number_of_literal_reads_back (s literal tail : string) :
  scan_number s = Some (literal, tail) ->
  number_text number_of_literal (number_of_literal literal) = true.
Proof.
  intros Hscan. unfold number_of_literal at 2.
  destruct (NilZero.int_of_string literal) as [d|];
    [|now apply (number_reads_back s literal tail)].
  destruct (Z.leb_spec (Z.abs (Z.of_int d)) (2 ^ 53)) as [Hle|_];
    [now apply number_text_digits|now apply (number_reads_back s literal tail)].
Qed.

Lemma parse_value_js_value (fuel : nat) :
  (forall s v tail,
     parse_value number_of_literal object_of fuel s = Some (v, tail) ->
     js_value v = true)
  /\ (forall s items tail,
        parse_elements number_of_literal object_of fuel s
        = Some (items, tail) ->
        forallb js_value items = true)
  /\ (forall s members tail,
        parse_members number_of_literal object_of fuel s
        = Some (members, tail) ->
        forallb (fun kx => js_value (snd kx)) members = true).
Proof.
  induction fuel as [|fuel [IHv [IHe IHm]]];
    [repeat split; intros; discriminate|].
  split; [|split].
  - intros s v tail. rewrite parse_value_unfold. unfold literal.
    reader_cases;
      try discriminate; intros Heq; injection Heq as <- _; try reflexivity;
      match goal with
      | Hp : parse_elements _ _ _ _ = Some _ |- _ =>
          exact (IHe _ _ _ Hp)
      | Hp : parse_members _ _ _ _ = Some _ |- _ =>
          destruct (object_of_built js_value _ (IHm _ _ _ Hp)) as [Ho Hv];
          unfold js_value in *; cbn [canonical]; now rewrite Ho, Hv
      | Hp : scan_number _ = Some _ |- _ =>
          unfold js_value; cbn [canonical];
          exact (number_of_literal_reads_back _ _ _ Hp)
      end.
  - intros s items tail. rewrite parse_elements_unfold.
    reader_cases;
      try discriminate; intros Heq; injection Heq as <- _;
      cbn [forallb];
      repeat match goal with
             | Hp : parse_value _ _ _ _ = Some (?x, _) |- _ =>
                 rewrite (IHv _ _ _ Hp); clear Hp
             | Hp : parse_elements _ _ _ _ = Some (?x, _) |- _ =>
                 rewrite (IHe _ _ _ Hp); clear Hp
             end; reflexivity.
  - intros s members tail. rewrite parse_members_unfold.
    reader_cases;
      try discriminate; intros Heq; injection Heq as <- _;
      cbn [forallb snd];
      repeat match goal with
             | Hp : parse_value _ _ _ _ = Some (?x, _) |- _ =>
                 rewrite (IHv _ _ _ Hp); clear Hp
             | Hp : parse_members _ _ _ _ = Some (?x, _) |- _ =>
                 rewrite (IHm _ _ _ Hp); clear Hp
             end; reflexivity.
Qed.

(** Every value [JSON.parse] returns, so every body [c.req.json()] gives
    and every field of it, is a value of JavaScript. *)
Theorem JSON_parse_js_value (text : string) (v : Json) :
  JSON_parse text = Return v -> js_value v = true.
Proof.
  unfold JSON_parse, parse_text.
  destruct (parse_value _ _ _ text) as [[x tail]|] eqn:Hp; [|discriminate].
  destruct (skip_ws tail); [|discriminate].
  intros Heq. injection Heq as <-.
  now apply (proj1 (parse_value_js_value _) _ _ _ Hp).
Qed.

Lemma js_value_field (key : string) (body v : Json) :
  js_value body = true -> field key body = Some v -> js_value v = true.
Proof.
  destruct body as [ | | | | |members]; try discriminate.
  unfold js_value. cbn [canonical field]. intros Hb.
  apply andb_prop in Hb. destruct Hb as [_ Hb].
  induction members as [|[k x] members IH]; [discriminate|].
  cbn [lookup forallb snd] in *. apply andb_prop in Hb.
  destruct Hb as [Hx Hb]. destruct (k =? key).
  - intros Heq. now injection Heq as <-.
  - now apply IH.
Qed.

End Values.

(** ** lib/auth *)

(** The function as one case split on the parts of the header. *)
Lemma extractBearerToken_parts (h : string) :
  extractBearerToken (Some h) =
  match split " " h with
  | [scheme; t] => if scheme =? "Bearer" then Some t else None
  | _ => None
  end.
Proof.
  unfold extractBearerToken. simpl.
  destruct (String.eqb_spec h "") as [->|Hne]; [reflexivity|].
  destruct (split " " h) as [|p0 [|p1 [|p2 parts]]]; simpl; try reflexivity.
  destruct (p0 =? "Bearer"); reflexivity.
Qed.

Lemma extractBearerToken_some (authHeader : option string) (t : string) :
  extractBearerToken authHeader = Some t <->
  exists h, authHeader = Some h /\ split " " h = ["Bearer"; t].
Proof.
  destruct authHeader as [h|].
  - rewrite extractBearerToken_parts. split.
    + intros Hx. exists h. split; [reflexivity|].
      destruct (split " " h) as [|p0 [|p1 [|p2 parts]]]; try discriminate.
      destruct (String.eqb_spec p0 "Bearer"); [|discriminate].
      now inversion Hx; subst.
    + intros [h' [Heq Hs]]. inversion Heq; subst. now rewrite Hs.
  - split; [discriminate|]. intros [h [Heq _]]. discriminate.
Qed.

Section AuthFacts.
Context `{Platform}.

Lemma jwt_verify_returns token secret now payload :
  jwt_verify token secret now = Return payload <->
  well_formed token payload /\ signature_valid token secret
  /\ ~ not_yet_active payload now /\ ~ expired payload now.
Proof.
  unfold jwt_verify, well_formed, signature_valid, not_yet_active, expired.
  destruct (String.eqb_spec token "") as [->|Htok].
  { split; [discriminate|]. intros [[Hne _] _]. now elim Hne. }
  destruct (jws_decode token) as [p|] eqn:Hdec.
  2:{ split; [discriminate|]. intros [[_ Hd] _]. discriminate. }
  destruct (String.eqb_spec secret "") as [->|Hsec].
  { split; [discriminate|]. intros [_ [[Hne _] _]]. now elim Hne. }
  destruct (jws_check token secret) eqn:Hchk; simpl.
  2:{ split; [discriminate|]. intros [_ [[_ Hc] _]]. discriminate. }
  assert (Hactive : (match tp_nbf p with
                     | Some nbf => (nbf >? seconds_of_ms now)%Z
                     | None => false
                     end) = true <->
                    exists nbf, tp_nbf p = Some nbf
                                /\ (seconds_of_ms now < nbf)%Z).
  { destruct (tp_nbf p) as [nbf|].
    - rewrite Z.gtb_ltb, Z.ltb_lt. split.
      + intros Hlt. now exists nbf.
      + intros [nbf' [Heq Hlt]]. now injection Heq as ->.
    - split; [discriminate|]. intros [nbf [Heq _]]. discriminate. }
  destruct (match tp_nbf p with
            | Some nbf => (nbf >? seconds_of_ms now)%Z
            | None => false
            end) eqn:Hnbf.
  { split; [discriminate|]. intros [[_ Hd] [_ [Hnot _]]].
    inversion Hd; subst. elim Hnot. now apply Hactive. }
  assert (Hok : ~ exists nbf, tp_nbf p = Some nbf
                              /\ (seconds_of_ms now < nbf)%Z).
  { intros Hex. apply Hactive in Hex. discriminate. }
  destruct (tp_exp p) as [exp|] eqn:Hexp.
  - destruct (Z.geb_spec (seconds_of_ms now) exp) as [Hge|Hlt].
    + split; [discriminate|]. intros [[_ Hd] [_ [_ Hnot]]].
      inversion Hd; subst. elim Hnot. exists exp. split; [assumption|lia].
    + split.
      * intros Heq. inversion Heq; subst. repeat split; try assumption.
        intros [exp' [He Hle]]. rewrite Hexp in He. inversion He; subst. lia.
      * intros [[_ Hd] _]. now inversion Hd.
  - split.
    + intros Heq. inversion Heq; subst. repeat split; try assumption.
      intros [exp' [He _]]. rewrite Hexp in He. discriminate.
    + intros [[_ Hd] _]. now inversion Hd.
Qed.

(** What [generateAccessToken] returns, when it returns: the serialisation,
    under a secret that is set, of the payload for that account. *)
Lemma generateAccessToken_returns (userId email secret : string)
    (expirySeconds now : Z) (accessToken : string) :
  generateAccessToken userId email secret expirySeconds now
  = Return accessToken <->
  secret <> ""
  /\ accessToken
     = jws_encode (access_payload userId email expirySeconds now) secret.
Proof.
  unfold generateAccessToken, jwt_sign, access_payload.
  destruct (String.eqb_spec secret "") as [->|Hsec].
  - split; [discriminate|]. intros [Hne _]. now elim Hne.
  - split.
    + intros Heq. injection Heq as <-. now split.
    + intros [_ ->]. reflexivity.
Qed.

(** The [catch] block turns every throw into null. *)
Lemma verifyAccessToken_total token secret now :
  exists result, verifyAccessToken token secret now = Return result.
Proof.
  unfold verifyAccessToken.
  destruct (jwt_verify token secret now) as [p|e]; simpl.
  - destruct (negb (tp_type p =? "access")); eexists; reflexivity.
  - eexists; reflexivity.
Qed.

End AuthFacts.

(** The scheme word is matched as it is written, and the parts are counted. *)
Example extractBearerToken_shapes :
  extractBearerToken (Some "Bearer abc.def.ghi") = Some "abc.def.ghi"
  /\ extractBearerToken None = None
  /\ extractBearerToken (Some "") = None
  /\ extractBearerToken (Some "bearer abc") = None
  /\ extractBearerToken (Some "BEARER abc") = None
  /\ extractBearerToken (Some "Bearer") = None
  /\ extractBearerToken (Some "Bearer abc def") = None
  /\ extractBearerToken (Some "Bearer  abc") = None
  /\ extractBearerToken (Some "Basic abc") = None
  /\ extractBearerToken (Some "Bearer ") = Some "".
Proof. repeat split. Qed.

(** A token of the stand-in packages verifies while it is fresh, and is
    refused once expired, under another secret, with another type, or when
    it does not parse. *)
Example verifyAccessToken_cases :
  let access (type : string) :=
    fixture_encode {| tp_userId := alice_id; tp_email := "a@b.com";
                      tp_type := type; tp_iat := 1700000100;
                      tp_nbf := None;
                      tp_exp := Some 1700003700 |} "signing-secret" in
  (exists payload,
     @verifyAccessToken fixture (access "access") "signing-secret"
       1700003699999 = Return (Some payload)
     /\ tp_userId payload = alice_id /\ tp_email payload = "a@b.com")
  /\ @verifyAccessToken fixture (access "access") "signing-secret"
       1700003700000 = Return None
  /\ @verifyAccessToken fixture (access "access") "another-secret"
       1700000200000 = Return None
  /\ @verifyAccessToken fixture (access "access") "" 1700000200000
     = Return None
  /\ @verifyAccessToken fixture (access "refresh") "signing-secret"
       1700000200000 = Return None
  /\ @verifyAccessToken fixture "not.a.token" "signing-secret" 1700000200000
     = Return None
  /\ @verifyAccessToken fixture "" "signing-secret" 1700000200000
     = Return None.
Proof.
  intros access. split; [eexists; split; [vm_compute; reflexivity|split; reflexivity]|].
  repeat split; vm_compute; reflexivity.
Qed.

(** C1, as the code has it.  [verifyAccessToken] always returns, never
    throws; what it returns is the decoded payload exactly when the token is
    well formed, its signature is valid under the secret, its not-before
    time (when it carries one) is not ahead of the clock, it has not
    expired and its type field is the word access, and null for every
    other input. *)
Theorem verifyAccessToken_returns_claims_iff_valid `{Platform}
    (token secret : string) (now : Z) :
  exists result : option TokenPayload,
    verifyAccessToken token secret now = Return result
    /\ (forall payload,
          result = Some payload <->
          well_formed token payload /\ signature_valid token secret
          /\ ~ not_yet_active payload now
          /\ ~ expired payload now /\ tp_type payload = "access")
    /\ (result = None <->
        ~ exists payload,
            well_formed token payload /\ signature_valid token secret
            /\ ~ not_yet_active payload now
            /\ ~ expired payload now /\ tp_type payload = "access").
Proof.
  unfold verifyAccessToken.
  destruct (jwt_verify token secret now) as [p|e] eqn:Hv; simpl.
  - apply jwt_verify_returns in Hv. destruct Hv as [Hwf [Hsig [Hact Hexp]]].
    destruct (String.eqb_spec (tp_type p) "access") as [Hty|Hty]; simpl.
    + exists (Some p). split; [reflexivity|]. split.
      * intros payload. split.
        -- intros Heq. injection Heq as <-. auto.
        -- intros [[_ Hd] _]. destruct Hwf as [_ Hd']. congruence.
      * split; [discriminate|]. intros Hno. elim Hno. exists p. auto.
    + exists None. split; [reflexivity|]. split.
      * intros payload. split; [discriminate|].
        intros [[_ Hd] [_ [_ [_ Hty']]]]. destruct Hwf as [_ Hd'].
        rewrite Hd' in Hd. injection Hd as <-. contradiction.
      * split; [|reflexivity].
        intros _ [payload [[_ Hd] [_ [_ [_ Hty']]]]].
        destruct Hwf as [_ Hd']. rewrite Hd' in Hd. injection Hd as <-.
        contradiction.
  - exists None. split; [reflexivity|].
    assert (Hno : forall payload,
               ~ (well_formed token payload /\ signature_valid token secret
                  /\ ~ not_yet_active payload now
                  /\ ~ expired payload now)).
    { intros payload [Hwf [Hsig [Hact Hexp]]].
      assert (Hr : jwt_verify token secret now = Return payload)
        by now apply jwt_verify_returns.
      congruence. }
    split.
    + intros payload. split; [discriminate|].
      intros [Hwf [Hsig [Hact [Hexp _]]]]. now elim (Hno payload).
    + split; [|reflexivity].
      intros _ [payload [Hwf [Hsig [Hact [Hexp _]]]]].
      now elim (Hno payload).
Qed.

(** C1 as stated fails: at second 1700000200 the token [postdated] is well
    formed, signed under the secret, not expired and of type access, and
    [verifyAccessToken] returns null for it, because jsonwebtoken refuses a
    token before its not-before time. *)
Lemma verifyAccessToken_not_before_counterexample :
  exists payload,
    @well_formed fixture postdated payload
    /\ @signature_valid fixture postdated "signing-secret"
    /\ ~ expired payload 1700000200000
    /\ tp_type payload = "access"
    /\ @verifyAccessToken fixture postdated "signing-secret" 1700000200000
       = Return None.
Proof.
  eexists. split; [split; [vm_compute; discriminate|vm_compute; reflexivity]|].
  split; [split; [discriminate|reflexivity]|].
  split.
  - intros [exp [Heq Hle]]. vm_compute in Heq. injection Heq as <-.
    vm_compute in Hle. now apply Hle.
  - split; reflexivity.
Qed.

(** C4. The guard takes a token from the Authorization header only when the
    header splits on single spaces into exactly two parts, the first being
    the word Bearer as written; with no header or any other shape, or when
    the token does not verify, it answers 401 and the store is untouched;
    when the token verifies, the handler runs with the account id and email
    of the verified payload. *)
Theorem requireAuth_bearer_guard `{Platform} (env : Env)
    (authHeader : option string) (now : Z)
    (next : Context -> Database -> Response * Database) (db : Database) :
  (forall t,
     extractBearerToken authHeader = Some t <->
     exists h, authHeader = Some h /\ split " " h = ["Bearer"; t])
  /\ (forall t,
        extractBearerToken authHeader = Some t <->
        authHeader = Some ("Bearer " ++ t) /\ includes t " " = false)
  /\ ((exists t payload,
         extractBearerToken authHeader = Some t
         /\ verifyAccessToken t (JWT_SECRET env) now = Return (Some payload)
         /\ requireAuth env authHeader now next db =
            next {| ctx_userId := tp_userId payload;
                    ctx_userEmail := tp_email payload |} db)
      \/ ((extractBearerToken authHeader = None
           \/ exists t,
                extractBearerToken authHeader = Some t
                /\ verifyAccessToken t (JWT_SECRET env) now = Return None)
          /\ status (fst (requireAuth env authHeader now next db)) = 401%Z
          /\ (exists message,
                data (fst (requireAuth env authHeader now next db)) =
                failure "Unauthorized" message)
          /\ snd (requireAuth env authHeader now next db) = db)).
Proof.
  split; [intros t; apply extractBearerToken_some|].
  split.
  { intros t. rewrite extractBearerToken_some. split.
    - intros [h [-> Hs]]. apply split_two in Hs.
      destruct Hs as [-> [_ Ht]]. now split.
    - intros [-> Ht]. eexists. split; [reflexivity|].
      apply split_two. now repeat split. }
  unfold requireAuth.
  destruct (extractBearerToken authHeader) as [t|] eqn:Hx; simpl.
  - destruct (verifyAccessToken_total t (JWT_SECRET env) now) as [result Hv].
    destruct (String.eqb_spec t "") as [->|Hne].
    + right. split.
      * right. exists "". split; [reflexivity|].
        unfold verifyAccessToken, jwt_verify. reflexivity.
      * simpl. repeat split. eexists. reflexivity.
    + rewrite Hv. destruct result as [payload|].
      * left. exists t, payload. now repeat split.
      * right. split.
        -- right. exists t. now split.
        -- simpl. repeat split. eexists. reflexivity.
  - right. split; [now left|]. simpl. repeat split. eexists. reflexivity.
Qed.

(** ** The routes *)

(** Unfold the plumbing of a route body down to the store it runs on. *)
Ltac route_steps :=
  cbv beta delta [route hbind ret throw lift query run exec first bind
                  formatResponse] in *;
  cbn beta iota zeta in *.

Lemma get_filter_none {A} (hit : A -> bool) (rows : list A) :
  get (filter hit rows) = None <-> forall r, In r rows -> hit r = false.
Proof.
  unfold get. induction rows as [|r rows IH]; simpl.
  - split; [contradiction|reflexivity].
  - destruct (hit r) eqn:Hr; simpl.
    + split; [discriminate|]. intros Hall.
      rewrite (Hall r (or_introl eq_refl)) in Hr. discriminate.
    + rewrite IH. split.
      * intros Hall x [<-|Hin]; auto.
      * intros Hall x Hin. apply Hall. now right.
Qed.

Lemma get_filter_some {A} (hit : A -> bool) (rows : list A) (r : A) :
  get (filter hit rows) = Some r -> In r rows /\ hit r = true.
Proof.
  unfold get. intros Hg. apply filter_In.
  destruct (filter hit rows) as [|x rest] eqn:Hf; [discriminate|].
  injection Hg as ->. now left.
Qed.

(** ** Unique columns *)

Lemma existsb_eqb_In (k : string) (keys : list string) :
  existsb (String.eqb k) keys = true <-> In k keys.
Proof.
  rewrite existsb_exists. split.
  - intros [x [Hin Heq]]. apply String.eqb_eq in Heq. now subst.
  - intros Hin. exists k. split; [assumption|apply String.eqb_refl].
Qed.

(** In a column with distinct keys, a key selects its row and no other. *)
Lemma filter_unique {A} (key : A -> string) (rows : list A) (r : A) :
  distinct (map key rows) = true -> In r rows ->
  filter (fun x => key x =? key r) rows = [r].
Proof.
  induction rows as [|x rows IH]; simpl; [contradiction|].
  intros Hd Hin. apply andb_prop in Hd. destruct Hd as [Hx Hd].
  apply negb_true_iff in Hx.
  assert (Hnot : ~ In (key x) (map key rows)).
  { intros Hk. apply existsb_eqb_In in Hk. congruence. }
  destruct Hin as [->|Hin].
  - rewrite String.eqb_refl. f_equal.
    clear IH Hx Hd. induction rows as [|y rows IH]; simpl; [reflexivity|].
    destruct (String.eqb_spec (key y) (key r)) as [Heq|Hne].
    + elim Hnot. left. assumption.
    + apply IH. intros Hk. apply Hnot. now right.
  - destruct (String.eqb_spec (key x) (key r)) as [Heq|Hne].
    + elim Hnot. rewrite Heq. now apply in_map.
    + now apply IH.
Qed.

Lemma filter_none {A} (hit : A -> bool) (rows : list A) :
  (forall r, In r rows -> hit r = false) -> filter hit rows = [].
Proof.
  induction rows as [|x rows IH]; simpl; [reflexivity|]. intros Hall.
  rewrite (Hall x (or_introl eq_refl)). apply IH. intros r Hin.
  apply Hall. now right.
Qed.

Lemma filter_all {A} (hit : A -> bool) (rows : list A) :
  (forall r, In r rows -> hit r = true) -> filter hit rows = rows.
Proof.
  induction rows as [|x rows IH]; simpl; [reflexivity|]. intros Hall.
  rewrite (Hall x (or_introl eq_refl)). f_equal. apply IH. intros r Hin.
  apply Hall. now right.
Qed.

Lemma constraints_parts (db : Database) :
  constraints db = true ->
  distinct (map user_id (users db)) = true
  /\ distinct (map user_email (users db)) = true
  /\ distinct (map rt_token (refreshTokens db)) = true
  /\ (forall r, In r (refreshTokens db) -> has_user (rt_userId r) db = true)
  /\ distinct (map todo_id (todos db)) = true
  /\ (forall t, In t (todos db) -> has_user (todo_userId t) db = true).
Proof.
  unfold constraints. intros Hc.
  repeat (apply andb_prop in Hc; destruct Hc as [Hc ?]).
  repeat split; try assumption.
  - now apply forallb_forall.
  - now apply forallb_forall.
Qed.

(** Under the constraints, the join of POST /refresh finds the one row with
    the token, paired with the account that owns it. *)
Lemma refresh_join_unique (db : Database) (r : RefreshToken) :
  constraints db = true -> In r (refreshTokens db) ->
  exists u, In u (users db) /\ user_id u = rt_userId r
            /\ refresh_join_by_token (rt_token r) db = [(r, u)].
Proof.
  intros Hc Hin. apply constraints_parts in Hc.
  destruct Hc as [Hid [_ [Htok [Hfk _]]]].
  specialize (Hfk r Hin). unfold has_user in Hfk.
  apply existsb_exists in Hfk. destruct Hfk as [u [Hu Heq]].
  apply String.eqb_eq in Heq. exists u. repeat split; try assumption.
  unfold refresh_join_by_token.
  rewrite (filter_unique rt_token (refreshTokens db) r Htok Hin). simpl.
  unfold users_by_id. rewrite <- Heq.
  rewrite (filter_unique user_id (users db) u Hid Hu). reflexivity.
Qed.

(** ** POST /refresh and POST /revoke, step by step *)

Section TokenRoutes.
Context `{Platform} (env : Env).

Lemma refresh_unknown (tok : string) (now : Z) (db : Database) :
  tok <> "" -> refresh_join_by_token tok db = [] ->
  refresh env {| refresh_token := Some tok |} now db =
  (formatResponse (failure "Unauthorized" "Invalid refresh token") 401, db).
Proof.
  intros Hne Hjoin. unfold refresh. route_steps. cbn [falsy str refresh_token].
  apply String.eqb_neq in Hne. rewrite Hne, Hjoin. reflexivity.
Qed.

Lemma refresh_expired (tok : string) (now : Z) (db : Database)
    (r : RefreshToken) (u : User) :
  tok <> "" -> get (refresh_join_by_token tok db) = Some (r, u) ->
  past_expiry r now ->
  refresh env {| refresh_token := Some tok |} now db =
  (formatResponse (failure "Unauthorized" "Refresh token has expired") 401,
   snd (delete_refreshToken tok db)).
Proof.
  intros Hne Hjoin Hpast. unfold refresh. route_steps. cbn [falsy str refresh_token].
  apply String.eqb_neq in Hne. rewrite Hne, Hjoin.
  unfold past_expiry in Hpast. apply Z.ltb_lt in Hpast. rewrite Hpast.
  reflexivity.
Qed.

Lemma refresh_valid (tok : string) (now : Z) (db : Database)
    (r : RefreshToken) (u : User) :
  tok <> "" -> JWT_SECRET env <> "" ->
  get (refresh_join_by_token tok db) = Some (r, u) ->
  ~ past_expiry r now ->
  refresh env {| refresh_token := Some tok |} now db =
  (formatResponse
     (JObj [("success", JBool true);
            ("token_type", JStr "Bearer");
            ("access_token",
             JStr (jws_encode
                     {| tp_userId := user_id u; tp_email := user_email u;
                        tp_type := "access";
                        tp_iat := seconds_of_ms now; tp_nbf := None;
                        tp_exp := Some (seconds_of_ms now
                                        + JWT_ACCESS_EXPIRY env)%Z |}
                     (JWT_SECRET env)));
            ("expires_in", number (JWT_ACCESS_EXPIRY env))]) 200, db).
Proof.
  intros Hne Hsec Hjoin Hlive. unfold refresh. route_steps. cbn [falsy str refresh_token].
  apply String.eqb_neq in Hne. rewrite Hne, Hjoin.
  unfold past_expiry in Hlive. apply Z.ltb_nlt in Hlive. rewrite Hlive.
  unfold generateAccessToken, jwt_sign.
  apply String.eqb_neq in Hsec. rewrite Hsec. reflexivity.
Qed.

End TokenRoutes.

Lemma revoke_result (tok : string) (db : Database) :
  tok <> "" ->
  revoke {| refresh_token := Some tok |} db =
  (if Nat.eqb (List.length (fst (delete_refreshToken tok db))) 0
   then formatResponse (failure "Not Found" "Refresh token not found") 404
   else formatResponse
          (JObj [("success", JBool true);
                 ("message", JStr "Token revoked successfully")]) 200,
   snd (delete_refreshToken tok db)).
Proof.
  intros Hne. unfold revoke. route_steps. cbn [falsy str refresh_token].
  apply String.eqb_neq in Hne. rewrite Hne.
  unfold delete_refreshToken. cbn.
  destruct (Nat.eqb (List.length
              (filter (fun r => rt_token r =? tok) (refreshTokens db))) 0);
    reflexivity.
Qed.

Lemma revoke_unknown (tok : string) (db : Database) :
  tok <> "" -> (forall r, In r (refreshTokens db) -> rt_token r <> tok) ->
  revoke {| refresh_token := Some tok |} db =
  (formatResponse (failure "Not Found" "Refresh token not found") 404, db).
Proof.
  intros Hne Hall. rewrite revoke_result by assumption.
  unfold delete_refreshToken, set_refreshTokens. simpl.
  rewrite filter_none.
  2:{ intros r Hin. apply String.eqb_neq. now apply Hall. }
  simpl. f_equal. destruct db as [us rs ts n]. simpl in *. f_equal.
  apply filter_all. intros r Hin. apply negb_true_iff, String.eqb_neq.
  now apply Hall.
Qed.

(** C8. Revoke deletes exactly the rows whose token is the one supplied
    and answers 200; when no row matches it answers 404 and changes
    nothing, and so does every further revoke of the same token. *)
Theorem revoke_deletes_or_reports_not_found (tok : string) (db : Database) :
  tok <> "" ->
  let body := {| refresh_token := Some tok |} in
  let db' := snd (revoke body db) in
  (forall r, In r (refreshTokens db') <->
             In r (refreshTokens db) /\ rt_token r <> tok)
  /\ users db' = users db /\ todos db' = todos db
  /\ ((exists r, In r (refreshTokens db) /\ rt_token r = tok) ->
      fst (revoke body db) =
      formatResponse
        (JObj [("success", JBool true);
               ("message", JStr "Token revoked successfully")]) 200)
  /\ ((forall r, In r (refreshTokens db) -> rt_token r <> tok) ->
      revoke body db =
      (formatResponse (failure "Not Found" "Refresh token not found") 404,
       db))
  /\ (forall n : nat,
        let again := Nat.iter n (fun d => snd (revoke body d)) db' in
        revoke body again =
        (formatResponse (failure "Not Found" "Refresh token not found") 404,
         db')).
Proof.
  intros Hne body db'.
  assert (Hdb' : db' = snd (delete_refreshToken tok db)).
  { unfold db', body. now rewrite revoke_result. }
  assert (Hgone : forall r, In r (refreshTokens db') -> rt_token r <> tok).
  { intros r Hin. rewrite Hdb' in Hin. simpl in Hin.
    apply filter_In in Hin. destruct Hin as [_ Hr].
    now apply negb_true_iff, String.eqb_neq in Hr. }
  split; [|split; [|split; [|split; [|split]]]].
  - intros r. rewrite Hdb'. simpl. rewrite filter_In, negb_true_iff.
    now rewrite String.eqb_neq.
  - now rewrite Hdb'.
  - now rewrite Hdb'.
  - intros [r [Hin Htok]]. unfold body. rewrite revoke_result by assumption.
    simpl.
    destruct (filter (fun x => rt_token x =? tok) (refreshTokens db))
      as [|x rest] eqn:Hf; [|reflexivity].
    assert (Hr : In r (filter (fun x => rt_token x =? tok) (refreshTokens db))).
    { apply filter_In. split; [assumption|]. now apply String.eqb_eq. }
    rewrite Hf in Hr. contradiction.
  - intros Hall. now apply revoke_unknown.
  - intros n. simpl.
    assert (Hfix : Nat.iter n (fun d => snd (revoke body d)) db' = db').
    { induction n as [|n IH]; simpl; [reflexivity|]. rewrite IH.
      unfold body. now rewrite revoke_unknown. }
    rewrite Hfix. now apply revoke_unknown.
Qed.

(** ** Which routes write which table *)

(** Split on every test and every lookup a route body makes. *)
Ltac split_cases :=
  repeat match goal with
         | |- context [match ?e with _ => _ end] =>
             lazymatch e with
             | context [match _ with _ => _ end] => fail
             | _ => destruct e eqn:?; cbn beta iota zeta
             end
         end.

Section Frames.
Context `{Platform} (env : Env).

Lemma requireAuth_cases (authHeader : option string) (now : Z)
    (next : Context -> Database -> Response * Database) (db : Database) :
  snd (requireAuth env authHeader now next db) = db
  \/ exists c, requireAuth env authHeader now next db = next c db.
Proof.
  unfold requireAuth.
  destruct (falsy (extractBearerToken authHeader)); [now left|].
  destruct (verifyAccessToken _ _ _) as [[payload|]|e]; try now left.
  right. eexists. reflexivity.
Qed.

Lemma register_keeps_tokens body uuid salt db_now db :
  refreshTokens (snd (register body uuid salt db_now db)) = refreshTokens db.
Proof.
  unfold register, insert_user, set_users. route_steps.
  split_cases; reflexivity.
Qed.

Lemma get_profile_keeps_store c db : snd (get_profile c db) = db.
Proof. unfold get_profile. route_steps. split_cases; reflexivity. Qed.

Lemma put_profile_keeps_tokens c body now db :
  refreshTokens (snd (put_profile c body now db)) = refreshTokens db.
Proof.
  unfold put_profile, update_user, update_where, set_users. route_steps.
  split_cases; reflexivity.
Qed.

Lemma list_todos_keeps_store c db : snd (list_todos c db) = db.
Proof. unfold list_todos. route_steps. reflexivity. Qed.

Lemma create_todo_keeps_tokens c body uuid db_now db :
  refreshTokens (snd (create_todo c body uuid db_now db)) = refreshTokens db.
Proof.
  unfold create_todo, insert_todo, set_todos. route_steps.
  split_cases; reflexivity.
Qed.

Lemma get_todo_keeps_store c id db : snd (get_todo c id db) = db.
Proof. unfold get_todo. route_steps. split_cases; reflexivity. Qed.

Lemma put_todo_keeps_tokens c id body now db :
  refreshTokens (snd (put_todo c id body now db)) = refreshTokens db.
Proof.
  unfold put_todo, update_todo, update_where, set_todos. route_steps.
  split_cases; reflexivity.
Qed.

Lemma delete_todo_keeps_tokens c id db :
  refreshTokens (snd (delete_todo_route c id db)) = refreshTokens db.
Proof.
  unfold delete_todo_route, delete_todo, set_todos. route_steps.
  split_cases; reflexivity.
Qed.

(** POST /refresh leaves the store alone or deletes the rows of its token. *)
Lemma refresh_store body now db :
  snd (refresh env body now db) = db
  \/ snd (refresh env body now db) =
     snd (delete_refreshToken (str (refresh_token body)) db).
Proof.
  unfold refresh. route_steps. split_cases; auto.
Qed.

Lemma revoke_store body db :
  snd (revoke body db) = db
  \/ snd (revoke body db) =
     snd (delete_refreshToken (str (refresh_token body)) db).
Proof.
  unfold revoke. route_steps. split_cases; auto.
Qed.

(** POST /token leaves the store alone or appends one row, whose token is
    the generated one, whose expiry is the worker's clock plus the
    configured lifetime, in whole seconds, and whose creation time is the
    store's clock. *)
Lemma token_store body random now db_now db :
  snd (token env body random now db_now db) = db
  \/ exists userId,
       snd (token env body random now db_now db) =
       {| users := users db;
          refreshTokens :=
            refreshTokens db ++
            [{| rt_id := refresh_seq db + 1;
                rt_token := generateRefreshToken random;
                rt_userId := userId;
                rt_expiresAt :=
                  seconds_of_ms (now + JWT_REFRESH_EXPIRY env * 1000);
                rt_createdAt := db_now |}];
          todos := todos db;
          refresh_seq := refresh_seq db + 1 |}.
Proof.
  unfold token, insert_refreshToken. route_steps. split_cases; auto.
  right. eexists. reflexivity.
Qed.

End Frames.

Section Origin.
Context `{Platform} (env : Env).

Lemma guarded_keeps_tokens (authHeader : option string) (now : Z)
    (next : Context -> Database -> Response * Database) (db : Database) :
  (forall c, refreshTokens (snd (next c db)) = refreshTokens db) ->
  refreshTokens (snd (requireAuth env authHeader now next db)) =
  refreshTokens db.
Proof.
  intros Hnext.
  destruct (requireAuth_cases env authHeader now next db) as [->|[c ->]];
    [reflexivity|apply Hnext].
Qed.

(** A row that is in the table after a request was there before it, or the
    request is a login and the row is the one it inserted. *)
Lemma app_token_rows (q : Request) (db : Database) (x : RefreshToken) :
  In x (refreshTokens (snd (app env q db))) ->
  In x (refreshTokens db)
  \/ exists body random now db_now,
       q = PostToken body random now db_now
       /\ rt_token x = generateRefreshToken random
       /\ rt_expiresAt x = (seconds_of_ms now + JWT_REFRESH_EXPIRY env)%Z
       /\ rt_createdAt x = db_now.
Proof.
  destruct q; simpl.
  - rewrite register_keeps_tokens. auto.
  - destruct (token_store env body random now db_now db) as [->|[uid ->]];
      [auto|]. simpl. rewrite in_app_iff. intros [Hin|[<-|[]]]; [auto|].
    right. exists body, random, now, db_now. simpl. repeat split.
    unfold seconds_of_ms. now rewrite Z.div_add by lia.
  - destruct (refresh_store env body now db) as [->| ->]; [auto|]. simpl.
    rewrite filter_In. intros [Hin _]. auto.
  - destruct (revoke_store body db) as [->| ->]; [auto|]. simpl.
    rewrite filter_In. intros [Hin _]. auto.
  - rewrite guarded_keeps_tokens; [auto|].
    intros c. now rewrite get_profile_keeps_store.
  - rewrite guarded_keeps_tokens; [auto|].
    intros c. apply put_profile_keeps_tokens.
  - rewrite guarded_keeps_tokens; [auto|].
    intros c. now rewrite list_todos_keeps_store.
  - rewrite guarded_keeps_tokens; [auto|].
    intros c. apply create_todo_keeps_tokens.
  - rewrite guarded_keeps_tokens; [auto|].
    intros c. now rewrite get_todo_keeps_store.
  - rewrite guarded_keeps_tokens; [auto|].
    intros c. apply put_todo_keeps_tokens.
  - rewrite guarded_keeps_tokens; [auto|].
    intros c. apply delete_todo_keeps_tokens.
Qed.

(** The same along a sequence of requests. *)
Lemma serve_token_rows (requests : list Request) (db : Database)
    (x : RefreshToken) :
  In x (refreshTokens (serve env requests db)) ->
  In x (refreshTokens db)
  \/ exists body random now db_now,
       In (PostToken body random now db_now) requests
       /\ rt_token x = generateRefreshToken random
       /\ rt_expiresAt x = (seconds_of_ms now + JWT_REFRESH_EXPIRY env)%Z
       /\ rt_createdAt x = db_now.
Proof.
  revert db. induction requests as [|q later IH]; intros db; simpl; [auto|].
  intros Hin. apply IH in Hin. destruct Hin as [Hin|Hin].
  - apply app_token_rows in Hin. destruct Hin as [Hin|Hin]; [auto|].
    destruct Hin as [body [random [now [db_now [-> Hrow]]]]].
    right. exists body, random, now, db_now. split; [now left|assumption].
  - destruct Hin as [body [random [now [db_now [Hq Hrow]]]]].
    right. exists body, random, now, db_now. split; [now right|assumption].
Qed.

(** A token that is in no row stays out while no login draws it again. *)
Lemma absent_token_stays_absent (tok : string) (requests : list Request)
    (db : Database) :
  (forall r, In r (refreshTokens db) -> rt_token r <> tok) ->
  Forall (fun q => ~ issues q tok) requests ->
  forall r, In r (refreshTokens (serve env requests db)) -> rt_token r <> tok.
Proof.
  intros Habsent Hnone r Hin. apply serve_token_rows in Hin.
  destruct Hin as [Hin|[body [random [now [db_now [Hq [Htok _]]]]]]].
  - now apply Habsent.
  - rewrite Forall_forall in Hnone. specialize (Hnone _ Hq). simpl in Hnone.
    congruence.
Qed.

Lemma no_row_no_join (tok : string) (db : Database) :
  (forall r, In r (refreshTokens db) -> rt_token r <> tok) ->
  refresh_join_by_token tok db = [].
Proof.
  intros Habsent. unfold refresh_join_by_token.
  assert (Hnone : filter (fun r => rt_token r =? tok) (refreshTokens db) = []).
  { apply filter_none. intros r Hin. apply String.eqb_neq. now apply Habsent. }
  now rewrite Hnone.
Qed.

End Origin.

(** The expired branch of POST /refresh and what follows it, for any store
    that satisfies the constraints. *)
Lemma refresh_expired_then_unknown `{Platform} (env : Env)
    (db : Database) (tok : string) (r : RefreshToken) (now : Z) :
  tok <> "" -> constraints db = true ->
  In r (refreshTokens db) -> rt_token r = tok -> past_expiry r now ->
  let body := {| refresh_token := Some tok |} in
  let db' := snd (refresh env body now db) in
  fst (refresh env body now db) =
  formatResponse (failure "Unauthorized" "Refresh token has expired") 401
  /\ (forall x, In x (refreshTokens db') <->
                In x (refreshTokens db) /\ rt_token x <> tok)
  /\ ~ In r (refreshTokens db')
  /\ users db' = users db /\ todos db' = todos db
  /\ (forall later : list Request,
        Forall (fun q => ~ issues q tok) later ->
        let db'' := serve env later db' in
        (forall now',
           refresh env body now' db'' =
           (formatResponse (failure "Unauthorized" "Invalid refresh token")
              401, db''))
        /\ revoke body db'' =
           (formatResponse (failure "Not Found" "Refresh token not found")
              404, db'')).
Proof.
  intros Hne Hc Hin Htok Hpast body db'.
  destruct (refresh_join_unique db r Hc Hin) as [u [Hu [Hid Hjoin]]].
  rewrite Htok in Hjoin.
  assert (Hstep : refresh env body now db =
                  (formatResponse
                     (failure "Unauthorized" "Refresh token has expired") 401,
                   snd (delete_refreshToken tok db))).
  { apply (refresh_expired env tok now db r u); try assumption.
    now rewrite Hjoin. }
  assert (Hrows : forall x, In x (refreshTokens db') <->
                            In x (refreshTokens db) /\ rt_token x <> tok).
  { intros x. unfold db'. rewrite Hstep. simpl.
    rewrite filter_In, negb_true_iff. now rewrite String.eqb_neq. }
  split; [now rewrite Hstep|]. split; [exact Hrows|].
  split; [intros Hr; apply Hrows in Hr; now destruct Hr|].
  split; [unfold db'; now rewrite Hstep|].
  split; [unfold db'; now rewrite Hstep|].
  intros later Hnone db''.
  assert (Habsent : forall x, In x (refreshTokens db'') -> rt_token x <> tok).
  { apply absent_token_stays_absent; [|assumption].
    intros x Hx. apply Hrows in Hx. now destruct Hx. }
  split.
  - intros now'. apply refresh_unknown; [assumption|].
    now apply no_row_no_join.
  - now apply revoke_unknown.
Qed.

(** The valid branch of POST /refresh, for any store that satisfies the
    constraints. *)
Lemma refresh_valid_step `{Platform} (env : Env)
    (db : Database) (tok : string) (r : RefreshToken) (now : Z) :
  tok <> "" -> JWT_SECRET env <> "" -> constraints db = true ->
  In r (refreshTokens db) -> rt_token r = tok -> ~ past_expiry r now ->
  exists u,
    In u (users db) /\ user_id u = rt_userId r
    /\ refresh env {| refresh_token := Some tok |} now db =
       (formatResponse
          (JObj [("success", JBool true);
                 ("token_type", JStr "Bearer");
                 ("access_token",
                  JStr (jws_encode
                          (access_payload (user_id u) (user_email u)
                             (JWT_ACCESS_EXPIRY env) now)
                          (JWT_SECRET env)));
                 ("expires_in", number (JWT_ACCESS_EXPIRY env))]) 200, db).
Proof.
  intros Hne Hsec Hc Hin Htok Hlive.
  destruct (refresh_join_unique db r Hc Hin) as [u [Hu [Hid Hjoin]]].
  rewrite Htok in Hjoin.
  assert (Hget : get (refresh_join_by_token tok db) = Some (r, u))
    by now rewrite Hjoin.
  exists u. repeat split; try assumption.
  now rewrite (refresh_valid env tok now db r u Hne Hsec Hget Hlive).
Qed.

(** ** Login failures, and the todo routes *)

Section GuardedRoutes.
Context `{Platform} (env : Env).

Lemma requireAuth_pass (authHeader : option string) (now : Z)
    (next : Context -> Database -> Response * Database) (db : Database)
    (t : string) (payload : TokenPayload) :
  extractBearerToken authHeader = Some t ->
  verifyAccessToken t (JWT_SECRET env) now = Return (Some payload) ->
  requireAuth env authHeader now next db =
  next {| ctx_userId := tp_userId payload;
          ctx_userEmail := tp_email payload |} db.
Proof.
  intros Hx Hv. unfold requireAuth. rewrite Hx. simpl.
  destruct (String.eqb_spec t "") as [->|Hne].
  - unfold verifyAccessToken, jwt_verify in Hv. simpl in Hv. discriminate.
  - now rewrite Hv.
Qed.

Lemma no_owned_todo (id userId : string) (db : Database) :
  (forall x, In x (todos db) -> todo_id x = id -> todo_userId x <> userId) ->
  get (todos_by_id_and_user id userId db) = None.
Proof.
  intros Hall. unfold todos_by_id_and_user. apply get_filter_none.
  intros x Hin. apply andb_false_iff.
  destruct (String.eqb_spec (todo_id x) id) as [Hid|Hid]; [|now left].
  right. apply String.eqb_neq. now apply Hall.
Qed.

End GuardedRoutes.

(** C9, as the code has it.  Every refresh-token row of a store the
    worker has built was inserted by a login; its expiry is the worker's
    clock at that login, in whole seconds, plus the configured refresh
    lifetime, and its creation time is the store's own clock at the insert.
    So when the two clocks read the same second at every login, the expiry
    is the creation time plus exactly the lifetime, and strictly later for
    a positive lifetime. *)
Theorem refresh_rows_expire_one_lifetime_after_login `{Platform} (env : Env)
    (requests : list Request) (x : RefreshToken) :
  In x (refreshTokens (serve env requests empty_db)) ->
  (exists body random now db_now,
     In (PostToken body random now db_now) requests
     /\ rt_token x = generateRefreshToken random
     /\ rt_expiresAt x = (seconds_of_ms now + JWT_REFRESH_EXPIRY env)%Z
     /\ rt_createdAt x = db_now)
  /\ (Forall same_second requests ->
      rt_expiresAt x = (rt_createdAt x + JWT_REFRESH_EXPIRY env)%Z
      /\ ((0 < JWT_REFRESH_EXPIRY env)%Z ->
          (rt_createdAt x < rt_expiresAt x)%Z)).
Proof.
  intros Hin. apply serve_token_rows in Hin. destruct Hin as [[]|Hlogin].
  split; [exact Hlogin|].
  destruct Hlogin as [body [random [now [db_now [Hq [_ [Hexp Hcre]]]]]]].
  intros Hsame. rewrite Forall_forall in Hsame. specialize (Hsame _ Hq).
  simpl in Hsame. split; [congruence|]. intros Hpos. lia.
Qed.

(** ** The scenario, run *)

Example scenario_responses :
  map status
    [fst (@app fixture scenario_env
            (PostRegister alice alice_id "salt" 1700000000) empty_db);
     fst (@app fixture scenario_env
            (PostRegister alice bob_id "salt" 1700000001) scenario_db);
     fst (@app fixture scenario_env
            (PostToken alice_login counting 1700000100000 1700000100)
            (@serve fixture scenario_env
               [PostRegister alice alice_id "salt" 1700000000] empty_db));
     fst (@app fixture scenario_env
            (PostToken {| tok_email := Some "a@b.com";
                          tok_password := Some "password124" |}
               counting 1700000100000 1700000100) scenario_db);
     fst (@app fixture scenario_env (GetProfile None 1700000200000)
            scenario_db);
     fst (@app fixture scenario_env (GetProfile alice_header 1700000200000)
            scenario_db);
     fst (@app fixture scenario_env (GetProfile alice_header 1700003700000)
            scenario_db);
     fst (@app fixture scenario_env
            (GetTodo bob_header bob_todo_id 1700000300000) two_accounts_db);
     fst (@app fixture scenario_env
            (GetTodo alice_header bob_todo_id 1700000300000) two_accounts_db);
     fst (@app fixture scenario_env
            (GetTodo alice_header "not-a-uuid" 1700000300000) two_accounts_db)]
  = [201; 409; 200; 401; 401; 200; 401; 200; 404; 400]%Z.
Proof. vm_compute. reflexivity. Qed.

Example scenario_row_stored : refreshTokens scenario_db = [scenario_row].
Proof. vm_compute. reflexivity. Qed.

(** ** Instances of the theorems above *)

Lemma revoke_deletes_or_reports_not_found_witness :
  fst (revoke {| refresh_token := Some scenario_refresh_token |} scenario_db)
  = formatResponse
      (JObj [("success", JBool true);
             ("message", JStr "Token revoked successfully")]) 200.
Proof.
  assert (Hne : scenario_refresh_token <> "") by (vm_compute; discriminate).
  apply (proj1 (proj2 (proj2 (proj2
           (revoke_deletes_or_reports_not_found scenario_refresh_token
              scenario_db Hne))))).
  exists scenario_row. split; [vm_compute; left; reflexivity|reflexivity].
Defined.

Lemma refresh_rows_expire_one_lifetime_after_login_witness :
  In scenario_row (refreshTokens (@serve fixture scenario_env scenario empty_db))
  /\ Forall same_second scenario
  /\ rt_expiresAt scenario_row =
     (rt_createdAt scenario_row + JWT_REFRESH_EXPIRY scenario_env)%Z.
Proof.
  assert (Hin : In scenario_row
                  (refreshTokens
                     (@serve fixture scenario_env scenario empty_db)))
    by (vm_compute; left; reflexivity).
  assert (Hsame : Forall same_second scenario).
  { repeat constructor. }
  split; [exact Hin|]. split; [exact Hsame|].
  exact (proj1 (proj2 (@refresh_rows_expire_one_lifetime_after_login fixture
                         scenario_env scenario scenario_row Hin) Hsame)).
Defined.

(** C9 as stated fails: a login at worker clock 1700000100999 ms whose row
    the store stamps one millisecond later, at second 1700000101, leaves a
    row whose expiry is 2591999 seconds after its creation, one short of
    the configured 2592000. *)
Lemma refresh_row_lifetime_counterexample :
  let db := @serve fixture scenario_env
              [PostRegister alice alice_id "salt" 1700000000;
               PostToken alice_login counting 1700000100999 1700000101]
              empty_db in
  exists x,
    In x (refreshTokens db)
    /\ (rt_expiresAt x - rt_createdAt x)%Z = 2591999%Z
    /\ rt_expiresAt x <> (rt_createdAt x + JWT_REFRESH_EXPIRY scenario_env)%Z.
Proof.
  eexists. split; [vm_compute; left; reflexivity|].
  split; [reflexivity|vm_compute; discriminate].
Qed.

(** ** PUT /profile and GET /profile *)

Lemma filter_update {A} (hit : A -> bool) (change : A -> A) (rows : list A) :
  (forall r, hit (change r) = hit r) ->
  filter hit (map (fun r => if hit r then change r else r) rows)
  = map change (filter hit rows).
Proof.
  intros Hkeep. induction rows as [|r rows IH]; simpl; [reflexivity|].
  destruct (hit r) eqn:Hr.
  - rewrite Hkeep, Hr. simpl. now rewrite IH.
  - rewrite Hr. exact IH.
Qed.

(** The row of the caller after PUT /profile, under unique ids. *)
Lemma update_user_row (c : Context) (change : User -> User) (db : Database)
    (u : User) :
  distinct (map user_id (users db)) = true -> In u (users db) ->
  user_id u = ctx_userId c -> (forall r, user_id (change r) = user_id r) ->
  fst (update_user (ctx_userId c) change db) = [change u]
  /\ users_by_id (ctx_userId c) (snd (update_user (ctx_userId c) change db))
     = [change u].
Proof.
  intros Hd Hu Hid Hkeep. unfold update_user, update_where, users_by_id.
  simpl. rewrite <- Hid.
  rewrite (filter_update (fun r => user_id r =? user_id u) change).
  2:{ intros r. now rewrite Hkeep. }
  rewrite (filter_unique user_id (users db) u Hd Hu). now split.
Qed.

(** ** The routes on the body as it arrives *)

Lemma destructure_field (key : string) (body : Json) :
  body <> JNull -> destructure key body = Return (field key body).
Proof. destruct body; [congruence| | | | | ]; reflexivity. Qed.

Lemma js_not_string (v : option string) :
  js_not (option_map JStr v) = falsy v.
Proof.
  destruct v as [s|]; [|reflexivity]. simpl. now rewrite negb_involutive.
Qed.

Section Agreement.
Context `{Platform} (env : Env).

(** On a body whose fields are strings, POST /register is [register]. *)
Lemma register_request_strings (body : RegisterBody) (uuid salt : string)
    (db_now : Z) (db : Database) :
  register_request (Return (RegisterBody_json body)) uuid salt db_now db
  = register body uuid salt db_now db.
Proof.
  destruct body as [email password name].
  unfold register_request, register, RegisterBody_json. route_steps.
  cbn [reg_email reg_password reg_name].
  destruct email as [email|], password as [password|], name as [name|];
    cbn -[includes strlen Z.ltb users_by_email insert_user];
    try reflexivity;
    try (destruct (email =? ""); reflexivity);
    try (destruct (email =? ""), (password =? ""); reflexivity).
  rewrite !negb_involutive. reflexivity.
Qed.

(** On a body whose fields are strings, POST /token is [token]. *)
Lemma token_request_strings (body : TokenBody) (random : nat -> Z)
    (now db_now : Z) (db : Database) :
  token_request env (Return (TokenBody_json body)) random now db_now db
  = token env body random now db_now db.
Proof.
  destruct body as [email password].
  unfold token_request, token, TokenBody_json. route_steps.
  cbn [tok_email tok_password].
  destruct email as [email|], password as [password|];
    cbn -[users_by_email insert_refreshToken generateAccessToken
          generateRefreshToken number];
    try reflexivity;
    try (destruct (email =? ""); reflexivity).
  rewrite !negb_involutive. reflexivity.
Qed.

(** On a body whose name and bio are strings, PUT /profile is
    [put_profile]. *)
Lemma put_profile_request_strings (c : Context) (body : ProfileBody)
    (now : Z) (db : Database) :
  put_profile_request c (Return (ProfileBody_json body)) now db
  = put_profile c body now db.
Proof.
  destruct body as [name bio preferences].
  unfold put_profile_request, put_profile, ProfileBody_json. route_steps.
  cbn [prof_name prof_bio prof_preferences].
  destruct name as [name|], bio as [bio|], preferences as [p|];
    cbn -[update_user JSON_parse JSON_stringify typeof String.eqb];
    try reflexivity;
    destruct (typeof p =? "object"); reflexivity.
Qed.

(** On a body whose title and description are strings, PUT /todos/:id is
    [put_todo]. *)
Lemma put_todo_request_strings (c : Context) (id : string) (body : TodoBody)
    (now : Z) (db : Database) :
  put_todo_request c id (Return (TodoBody_json body)) now db
  = put_todo c id body now db.
Proof.
  destruct body as [title description completed].
  unfold put_todo_request, put_todo, TodoBody_json. route_steps.
  cbn [upd_title upd_description upd_completed].
  destruct (isValidUUID id); [|reflexivity].
  destruct title as [title|], description as [description|],
    completed as [completed|];
    cbn -[update_todo todos_by_id_and_user todo_json]; reflexivity.
Qed.

End Agreement.

(** ** POST /register on the body as it arrives *)

(** On a body whose fields are strings, what is refused is what
    [register_invalid] says. *)
Lemma register_invalid_refused `{Platform} (body : RegisterBody) :
  register_invalid body <-> register_refused (RegisterBody_json body).
Proof.
  destruct body as [email password name].
  unfold register_invalid, register_refused, RegisterBody_json.
  cbn [reg_email reg_password reg_name].
  destruct email as [email|], password as [password|], name as [name|];
    cbn -[includes strlen Z.ltb];
    try (split; intros _;
         first [left; reflexivity | right; left; reflexivity
               | right; right; left; reflexivity]).
  rewrite !negb_involutive. split.
  - intros [He|[Hp|[Hn|[Hat|Hlen]]]]; auto.
    + right. right. right. left. now rewrite Hat.
    + destruct (includes email "@") eqn:Hat.
      * right. right. right. right. split; [reflexivity|].
        f_equal. now apply Z.ltb_lt.
      * right. right. right. now left.
  - intros [He|[Hp|[Hn|[Hat|[_ Hlen]]]]]; auto.
    + right. right. right. left. now injection Hat.
    + right. right. right. right. injection Hlen as Hlen.
      now apply Z.ltb_lt.
Qed.


(** What is left of the register requests: a body that is not JSON or is
    null, and an email on which [includes] is not a method, end in the
    route's [catch]. *)
Lemma register_request_throws `{Platform} (body : Outcome Json)
    (uuid salt : string) (db_now : Z) (db : Database) :
  body = Return JNull \/ (exists e, body = Throw e)
  \/ (exists b e,
        body = Return b /\ js_not (field "email" b) = false
        /\ js_not (field "password" b) = false
        /\ js_not (field "name" b) = false
        /\ includes_at (the (field "email" b)) = Throw e) ->
  status (fst (register_request body uuid salt db_now db)) = 500%Z.
Proof.
  intros [->|[[e ->]|[b [e [-> [He [Hp [Hn Hat]]]]]]]]; try reflexivity.
  assert (Hb : b <> JNull) by (intros ->; discriminate).
  unfold register_request. route_steps.
  rewrite !destructure_field by assumption. cbn beta iota zeta.
  rewrite He, Hp, Hn, Hat. reflexivity.
Qed.



(** ** POST /token on the body as it arrives *)


Lemma field_not_null (key : string) (body v : Json) :
  field key body = Some v -> body <> JNull.
Proof. intros Hf ->. discriminate. Qed.




(** ** PUT /todos/:id on the body as it arrives *)

(** C6, as the code has it.  For an authenticated GET or DELETE on
    /todos/:id with a well-formed id, and for a PUT whose body is a value
    other than null, the lookup selects on the todo id together with the
    caller's account id; when no todo has that id, or the one that has it
    belongs to another account, the answer is the same 404, not a 403 and
    not the todo, and the store is unchanged. *)
Theorem todo_routes_hide_other_accounts `{Platform} (env : Env)
    (db : Database) (authHeader : option string) (t : string)
    (payload : TokenPayload) (id : string) (body : Json) (now : Z) :
  extractBearerToken authHeader = Some t ->
  verifyAccessToken t (JWT_SECRET env) now = Return (Some payload) ->
  isValidUUID id = true ->
  (forall x, In x (todos db) -> todo_id x = id ->
             todo_userId x <> tp_userId payload) ->
  body <> JNull ->
  let not_found :=
    (formatResponse (failure "Not Found" "Todo not found") 404, db) in
  let put (body : Outcome Json) :=
    requireAuth env authHeader now
      (fun c => put_todo_request c id body now) db in
  app env (GetTodo authHeader id now) db = not_found
  /\ put (Return body) = not_found
  /\ app env (DeleteTodo authHeader id now) db = not_found
  /\ (forall found,
        In found (todos_by_id_and_user id (tp_userId payload) db) <->
        In found (todos db) /\ todo_id found = id
        /\ todo_userId found = tp_userId payload).
Proof.
  intros Hx Hv Hid Hnone Hbody not_found put.
  pose proof (no_owned_todo id (tp_userId payload) db Hnone) as Hg.
  split; [|split; [|split]].
  - simpl. rewrite (requireAuth_pass env _ _ _ _ t payload Hx Hv).
    unfold get_todo. route_steps. cbn [ctx_userId]. rewrite Hid.
    cbn [negb]. rewrite Hg. reflexivity.
  - unfold put. rewrite (requireAuth_pass env _ _ _ _ t payload Hx Hv).
    unfold put_todo_request. route_steps. cbn [ctx_userId]. rewrite Hid.
    cbn [negb]. rewrite !destructure_field by assumption.
    cbn beta iota zeta. rewrite Hg. reflexivity.
  - simpl. rewrite (requireAuth_pass env _ _ _ _ t payload Hx Hv).
    unfold delete_todo_route. route_steps. cbn [ctx_userId].
    rewrite Hid. cbn [negb]. rewrite Hg. reflexivity.
  - intros found. unfold todos_by_id_and_user.
    rewrite filter_In, andb_true_iff, !String.eqb_eq. tauto.
Qed.

(** What is left of the PUT requests: a body that is not JSON or is null
    ends in the route's [catch] before the todo is looked up, whoever owns
    it. *)
Lemma put_todo_request_unread `{Platform} (c : Context) (id : string)
    (body : Outcome Json) (now : Z) (db : Database) :
  isValidUUID id = true ->
  body = Return JNull \/ (exists e, body = Throw e) ->
  status (fst (put_todo_request c id body now db)) = 500%Z
  /\ snd (put_todo_request c id body now db) = db.
Proof.
  intros Hid Hbody. unfold put_todo_request. route_steps. rewrite Hid.
  cbn [negb]. destruct Hbody as [->|[e ->]]; split; reflexivity.
Qed.

(** C6 as stated fails: a PUT with the body null on a todo of another
    account is answered 500, not 404. *)
Lemma put_todo_null_body_counterexample :
  map (fun x => (todo_id x, todo_userId x)) (todos two_accounts_db)
  = [(bob_todo_id, bob_id)]
  /\ isValidUUID bob_todo_id = true
  /\ @requireAuth fixture scenario_env alice_header 1700000300000
       (fun c => @put_todo_request fixture c bob_todo_id (Return JNull)
                   1700000300000) two_accounts_db
     = (formatResponse
          (failure "Internal Server Error"
             "Cannot destructure property 'title' of 'body' as it is null.")
          500, two_accounts_db).
Proof. vm_compute. repeat split. Qed.

Lemma todo_routes_hide_other_accounts_witness :
  @app fixture scenario_env (GetTodo alice_header bob_todo_id 1700000300000)
    two_accounts_db
  = (formatResponse (failure "Not Found" "Todo not found") 404,
     two_accounts_db)
  /\ @requireAuth fixture scenario_env alice_header 1700000300000
       (fun c => @put_todo_request fixture c bob_todo_id
                   (Return (JObj [("completed", JBool true)]))
                   1700000300000) two_accounts_db
     = (formatResponse (failure "Not Found" "Todo not found") 404,
        two_accounts_db)
  /\ status (fst (@app fixture scenario_env
                    (GetTodo bob_header bob_todo_id 1700000300000)
                    two_accounts_db)) = 200%Z.
Proof.
  assert (Hall : forall body, body <> JNull ->
            @app fixture scenario_env
              (GetTodo alice_header bob_todo_id 1700000300000) two_accounts_db
            = (formatResponse (failure "Not Found" "Todo not found") 404,
               two_accounts_db)
            /\ @requireAuth fixture scenario_env alice_header 1700000300000
                 (fun c => @put_todo_request fixture c bob_todo_id
                             (Return body) 1700000300000) two_accounts_db
               = (formatResponse (failure "Not Found" "Todo not found") 404,
                  two_accounts_db)).
  { intros body Hbody.
    destruct (@todo_routes_hide_other_accounts fixture scenario_env
                two_accounts_db alice_header _ _ bob_todo_id body
                1700000300000 eq_refl eq_refl eq_refl) as [Hget [Hput _]];
      [|exact Hbody|now split].
    intros x Hx _. vm_compute in Hx. destruct Hx as [<-|[]].
    vm_compute. discriminate. }
  destruct (Hall (JObj [("completed", JBool true)])) as [Hget Hput];
    [discriminate|].
  split; [exact Hget|]. split; [exact Hput|]. vm_compute. reflexivity.
Defined.

(** ** PUT /profile on the body as it arrives *)

(** A value with no infinity in it is read back as it is. *)
Lemma reread_finite (v : Json) : finite v = true -> reread v = v.
Proof.
  induction v as [ |b|text|s|items Hitems|members Hmembers]
    using Json_induction; intros Hv; try reflexivity.
  - cbn [finite reread] in *. apply negb_true_iff in Hv. now rewrite Hv.
  - cbn [finite reread] in *. f_equal.
    induction Hitems as [|x items Hx _ IH]; [reflexivity|].
    cbn [forallb map] in *. apply andb_prop in Hv. destruct Hv as [Hvx Hv].
    now rewrite Hx, IH.
  - cbn [finite reread] in *. f_equal.
    induction Hmembers as [|[k x] members Hx _ IH]; [reflexivity|].
    cbn [forallb map fst snd] in *. apply andb_prop in Hv.
    destruct Hv as [Hvx Hv]. now rewrite Hx, IH.
Qed.

Lemma update_profile_text (id : string) (updatedAt : Z) (name : option string)
    (bio : option (option string)) (preferences : option string)
    (db : Database) :
  update_profile id updatedAt (option_map Some name) bio preferences db
  = Return (update_user id
              (profile_updates updatedAt name bio preferences) db).
Proof. destruct name; reflexivity. Qed.

(** C10. PUT /profile answers 400 exactly when the body has a preferences
    value whose typeof is not object.  Null and arrays have typeof object:
    in a request whose name and bio are strings where they are given (bio
    may be null too), they are accepted with 200, the caller's row then
    holds their JSON text (the four letters null for null), and
    GET /profile afterwards returns what that text denotes as the
    preferences: the value itself, with null where a number of it is an
    infinity, which JSON text cannot hold.  The preferences are a value of
    JavaScript ([js_value]), as every part of a body is
    ([JSON_parse_js_value], [js_value_field]). *)
Theorem put_profile_accepts_null_and_arrays `{Platform} (c : Context)
    (body : Outcome Json) (now : Z) (db : Database) :
  let answer := put_profile_request c body now db in
  (status (fst answer) = 400%Z <->
   exists b p,
     body = Return b /\ field "preferences" b = Some p
     /\ typeof p <> "object")
  /\ (forall b p u,
        body = Return b -> field "preferences" b = Some p ->
        (p = JNull \/ exists items, p = JArr items) ->
        js_value p = true ->
        (field "name" b = None \/ exists s, field "name" b = Some (JStr s)) ->
        (field "bio" b = None \/ field "bio" b = Some JNull
         \/ exists s, field "bio" b = Some (JStr s)) ->
        distinct (map user_id (users db)) = true ->
        In u (users db) -> user_id u = ctx_userId c ->
        let db' := snd answer in
        typeof p = "object"
        /\ status (fst answer) = 200%Z
        /\ (exists u',
              users_by_id (ctx_userId c) db' = [u']
              /\ user_preferences u' = JSON_stringify p
              /\ (p = JNull -> user_preferences u' = "null"))
        /\ status (fst (get_profile c db')) = 200%Z
        /\ field "preferences" (data (fst (get_profile c db')))
           = Some (reread p)
        /\ (finite p = true -> reread p = p)).
Proof.
  intros answer. split.
  - unfold answer, put_profile_request. route_steps.
    destruct body as [b|e].
    2:{ split; [discriminate|]. intros [b [p [Hb _]]]. discriminate. }
    assert (Hnull : b = JNull \/ b <> JNull)
      by (destruct b; [now left|right..]; discriminate).
    destruct Hnull as [->|Hb].
    { split; [discriminate|]. intros [b [p [Hb [Hp _]]]].
      injection Hb as <-. discriminate. }
    rewrite !destructure_field by assumption. cbn beta iota zeta.
    destruct (field "preferences" b) as [p|] eqn:Hp.
    + destruct (String.eqb_spec (typeof p) "object") as [Hty|Hty]; simpl.
      * split; [split_cases; simpl; discriminate|].
        intros [b' [q [Hb' [Hq Hne]]]]. injection Hb' as <-.
        rewrite Hp in Hq. injection Hq as <-. contradiction.
      * split; [|reflexivity]. intros _. now exists b, p.
    + split; [split_cases; simpl; discriminate|].
      intros [b' [q [Hb' [Hq _]]]]. injection Hb' as <-. congruence.
  - intros b p u -> Hp Hshape Hvalue Hname Hbio Hd Hu Hid db'.
    assert (Hb : b <> JNull) by (eapply field_not_null; eassumption).
    assert (Hty : typeof p = "object").
    { destruct Hshape as [->|[items ->]]; reflexivity. }
    assert (Hbind : exists name bio,
               bind_column (field "name" b) = Return (option_map Some name)
               /\ bind_column (field "bio" b) = Return bio).
    { destruct Hname as [Hn|[s Hn]]; rewrite Hn;
        [exists None|exists (Some s)];
        destruct Hbio as [->|[->|[s' ->]]]; eexists; split; reflexivity. }
    destruct Hbind as [name [bio [Hn Hbi]]].
    set (change := profile_updates (seconds_of_ms now) name bio
                     (Some (JSON_stringify p))).
    destruct (update_user_row c change db u Hd Hu Hid (fun r => eq_refl))
      as [Hret Hrow].
    assert (Hput : answer =
                   (formatResponse
                      (success "Profile updated successfully"
                         [("profile",
                           JObj [("id", JStr (user_id (change u)));
                                 ("email", JStr (user_email (change u)));
                                 ("name", JStr (user_name (change u)));
                                 ("bio", text_json (user_bio (change u)));
                                 ("preferences", reread p)])]) 200,
                    snd (update_user (ctx_userId c) change db))).
    { unfold answer, put_profile_request. route_steps.
      rewrite !destructure_field by assumption. cbn beta iota zeta.
      rewrite Hp, Hty, Hn, Hbi. cbn [String.eqb Ascii.eqb Bool.eqb negb].
      cbn beta iota. rewrite update_profile_text. fold change.
      destruct (update_user (ctx_userId c) change db) as [rows db1] eqn:Hup.
      cbn [fst snd] in *. rewrite Hret. cbn beta iota.
      change (user_preferences (change u)) with (JSON_stringify p).
      rewrite JSON_parse_stringify by assumption. reflexivity. }
    assert (Hdb' : db' = snd (update_user (ctx_userId c) change db))
      by (unfold db'; now rewrite Hput).
    split; [exact Hty|]. split; [now rewrite Hput|]. split; [|split; [|split]].
    + exists (change u). rewrite Hdb'. split; [exact Hrow|].
      split; [reflexivity|]. intros ->. reflexivity.
    + unfold get_profile. route_steps. rewrite Hdb', Hrow. cbn [get hd_error].
      change (user_preferences (change u)) with (JSON_stringify p).
      rewrite JSON_parse_stringify by assumption. reflexivity.
    + unfold get_profile. route_steps. rewrite Hdb', Hrow. cbn [get hd_error].
      change (user_preferences (change u)) with (JSON_stringify p).
      rewrite JSON_parse_stringify by assumption. reflexivity.
    + apply reread_finite.
Qed.

Lemma put_profile_accepts_null_and_arrays_witness :
  let p := JArr [JNum "1"; JNum "-2"; JNum "1.5"; JNum "1e+21"; JNull] in
  let body := Return (JObj [("bio", JNull); ("preferences", p)]) in
  let db' := snd (@put_profile_request fixture alice_context body
                    1700000500000 scenario_db) in
  status (fst (@put_profile_request fixture alice_context body
                 1700000500000 scenario_db)) = 200%Z
  /\ map user_preferences (users db') = ["[1,-2,1.5,1e+21,null]"]
  /\ map user_bio (users db') = [None]
  /\ field "preferences" (data (fst (@get_profile fixture alice_context db')))
     = Some p.
Proof.
  intros p body db'.
  destruct (proj2 (@put_profile_accepts_null_and_arrays fixture alice_context
                     body 1700000500000 scenario_db)
              (JObj [("bio", JNull); ("preferences", p)]) p alice_row
              eq_refl eq_refl
              (or_intror (ex_intro _ _ eq_refl))
              eq_refl (or_introl eq_refl) (or_intror (or_introl eq_refl))
              eq_refl (or_introl eq_refl) eq_refl)
    as [_ [Hstatus [_ [_ [Hread _]]]]].
  split; [exact Hstatus|]. split; [vm_compute; reflexivity|].
  split; [vm_compute; reflexivity|exact Hread].
Defined.

(** The same on a body as it arrives: an infinity among the preferences is
    stored and read back as null; a body that is null, a name that is null
    and a body that is not JSON are answered 500. *)
Example put_profile_request_cases :
  let put (body : Outcome Json) :=
    @put_profile_request fixture alice_context body 1700000500000
      scenario_db in
  map user_preferences
    (users (snd (put (Return (JObj [("preferences",
                                     JArr [JNum "null"; JNum "7"])])))))
  = ["[null,7]"]
  /\ map (fun body => status (fst (put body)))
       [Return (JObj [("preferences", JNull)]);
        Return (JObj [("preferences", JNum "7")]);
        Return (JNum "7"); Return JNull;
        Return (JObj [("name", JNull)]);
        Throw "Unexpected end of JSON input"]
     = [200; 400; 200; 500; 500; 500]%Z.
Proof. vm_compute. split; reflexivity. Qed.

(** ** The stores the worker builds satisfy the schema's constraints *)

Lemma distinct_app_one (keys : list string) (k : string) :
  distinct (keys ++ [k]) = distinct keys && negb (existsb (String.eqb k) keys).
Proof.
  induction keys as [|x keys IH]; simpl; [reflexivity|].
  rewrite IH, existsb_app. simpl. rewrite orb_false_r, (String.eqb_sym k x).
  destruct (existsb (String.eqb x) keys), (x =? k), (distinct keys),
    (existsb (String.eqb k) keys); reflexivity.
Qed.

Lemma existsb_key {A} (key : A -> string) (k : string) (rows : list A) :
  existsb (String.eqb k) (map key rows) = existsb (fun r => key r =? k) rows.
Proof.
  induction rows as [|r rows IH]; simpl; [reflexivity|].
  now rewrite IH, (String.eqb_sym k (key r)).
Qed.

Lemma distinct_filter {A} (key : A -> string) (hit : A -> bool)
    (rows : list A) :
  distinct (map key rows) = true -> distinct (map key (filter hit rows)) = true.
Proof.
  induction rows as [|r rows IH]; simpl; [reflexivity|].
  intros Hd. apply andb_prop in Hd. destruct Hd as [Hr Hd].
  destruct (hit r); simpl; [|now apply IH].
  rewrite IH by assumption. rewrite andb_true_r.
  apply negb_true_iff. apply negb_true_iff in Hr.
  rewrite existsb_key in *.
  destruct (existsb (fun x => key x =? key r) (filter hit rows)) eqn:He;
    [|reflexivity].
  apply existsb_exists in He. destruct He as [x [Hx Hk]].
  apply filter_In in Hx. destruct Hx as [Hx _].
  assert (Ht : existsb (fun x => key x =? key r) rows = true).
  { apply existsb_exists. now exists x. }
  congruence.
Qed.

Lemma forallb_filter {A} (ok hit : A -> bool) (rows : list A) :
  forallb ok rows = true -> forallb ok (filter hit rows) = true.
Proof.
  rewrite !forallb_forall. intros Hall x Hx. apply filter_In in Hx.
  apply Hall. now destruct Hx.
Qed.

Lemma map_update {A} (key : A -> string) (hit : A -> bool) (change : A -> A)
    (rows : list A) :
  (forall r, key (change r) = key r) ->
  map key (map (fun r => if hit r then change r else r) rows) = map key rows.
Proof.
  intros Hkeep. induction rows as [|r rows IH]; simpl; [reflexivity|].
  rewrite IH. destruct (hit r); [now rewrite Hkeep|reflexivity].
Qed.

Lemma has_user_ids (id : string) (db db' : Database) :
  map user_id (users db') = map user_id (users db) ->
  has_user id db' = has_user id db.
Proof.
  intros Hids. unfold has_user.
  rewrite <- !(existsb_key user_id id), Hids. reflexivity.
Qed.

Lemma has_user_more (id : string) (db : Database) (u : User) :
  has_user id db = true ->
  has_user id (set_users (users db ++ [u]) db) = true.
Proof.
  unfold has_user. simpl. rewrite existsb_app. intros ->. reflexivity.
Qed.

Lemma forallb_impl {A} (p q : A -> bool) (rows : list A) :
  (forall r, p r = true -> q r = true) ->
  forallb p rows = true -> forallb q rows = true.
Proof.
  rewrite !forallb_forall. intros Himp Hall x Hx. apply Himp. now apply Hall.
Qed.

Lemma constraints_split (db : Database) :
  constraints db = true <->
  distinct (map user_id (users db)) = true
  /\ distinct (map user_email (users db)) = true
  /\ distinct (map rt_token (refreshTokens db)) = true
  /\ forallb (fun r => has_user (rt_userId r) db) (refreshTokens db) = true
  /\ distinct (map todo_id (todos db)) = true
  /\ forallb (fun t => has_user (todo_userId t) db) (todos db) = true.
Proof. unfold constraints. rewrite !andb_true_iff. tauto. Qed.

Lemma distinct_new (keys : list string) (k : string) :
  distinct keys = true -> existsb (String.eqb k) keys = false ->
  distinct (keys ++ [k]) = true.
Proof. intros Hd Hk. now rewrite distinct_app_one, Hd, Hk. Qed.

Lemma insert_user_constraints (u : User) (db db' : Database) (rows : list User) :
  constraints db = true -> insert_user u db = Return (rows, db') ->
  constraints db' = true.
Proof.
  intros Hc. unfold insert_user.
  destruct (existsb (fun v => user_id v =? user_id u) (users db)) eqn:Hid;
    [discriminate|].
  destruct (existsb (fun v => user_email v =? user_email u) (users db))
    eqn:Hmail; [discriminate|].
  intros Heq. injection Heq as _ <-.
  apply constraints_split in Hc.
  destruct Hc as (Hu & Hm & Ht & Hrf & Hd & Htf).
  apply constraints_split. simpl. rewrite !map_app. cbn [map].
  repeat split; try assumption.
  - apply distinct_new; [assumption|now rewrite existsb_key].
  - apply distinct_new; [assumption|now rewrite existsb_key].
  - eapply forallb_impl; [|exact Hrf]. intros r Hr.
    now apply (has_user_more _ db u).
  - eapply forallb_impl; [|exact Htf]. intros r Hr.
    now apply (has_user_more _ db u).
Qed.

Lemma insert_refreshToken_constraints (tok userId : string)
    (expiresAt db_now : Z) (db db' : Database) :
  constraints db = true ->
  insert_refreshToken tok userId expiresAt db_now db = Return db' ->
  constraints db' = true.
Proof.
  intros Hc. unfold insert_refreshToken.
  destruct (existsb (fun r => rt_token r =? tok) (refreshTokens db)) eqn:Htok;
    [discriminate|].
  destruct (existsb (fun u => user_id u =? userId) (users db)) eqn:Hfk;
    [|discriminate].
  simpl. intros Heq. injection Heq as <-.
  apply constraints_split in Hc.
  destruct Hc as (Hu & Hm & Ht & Hrf & Hd & Htf).
  apply constraints_split. simpl. rewrite map_app. cbn [map rt_token].
  repeat split; try assumption.
  - apply distinct_new; [assumption|now rewrite existsb_key].
  - rewrite forallb_app. apply andb_true_intro. split; [exact Hrf|].
    simpl. unfold has_user. simpl. now rewrite Hfk.
Qed.

Lemma delete_refreshToken_constraints (tok : string) (db : Database) :
  constraints db = true ->
  constraints (snd (delete_refreshToken tok db)) = true.
Proof.
  intros Hc. apply constraints_split in Hc.
  destruct Hc as (Hu & Hm & Ht & Hrf & Hd & Htf).
  apply constraints_split. simpl. repeat split; try assumption.
  - now apply distinct_filter.
  - now apply forallb_filter.
Qed.

Lemma update_user_constraints (id : string) (change : User -> User)
    (db : Database) :
  (forall r, user_id (change r) = user_id r) ->
  (forall r, user_email (change r) = user_email r) ->
  constraints db = true ->
  constraints (snd (update_user id change db)) = true.
Proof.
  intros Hid Hmail Hc. apply constraints_split in Hc.
  destruct Hc as (Hu & Hm & Ht & Hrf & Hd & Htf).
  apply constraints_split. unfold update_user, update_where. simpl.
  rewrite !map_update by assumption. repeat split; try assumption.
  - eapply forallb_impl; [|exact Hrf]. intros r Hr.
    rewrite has_user_ids with (db := db); [assumption|].
    simpl. now apply map_update.
  - eapply forallb_impl; [|exact Htf]. intros r Hr.
    rewrite has_user_ids with (db := db); [assumption|].
    simpl. now apply map_update.
Qed.

Lemma insert_todo_constraints (t : Todo) (db db' : Database) (rows : list Todo) :
  constraints db = true -> insert_todo t db = Return (rows, db') ->
  constraints db' = true.
Proof.
  intros Hc. unfold insert_todo.
  destruct (existsb (fun v => todo_id v =? todo_id t) (todos db)) eqn:Hid;
    [discriminate|].
  destruct (existsb (fun u => user_id u =? todo_userId t) (users db)) eqn:Hfk;
    [|discriminate].
  simpl. intros Heq. injection Heq as _ <-.
  apply constraints_split in Hc.
  destruct Hc as (Hu & Hm & Ht & Hrf & Hd & Htf).
  apply constraints_split. simpl. rewrite map_app. cbn [map].
  repeat split; try assumption.
  - apply distinct_new; [assumption|now rewrite existsb_key].
  - rewrite forallb_app. apply andb_true_intro. split; [exact Htf|].
    simpl. unfold has_user. simpl. now rewrite Hfk.
Qed.

Lemma update_todo_constraints (id : string) (change : Todo -> Todo)
    (db : Database) :
  (forall r, todo_id (change r) = todo_id r) ->
  (forall r, todo_userId (change r) = todo_userId r) ->
  constraints db = true ->
  constraints (snd (update_todo id change db)) = true.
Proof.
  intros Hid Howner Hc. apply constraints_split in Hc.
  destruct Hc as (Hu & Hm & Ht & Hrf & Hd & Htf).
  apply constraints_split. unfold update_todo, update_where. simpl.
  rewrite map_update by assumption. repeat split; try assumption.
  rewrite forallb_forall in *. intros x Hx. apply in_map_iff in Hx.
  destruct Hx as [r [<- Hr]]. unfold has_user. simpl.
  destruct (todo_id r =? id); [rewrite Howner|]; now apply Htf.
Qed.

Lemma delete_todo_constraints (id : string) (db : Database) :
  constraints db = true -> constraints (delete_todo id db) = true.
Proof.
  intros Hc. apply constraints_split in Hc.
  destruct Hc as (Hu & Hm & Ht & Hrf & Hd & Htf).
  apply constraints_split. simpl. repeat split; try assumption.
  - now apply distinct_filter.
  - now apply forallb_filter.
Qed.

(** Close a goal about the store a route leaves by the lemma of the
    statement that produced it. *)
Ltac by_statement :=
  simpl; try assumption;
  match goal with
  | Hs : insert_user _ _ = Return (_, ?d) |- constraints ?d = true =>
      eapply insert_user_constraints; eassumption
  | Hs : insert_todo _ _ = Return (_, ?d) |- constraints ?d = true =>
      eapply insert_todo_constraints; eassumption
  | Hs : insert_refreshToken _ _ _ _ _ = Return ?d
    |- constraints ?d = true =>
      eapply insert_refreshToken_constraints; eassumption
  | Hs : delete_refreshToken ?tok ?db = (_, ?d) |- constraints ?d = true =>
      replace d with (snd (delete_refreshToken tok db)) by (now rewrite Hs);
      now apply delete_refreshToken_constraints
  | Hs : update_user ?id ?change ?db = (_, ?d) |- constraints ?d = true =>
      replace d with (snd (update_user id change db)) by (now rewrite Hs);
      now apply update_user_constraints
  | Hs : update_todo ?id ?change ?db = (_, ?d) |- constraints ?d = true =>
      replace d with (snd (update_todo id change db)) by (now rewrite Hs);
      now apply update_todo_constraints
  | |- constraints (delete_todo _ _) = true =>
      now apply delete_todo_constraints
  end.

Section Invariant.
Context `{Platform} (env : Env).

Lemma register_constraints body uuid salt db_now db :
  constraints db = true ->
  constraints (snd (register body uuid salt db_now db)) = true.
Proof.
  intros Hc. unfold register. route_steps. split_cases; by_statement.
Qed.

Lemma token_constraints body random now db_now db :
  constraints db = true ->
  constraints (snd (token env body random now db_now db)) = true.
Proof.
  intros Hc. unfold token. route_steps. split_cases; by_statement.
Qed.

Lemma refresh_constraints body now db :
  constraints db = true -> constraints (snd (refresh env body now db)) = true.
Proof.
  intros Hc. unfold refresh. route_steps. split_cases; by_statement.
Qed.

Lemma revoke_constraints body db :
  constraints db = true -> constraints (snd (revoke body db)) = true.
Proof.
  intros Hc. unfold revoke. route_steps. split_cases; by_statement.
Qed.

Lemma put_profile_constraints c body now db :
  constraints db = true ->
  constraints (snd (put_profile c body now db)) = true.
Proof.
  intros Hc. unfold put_profile. route_steps. split_cases; by_statement.
Qed.

Lemma create_todo_constraints c body uuid db_now db :
  constraints db = true ->
  constraints (snd (create_todo c body uuid db_now db)) = true.
Proof.
  intros Hc. unfold create_todo. route_steps. split_cases; by_statement.
Qed.

Lemma put_todo_constraints c id body now db :
  constraints db = true ->
  constraints (snd (put_todo c id body now db)) = true.
Proof.
  intros Hc. unfold put_todo. route_steps. split_cases; by_statement.
Qed.

Lemma delete_todo_route_constraints c id db :
  constraints db = true ->
  constraints (snd (delete_todo_route c id db)) = true.
Proof.
  intros Hc. unfold delete_todo_route. route_steps. split_cases; by_statement.
Qed.

Lemma guarded_constraints authHeader now next db :
  constraints db = true ->
  (forall c, constraints (snd (next c db)) = true) ->
  constraints (snd (requireAuth env authHeader now next db)) = true.
Proof.
  intros Hc Hnext.
  destruct (requireAuth_cases env authHeader now next db) as [->|[c ->]];
    [assumption|apply Hnext].
Qed.

(** Every request keeps the constraints. *)
Lemma app_constraints (q : Request) (db : Database) :
  constraints db = true -> constraints (snd (app env q db)) = true.
Proof.
  intros Hc. destruct q; simpl.
  - now apply register_constraints.
  - now apply token_constraints.
  - now apply refresh_constraints.
  - now apply revoke_constraints.
  - apply guarded_constraints; [assumption|].
    intros c. now rewrite get_profile_keeps_store.
  - apply guarded_constraints; [assumption|].
    intros c. now apply put_profile_constraints.
  - apply guarded_constraints; [assumption|].
    intros c. now rewrite list_todos_keeps_store.
  - apply guarded_constraints; [assumption|].
    intros c. now apply create_todo_constraints.
  - apply guarded_constraints; [assumption|].
    intros c. now rewrite get_todo_keeps_store.
  - apply guarded_constraints; [assumption|].
    intros c. now apply put_todo_constraints.
  - apply guarded_constraints; [assumption|].
    intros c. now apply delete_todo_route_constraints.
Qed.

Lemma serve_constraints (requests : list Request) (db : Database) :
  constraints db = true -> constraints (serve env requests db) = true.
Proof.
  revert db. induction requests as [|q later IH]; intros db Hc; simpl;
    [assumption|]. apply IH. now apply app_constraints.
Qed.

(** The constraints hold of every store the worker can be in. *)
Theorem reachable_constraints (db : Database) :
  reachable env db -> constraints db = true.
Proof.
  intros [requests <-]. now apply serve_constraints.
Qed.

End Invariant.

(** A generated refresh token is 64 characters long. *)
Lemma generateRefreshToken_length (random : nat -> Z) :
  String.length (generateRefreshToken random) = 64%nat.
Proof. reflexivity. Qed.

(** Every token stored in a store the worker can be in is a generated one,
    so none is the empty string. *)
Theorem reachable_tokens_generated `{Platform} (env : Env) (db : Database)
    (r : RefreshToken) :
  reachable env db -> In r (refreshTokens db) ->
  String.length (rt_token r) = 64%nat /\ rt_token r <> "".
Proof.
  intros [requests <-] Hin. apply serve_token_rows in Hin.
  destruct Hin as [[]|[body [random [now [db_now [_ [Htok _]]]]]]].
  rewrite Htok. split; [apply generateRefreshToken_length|].
  intros Hempty.
  pose proof (generateRefreshToken_length random) as Hlen.
  rewrite Hempty in Hlen. discriminate.
Qed.

(** ** POST /refresh on the stores the worker builds *)

(** C2. A refresh whose token matches a stored row past its expiry deletes
    that row and answers 401; from then on, until a login draws the same
    string again, a refresh with that token is answered 401 as an invalid
    token, not as an expired one, and a revoke is answered 404. *)
Theorem refresh_expired_consumes_token `{Platform} (env : Env)
    (db : Database) (r : RefreshToken) (now : Z) :
  reachable env db -> In r (refreshTokens db) -> past_expiry r now ->
  let body := {| refresh_token := Some (rt_token r) |} in
  let db' := snd (refresh env body now db) in
  fst (refresh env body now db) =
  formatResponse (failure "Unauthorized" "Refresh token has expired") 401
  /\ (forall x, In x (refreshTokens db') <->
                In x (refreshTokens db) /\ rt_token x <> rt_token r)
  /\ ~ In r (refreshTokens db')
  /\ users db' = users db /\ todos db' = todos db
  /\ (forall later : list Request,
        Forall (fun q => ~ issues q (rt_token r)) later ->
        let db'' := serve env later db' in
        (forall now',
           refresh env body now' db'' =
           (formatResponse (failure "Unauthorized" "Invalid refresh token")
              401, db''))
        /\ revoke body db'' =
           (formatResponse (failure "Not Found" "Refresh token not found")
              404, db'')).
Proof.
  intros Hreach Hin Hpast.
  apply refresh_expired_then_unknown; try assumption; try reflexivity.
  - now apply (reachable_tokens_generated env db r).
  - now apply (reachable_constraints env).
Qed.

(** C3. A refresh whose token matches a stored row that has not expired
    answers 200 with a new access token for the account that owns the row:
    the token is the serialisation, under the configured secret, of a
    payload with that account's id and email, the type access, the clock's
    second as issue time and the configured lifetime after it as expiry.
    The store is exactly as it was: no row is deleted, changed or added,
    and the same refresh token is accepted again. *)
Theorem refresh_valid_leaves_store_unchanged `{Platform} (env : Env)
    (db : Database) (r : RefreshToken) (now : Z) :
  JWT_SECRET env <> "" ->
  reachable env db -> In r (refreshTokens db) -> ~ past_expiry r now ->
  let body := {| refresh_token := Some (rt_token r) |} in
  (exists u,
     In u (users db) /\ user_id u = rt_userId r
     /\ fst (refresh env body now db) =
        formatResponse
          (JObj [("success", JBool true);
                 ("token_type", JStr "Bearer");
                 ("access_token",
                  JStr (jws_encode
                          {| tp_userId := rt_userId r;
                             tp_email := user_email u;
                             tp_type := "access";
                             tp_iat := seconds_of_ms now;
                             tp_nbf := None;
                             tp_exp := Some (seconds_of_ms now
                                             + JWT_ACCESS_EXPIRY env)%Z |}
                          (JWT_SECRET env)));
                 ("expires_in", number (JWT_ACCESS_EXPIRY env))]) 200)
  /\ snd (refresh env body now db) = db
  /\ (forall now',
        ~ past_expiry r now' ->
        status (fst (refresh env body now' (snd (refresh env body now db)))) =
        200%Z).
Proof.
  intros Hsec Hreach Hin Hlive body.
  assert (Hne : rt_token r <> "")
    by now apply (reachable_tokens_generated env db r).
  assert (Hc : constraints db = true) by now apply (reachable_constraints env).
  destruct (refresh_valid_step env db (rt_token r) r now Hne Hsec Hc Hin
              eq_refl Hlive) as [u [Hu [Hid Hstep]]].
  split; [|split].
  - exists u. repeat split; try assumption.
    unfold body. rewrite Hstep. unfold access_payload. now rewrite Hid.
  - unfold body. now rewrite Hstep.
  - intros now' Hlive'. unfold body. rewrite Hstep. simpl.
    destruct (refresh_valid_step env db (rt_token r) r now' Hne Hsec Hc Hin
                eq_refl Hlive') as [u' [_ [_ Hstep']]].
    now rewrite Hstep'.
Qed.

Example scenario_reachable : @reachable fixture scenario_env scenario_db.
Proof. exists scenario. reflexivity. Qed.

Lemma refresh_expired_consumes_token_witness :
  past_expiry scenario_row 1702592100001
  /\ fst (@refresh fixture scenario_env
            {| refresh_token := Some scenario_refresh_token |}
            1702592100001 scenario_db)
     = formatResponse (failure "Unauthorized" "Refresh token has expired") 401.
Proof.
  assert (Hpast : past_expiry scenario_row 1702592100001)
    by (vm_compute; reflexivity).
  split; [exact Hpast|].
  refine (proj1 (@refresh_expired_consumes_token fixture scenario_env
                   scenario_db scenario_row 1702592100001 _ _ Hpast)).
  - exists scenario. reflexivity.
  - vm_compute; left; reflexivity.
Defined.

Lemma refresh_valid_leaves_store_unchanged_witness :
  ~ past_expiry scenario_row 1702592100000
  /\ snd (@refresh fixture scenario_env
            {| refresh_token := Some scenario_refresh_token |}
            1702592100000 scenario_db) = scenario_db.
Proof.
  assert (Hlive : ~ past_expiry scenario_row 1702592100000)
    by (vm_compute; discriminate).
  split; [exact Hlive|].
  refine (proj1 (proj2 (@refresh_valid_leaves_store_unchanged fixture
                          scenario_env scenario_db scenario_row
                          1702592100000 _ _ _ Hlive))).
  - vm_compute; discriminate.
  - exists scenario. reflexivity.
  - vm_compute; left; reflexivity.
Defined.

(** The preferences check on a few values: objects, arrays and null pass;
    strings, numbers and booleans do not; no preferences at all passes. *)
Example put_profile_typeof_cases :
  let c := {| ctx_userId := alice_id; ctx_userEmail := "a@b.com" |} in
  let put (preferences : option Json) :=
    status (fst (@put_profile fixture c
                   {| prof_name := Some "Alice"; prof_bio := None;
                      prof_preferences := preferences |}
                   1700000500000 scenario_db)) in
  map put [Some (JObj [("theme", JStr "dark")]); Some JNull; Some (JArr []);
           Some (JArr [JNull; JBool true]); Some (JStr "dark");
           Some (JNum "7"); Some (JBool false); None]
  = [200; 200; 200; 200; 400; 400; 400; 200]%Z.
Proof. vm_compute. reflexivity. Qed.

(* ====================================================================== *)
(** * Further properties *)
(* ====================================================================== *)

Section Registration.
Context `{Platform}.

Lemma register_valid_checks (body : RegisterBody) :
  ~ register_invalid body ->
  falsy (reg_email body) || falsy (reg_password body)
  || falsy (reg_name body) = false
  /\ negb (includes (str (reg_email body)) "@") = false
  /\ (strlen (str (reg_password body)) <? 8)%Z = false.
Proof.
  unfold register_invalid. intros Hok.
  destruct (falsy (reg_email body)) eqn:He; [elim Hok; auto|].
  destruct (falsy (reg_password body)) eqn:Hp; [elim Hok; auto|].
  destruct (falsy (reg_name body)) eqn:Hn; [elim Hok; auto|].
  destruct (includes (str (reg_email body)) "@") eqn:Hat; [|elim Hok; auto].
  destruct (Z.ltb_spec (strlen (str (reg_password body))) 8) as [Hlt|Hge];
    [elim Hok; auto|]. auto.
Qed.

Lemma existsb_none {A} (hit : A -> bool) (rows : list A) :
  (forall r, In r rows -> hit r = false) -> existsb hit rows = false.
Proof.
  intros Hall. destruct (existsb hit rows) eqn:He; [|reflexivity].
  apply existsb_exists in He. destruct He as [r [Hr Hh]].
  rewrite (Hall r Hr) in Hh. discriminate.
Qed.

Lemma register_valid_step (body : RegisterBody) (uuid salt : string)
    (db_now : Z) (db : Database) :
  ~ register_invalid body ->
  (forall u, In u (users db) -> user_email u <> str (reg_email body)) ->
  (forall u, In u (users db) -> user_id u <> uuid) ->
  register body uuid salt db_now db =
  (formatResponse
     (success "User registered successfully"
        [("userId", JStr uuid); ("email", JStr (str (reg_email body)));
         ("name", JStr (str (reg_name body)))]) 201,
   set_users (users db ++ [new_account body uuid salt db_now])%list db).
Proof.
  intros Hok Hmail Hid.
  destruct (register_valid_checks body Hok) as [Hf [Hat Hlen]].
  unfold register. route_steps. rewrite Hf, Hat, Hlen.
  assert (Hg : get (users_by_email (str (reg_email body)) db) = None).
  { apply get_filter_none. intros u Hu. apply String.eqb_neq.
    now apply Hmail. }
  rewrite Hg. unfold insert_user. cbn [user_id user_email].
  rewrite (existsb_none (fun v => user_id v =? uuid)).
  2:{ intros u Hu. apply String.eqb_neq. now apply Hid. }
  rewrite (existsb_none (fun v => user_email v =? str (reg_email body))).
  2:{ intros u Hu. apply String.eqb_neq. now apply Hmail. }
  reflexivity.
Qed.

Lemma users_by_email_new (db : Database) (account : User) :
  (forall u, In u (users db) -> user_email u <> user_email account) ->
  users_by_email (user_email account)
    (set_users (users db ++ [account])%list db) = [account].
Proof.
  intros Hmail. unfold users_by_email, set_users. cbn [users].
  rewrite filter_app, filter_none.
  2:{ intros u Hu. apply String.eqb_neq. now apply Hmail. }
  simpl. now rewrite String.eqb_refl.
Qed.

(** X1. A register request whose fields are strings and pass the checks,
    with an email no account has and a fresh id, is answered 201 and
    appends one account holding the hash of the password, an empty bio and
    empty preferences; tokens and todos are untouched, and the account is
    then found by email and by id. *)
Theorem register_creates_account (body : RegisterBody) (uuid salt : string)
    (db_now : Z) (db : Database) :
  ~ register_invalid body ->
  (forall u, In u (users db) -> user_email u <> str (reg_email body)) ->
  (forall u, In u (users db) -> user_id u <> uuid) ->
  let account := new_account body uuid salt db_now in
  let db' := snd (register body uuid salt db_now db) in
  fst (register body uuid salt db_now db) =
  formatResponse
    (success "User registered successfully"
       [("userId", JStr uuid); ("email", JStr (str (reg_email body)));
        ("name", JStr (str (reg_name body)))]) 201
  /\ users db' = (users db ++ [account])%list
  /\ refreshTokens db' = refreshTokens db /\ todos db' = todos db
  /\ users_by_email (str (reg_email body)) db' = [account]
  /\ users_by_id uuid db' = [account].
Proof.
  intros Hok Hmail Hid account db'.
  pose proof (register_valid_step body uuid salt db_now db Hok Hmail Hid)
    as Hstep. fold account in Hstep.
  unfold db'. rewrite Hstep. cbn [fst snd set_users users refreshTokens todos].
  repeat split.
  - unfold users_by_email, set_users. cbn [users]. rewrite filter_app.
    rewrite filter_none.
    2:{ intros u Hu. apply String.eqb_neq. now apply Hmail. }
    simpl. now rewrite String.eqb_refl.
  - unfold users_by_id, set_users. cbn [users]. rewrite filter_app.
    rewrite filter_none.
    2:{ intros u Hu. apply String.eqb_neq. now apply Hid. }
    simpl. now rewrite String.eqb_refl.
Qed.

End Registration.

Section Login.
Context `{Platform} (env : Env).

Lemma generateAccessToken_signs (userId email secret : string)
    (expirySeconds now : Z) :
  secret <> "" ->
  generateAccessToken userId email secret expirySeconds now =
  Return (jws_encode (access_payload userId email expirySeconds now) secret).
Proof.
  intros Hsec. unfold generateAccessToken, jwt_sign.
  apply String.eqb_neq in Hsec. now rewrite Hsec.
Qed.

Lemma token_success (body : TokenBody) (random : nat -> Z) (now db_now : Z)
    (db : Database) (u : User) (accessToken : string) :
  falsy (tok_email body) = false -> falsy (tok_password body) = false ->
  get (users_by_email (str (tok_email body)) db) = Some u ->
  verifyPassword (str (tok_password body)) (user_password u) = true ->
  generateAccessToken (user_id u) (user_email u) (JWT_SECRET env)
    (JWT_ACCESS_EXPIRY env) now = Return accessToken ->
  (forall r, In r (refreshTokens db) ->
             rt_token r <> generateRefreshToken random) ->
  token env body random now db_now db =
  (formatResponse
     (login_data env accessToken (generateRefreshToken random)) 200,
   with_login_row env db (user_id u) random now db_now).
Proof.
  intros He Hp Hget Hpw Hgen Hfresh. unfold token. route_steps.
  rewrite He, Hp. cbn [orb]. rewrite Hget, Hpw. cbn [negb]. rewrite Hgen.
  unfold insert_refreshToken.
  rewrite (existsb_none (fun r => rt_token r =? generateRefreshToken random)).
  2:{ intros r Hr. apply String.eqb_neq. now apply Hfresh. }
  assert (Hu : existsb (fun v => user_id v =? user_id u) (users db) = true).
  { apply get_filter_some in Hget. destruct Hget as [Hin _].
    apply existsb_exists. exists u. split; [assumption|apply String.eqb_refl]. }
  rewrite Hu. reflexivity.
Qed.

(** X2. A login is answered 200 only for an account whose stored hash verifies
    the password; then one row is appended and nothing else changes.  Any
    other answer leaves the store as it was. *)
Theorem login_succeeds_only_with_credentials (body : TokenBody)
    (random : nat -> Z) (now db_now : Z) (db : Database) :
  let answer := token env body random now db_now db in
  (status (fst answer) = 200%Z ->
   exists u accessToken,
     In u (users db) /\ user_email u = str (tok_email body)
     /\ verifyPassword (str (tok_password body)) (user_password u) = true
     /\ generateAccessToken (user_id u) (user_email u) (JWT_SECRET env)
          (JWT_ACCESS_EXPIRY env) now = Return accessToken
     /\ answer =
        (formatResponse
           (login_data env accessToken (generateRefreshToken random)) 200,
         with_login_row env db (user_id u) random now db_now))
  /\ (status (fst answer) <> 200%Z -> snd answer = db).
Proof.
  unfold token, insert_refreshToken. route_steps.
  split_cases; cbn [fst snd status]; split; try discriminate;
    try (intros; reflexivity); try (intros Hne; now elim Hne).
  intros _.
  match goal with
  | Hg : get _ = Some ?u |- _ =>
      exists u; apply get_filter_some in Hg; destruct Hg as [Hin Heq];
      apply String.eqb_eq in Heq
  end.
  match goal with
  | Hv : negb (verifyPassword _ _) = false |- _ =>
      apply negb_false_iff in Hv
  end.
  eexists. repeat split; try eassumption.
Qed.

End Login.

(** X3. Register, then log in with the same email and password, both
    strings: when the package's [compare] accepts the hash its [hash]
    made, the login is answered 200 and its refresh token is stored for
    the new account. *)
Theorem register_then_login `{Platform} (env : Env) (body : RegisterBody)
    (uuid salt : string) (db_now : Z) (random : nat -> Z)
    (now db_now' : Z) (db : Database) :
  ~ register_invalid body ->
  (forall u, In u (users db) -> user_email u <> str (reg_email body)) ->
  (forall u, In u (users db) -> user_id u <> uuid) ->
  bcrypt_compare (str (reg_password body))
    (bcrypt_hash (str (reg_password body)) 10 salt) = true ->
  JWT_SECRET env <> "" ->
  (forall r, In r (refreshTokens db) ->
             rt_token r <> generateRefreshToken random) ->
  let db1 := snd (register body uuid salt db_now db) in
  let login := {| tok_email := reg_email body;
                  tok_password := reg_password body |} in
  token env login random now db_now' db1 =
  (formatResponse
     (login_data env
        (jws_encode
           (access_payload uuid (str (reg_email body))
              (JWT_ACCESS_EXPIRY env) now) (JWT_SECRET env))
        (generateRefreshToken random)) 200,
   with_login_row env db1 uuid random now db_now').
Proof.
  intros Hok Hmail Hid Hcmp Hsec Hfresh db1 login.
  assert (Hdb1 : db1 = set_users
                         (users db ++ [new_account body uuid salt db_now])%list
                         db).
  { unfold db1. now rewrite register_valid_step. }
  assert (Htok : refreshTokens db1 = refreshTokens db)
    by (now rewrite Hdb1).
  assert (Hfind : users_by_email (str (reg_email body)) db1
                  = [new_account body uuid salt db_now]).
  { rewrite Hdb1.
    apply (users_by_email_new db (new_account body uuid salt db_now)).
    exact Hmail. }
  destruct (register_valid_checks body Hok) as [Hf _].
  apply orb_false_elim in Hf. destruct Hf as [Hf _].
  apply orb_false_elim in Hf. destruct Hf as [He Hp].
  apply (token_success env login random now db_now' db1
           (new_account body uuid salt db_now)).
  - exact He.
  - exact Hp.
  - unfold login. cbn [tok_email]. now rewrite Hfind.
  - exact Hcmp.
  - now apply generateAccessToken_signs.
  - intros r Hr. rewrite Htok in Hr. now apply Hfresh.
Qed.

Section RefreshFacts.
Context `{Platform} (env : Env).

Lemma refresh_join_found (tok : string) (db : Database) (r : RefreshToken)
    (u : User) :
  get (refresh_join_by_token tok db) = Some (r, u) ->
  In r (refreshTokens db) /\ rt_token r = tok
  /\ In u (users db) /\ user_id u = rt_userId r.
Proof.
  unfold get, refresh_join_by_token. intros Hg.
  assert (Hin : In (r, u)
                  (flat_map
                     (fun r0 => map (fun u0 => (r0, u0))
                                    (users_by_id (rt_userId r0) db))
                     (filter (fun r0 => rt_token r0 =? tok)
                             (refreshTokens db)))).
  { destruct (flat_map _ _) as [|x rest]; [discriminate|].
    injection Hg as ->. now left. }
  apply in_flat_map in Hin. destruct Hin as [r0 [Hr0 Hpair]].
  apply in_map_iff in Hpair. destruct Hpair as [u0 [Heq Hu0]].
  injection Heq as -> ->. apply filter_In in Hr0. destruct Hr0 as [Hr Htok].
  unfold users_by_id in Hu0. apply filter_In in Hu0. destruct Hu0 as [Hu Hid].
  apply String.eqb_eq in Htok, Hid. auto.
Qed.

(** X4. A refresh is answered 200 only for a stored, unexpired row with that
    token whose owner exists, and only when the signing secret is set; the
    access token in the answer is the serialisation, under that secret, of
    the payload with the owner's id and email, the type access, the clock's
    second as issue time and the configured lifetime after it as expiry;
    and the store is untouched. *)
Theorem refresh_succeeds_only_for_live_token (body : RefreshBody) (now : Z)
    (db : Database) :
  status (fst (refresh env body now db)) = 200%Z ->
  exists r u,
    In r (refreshTokens db) /\ rt_token r = str (refresh_token body)
    /\ ~ past_expiry r now
    /\ In u (users db) /\ user_id u = rt_userId r
    /\ JWT_SECRET env <> ""
    /\ field "access_token" (data (fst (refresh env body now db)))
       = Some (JStr (jws_encode
                       {| tp_userId := rt_userId r;
                          tp_email := user_email u;
                          tp_type := "access";
                          tp_iat := seconds_of_ms now;
                          tp_nbf := None;
                          tp_exp := Some (seconds_of_ms now
                                          + JWT_ACCESS_EXPIRY env)%Z |}
                       (JWT_SECRET env)))
    /\ snd (refresh env body now db) = db.
Proof.
  unfold refresh. route_steps.
  destruct (falsy (refresh_token body)); [discriminate|].
  destruct (get (refresh_join_by_token (str (refresh_token body)) db))
    as [[r u]|] eqn:Hg; [|discriminate].
  apply refresh_join_found in Hg. destruct Hg as [Hr [Htok [Hu Hid]]].
  destruct (Z.ltb_spec (rt_expiresAt r * 1000) now) as [Hlt|Hge];
    [discriminate|].
  destruct (generateAccessToken _ _ _ _ _) as [accessToken|e] eqn:Hgen;
    [|discriminate].
  apply generateAccessToken_returns in Hgen. destruct Hgen as [Hsec ->].
  intros _. exists r, u. unfold past_expiry.
  repeat split; try assumption; [lia|].
  cbn [fst data field lookup formatResponse String.eqb Ascii.eqb Bool.eqb].
  unfold access_payload. now rewrite Hid.
Qed.

(** X5. After a revoke, a refresh with the same token is refused as invalid,
    whatever happens in between short of a login drawing the same string. *)
Theorem revoke_then_refresh_is_refused (tok : string) (db : Database)
    (later : list Request) (now : Z) :
  tok <> "" ->
  Forall (fun q => ~ issues q tok) later ->
  let body := {| refresh_token := Some tok |} in
  let db' := serve env later (snd (revoke body db)) in
  refresh env body now db' =
  (formatResponse (failure "Unauthorized" "Invalid refresh token") 401, db').
Proof.
  intros Hne Hnone body db'.
  apply refresh_unknown; [assumption|]. apply no_row_no_join.
  apply (absent_token_stays_absent env); [|assumption].
  intros r Hr. unfold body in Hr. rewrite revoke_result in Hr by assumption.
  simpl in Hr. apply filter_In in Hr. destruct Hr as [_ Hr].
  now apply negb_true_iff, String.eqb_neq in Hr.
Qed.

End RefreshFacts.

Section AccessTokens.
Context `{Platform}.

Lemma verifyAccessToken_issued (userId email secret : string)
    (expirySeconds now : Z) :
  let payload := access_payload userId email expirySeconds now in
  let t := jws_encode payload secret in
  secret <> "" -> t <> "" ->
  jws_decode t = Some payload -> jws_check t secret = true ->
  (forall later,
     (seconds_of_ms later < seconds_of_ms now + expirySeconds)%Z ->
     verifyAccessToken t secret later = Return (Some payload))
  /\ (forall later,
        (seconds_of_ms now + expirySeconds <= seconds_of_ms later)%Z ->
        verifyAccessToken t secret later = Return None).
Proof.
  intros payload t Hsec Ht Hdec Hchk.
  apply String.eqb_neq in Hsec, Ht.
  split; intros later Hlater; unfold verifyAccessToken, jwt_verify;
    rewrite Ht, Hdec, Hsec, Hchk; cbn [negb payload access_payload tp_exp].
  - destruct (Z.geb_spec (seconds_of_ms later)
                (seconds_of_ms now + expirySeconds)) as [Hge|Hlt]; [lia|].
    reflexivity.
  - destruct (Z.geb_spec (seconds_of_ms later)
                (seconds_of_ms now + expirySeconds)) as [Hge|Hlt]; [|lia].
    reflexivity.
Qed.

(** X6. An access token verifies, under the secret that signed it, until its
    lifetime is over and not after: the payload comes back while the clock
    is before issue time plus lifetime, in whole seconds, and null from
    then on.  The package's decode and check are assumed to accept what its
    encode produced. *)
Theorem access_token_verifies_until_expiry (userId email secret : string)
    (expirySeconds now : Z) :
  let payload := access_payload userId email expirySeconds now in
  let t := jws_encode payload secret in
  secret <> "" -> t <> "" ->
  jws_decode t = Some payload -> jws_check t secret = true ->
  generateAccessToken userId email secret expirySeconds now = Return t
  /\ (forall later,
        (seconds_of_ms later < seconds_of_ms now + expirySeconds)%Z ->
        verifyAccessToken t secret later = Return (Some payload))
  /\ (forall later,
        (seconds_of_ms now + expirySeconds <= seconds_of_ms later)%Z ->
        verifyAccessToken t secret later = Return None).
Proof.
  intros payload t Hsec Ht Hdec Hchk.
  split; [now apply generateAccessToken_signs|].
  now apply verifyAccessToken_issued.
Qed.

(** X7. The token a login or a refresh signs opens the guarded routes for the
    account it was signed for, while it lasts, when sent as
    [Bearer <token>]; once expired the guard answers 401. *)
Theorem issued_token_passes_guard (env : Env) (userId email : string)
    (now later : Z) (next : Context -> Database -> Response * Database)
    (db : Database) :
  let payload := access_payload userId email (JWT_ACCESS_EXPIRY env) now in
  let t := jws_encode payload (JWT_SECRET env) in
  JWT_SECRET env <> "" -> t <> "" -> includes t " " = false ->
  jws_decode t = Some payload -> jws_check t (JWT_SECRET env) = true ->
  ((seconds_of_ms later < seconds_of_ms now + JWT_ACCESS_EXPIRY env)%Z ->
   requireAuth env (Some ("Bearer " ++ t)) later next db =
   next {| ctx_userId := userId; ctx_userEmail := email |} db)
  /\ ((seconds_of_ms now + JWT_ACCESS_EXPIRY env <= seconds_of_ms later)%Z ->
      requireAuth env (Some ("Bearer " ++ t)) later next db =
      (formatResponse
         (failure "Unauthorized" "Invalid or expired access token") 401, db)).
Proof.
  intros payload t Hsec Ht Hsp Hdec Hchk.
  destruct (verifyAccessToken_issued userId email (JWT_SECRET env)
              (JWT_ACCESS_EXPIRY env) now Hsec Ht Hdec Hchk)
    as [Hlive Hdead].
  assert (Hx : extractBearerToken (Some ("Bearer " ++ t)) = Some t).
  { apply extractBearerToken_some. eexists. split; [reflexivity|].
    apply split_two. now repeat split. }
  split; intros Hlater.
  - rewrite (requireAuth_pass env _ later next db t payload Hx
               (Hlive later Hlater)). reflexivity.
  - pose proof (Hdead later Hlater) as Hnull.
    unfold requireAuth. rewrite Hx. cbn [falsy str].
    apply String.eqb_neq in Ht. subst t payload. rewrite Ht, Hnull.
    reflexivity.
Qed.

End AccessTokens.

Section Accounts.
Context `{Platform} (env : Env).

Lemma requireAuth_answers (authHeader : option string) (now : Z)
    (next : Context -> Database -> Response * Database) (db : Database) :
  (exists message,
     requireAuth env authHeader now next db =
     (formatResponse (failure "Unauthorized" message) 401, db))
  \/ requireAuth env authHeader now next db = (uncaught, db)
  \/ exists t payload,
       extractBearerToken authHeader = Some t
       /\ verifyAccessToken t (JWT_SECRET env) now = Return (Some payload)
       /\ requireAuth env authHeader now next db =
          next {| ctx_userId := tp_userId payload;
                  ctx_userEmail := tp_email payload |} db.
Proof.
  unfold requireAuth.
  destruct (extractBearerToken authHeader) as [t|] eqn:Hx; cbn [falsy str].
  - destruct (t =? ""); [left; eexists; reflexivity|].
    destruct (verifyAccessToken t (JWT_SECRET env) now) as [[payload|]|e]
      eqn:Hv.
    + right. right. exists t, payload. auto.
    + left. eexists. reflexivity.
    + right. left. reflexivity.
  - left. eexists. reflexivity.
Qed.

Lemma register_users body uuid salt db_now db :
  users (snd (register body uuid salt db_now db)) = users db
  \/ users (snd (register body uuid salt db_now db))
     = (users db ++ [new_account body uuid salt db_now])%list.
Proof.
  unfold register, insert_user, set_users. route_steps.
  split_cases; auto;
    match goal with
    | Heq : Return _ = Return _ |- _ => injection Heq as <- <-
    end; cbn [snd users]; auto.
Qed.

Lemma put_profile_users c body now db :
  users (snd (put_profile c body now db)) = users db
  \/ exists stored,
       users (snd (put_profile c body now db))
       = map (fun r =>
                if user_id r =? ctx_userId c
                then profile_updates (seconds_of_ms now) (prof_name body)
                       (option_map Some (prof_bio body)) stored r
                else r) (users db).
Proof.
  unfold put_profile, update_user, update_where, set_users. route_steps.
  split_cases; auto;
    repeat match goal with
           | Heq : (_, _) = (_, _) |- _ => injection Heq as <- <-
           end; cbn [snd users]; eauto.
Qed.

Lemma token_keeps_users body random now db_now db :
  users (snd (token env body random now db_now db)) = users db.
Proof.
  destruct (token_store env body random now db_now db) as [->|[uid ->]];
    reflexivity.
Qed.

Lemma refresh_keeps_users body now db :
  users (snd (refresh env body now db)) = users db.
Proof. destruct (refresh_store env body now db) as [->| ->]; reflexivity. Qed.

Lemma revoke_keeps_users body db : users (snd (revoke body db)) = users db.
Proof. destruct (revoke_store body db) as [->| ->]; reflexivity. Qed.

Lemma create_todo_keeps_users c body uuid db_now db :
  users (snd (create_todo c body uuid db_now db)) = users db.
Proof.
  unfold create_todo, insert_todo, set_todos. route_steps.
  split_cases; reflexivity.
Qed.

Lemma put_todo_keeps_users c id body now db :
  users (snd (put_todo c id body now db)) = users db.
Proof.
  unfold put_todo, update_todo, update_where, set_todos. route_steps.
  split_cases; reflexivity.
Qed.

Lemma delete_todo_keeps_users c id db :
  users (snd (delete_todo_route c id db)) = users db.
Proof.
  unfold delete_todo_route, delete_todo, set_todos. route_steps.
  split_cases; reflexivity.
Qed.

(** The rows of [users] after a request: the same, one more, or the
    caller's row rewritten by PUT /profile. *)
Lemma app_users (q : Request) (db : Database) :
  users (snd (app env q db)) = users db
  \/ (exists u, users (snd (app env q db)) = (users db ++ [u])%list)
  \/ exists id updatedAt name bio stored,
       users (snd (app env q db))
       = map (fun r => if user_id r =? id
                       then profile_updates updatedAt name bio stored r
                       else r) (users db).
Proof.
  destruct q; simpl.
  - destruct (register_users body uuid salt db_now db) as [->|Hu]; eauto.
  - left. apply token_keeps_users.
  - left. apply refresh_keeps_users.
  - left. apply revoke_keeps_users.
  - left. destruct (requireAuth_cases env authorization now get_profile db)
      as [->|[c ->]]; [reflexivity|now rewrite get_profile_keeps_store].
  - destruct (requireAuth_cases env authorization now
                (fun c => put_profile c body now) db) as [->|[c ->]];
      [auto|].
    destruct (put_profile_users c body now db) as [->|[stored ->]]; [auto|].
    right. right. eauto 6.
  - left. destruct (requireAuth_cases env authorization now list_todos db)
      as [->|[c ->]]; [reflexivity|now rewrite list_todos_keeps_store].
  - left. destruct (requireAuth_cases env authorization now
                      (fun c => create_todo c body uuid db_now) db)
      as [->|[c ->]]; [reflexivity|apply create_todo_keeps_users].
  - left. destruct (requireAuth_cases env authorization now
                      (fun c => get_todo c id) db)
      as [->|[c ->]]; [reflexivity|now rewrite get_todo_keeps_store].
  - left. destruct (requireAuth_cases env authorization now
                      (fun c => put_todo c id body now) db)
      as [->|[c ->]]; [reflexivity|apply put_todo_keeps_users].
  - left. destruct (requireAuth_cases env authorization now
                      (fun c => delete_todo_route c id) db)
      as [->|[c ->]]; [reflexivity|apply delete_todo_keeps_users].
Qed.

Lemma same_credentials_refl (u : User) : same_credentials u u.
Proof. now repeat split. Qed.

Lemma same_credentials_trans (u v w : User) :
  same_credentials u v -> same_credentials v w -> same_credentials u w.
Proof. unfold same_credentials. intuition congruence. Qed.

(** X8. No request removes an account or changes its id, email, password hash
    or creation time. *)
Theorem accounts_persist (requests : list Request) (db : Database) (u : User) :
  In u (users db) ->
  exists u', In u' (users (serve env requests db)) /\ same_credentials u u'.
Proof.
  revert db u. induction requests as [|q later IH]; intros db u Hin; simpl.
  - exists u. split; [assumption|apply same_credentials_refl].
  - assert (Hstep : exists v, In v (users (snd (app env q db)))
                              /\ same_credentials u v).
    { destruct (app_users q db)
        as [->|[[n ->]|[id [at_ [name [bio [stored ->]]]]]]].
      - exists u. split; [assumption|apply same_credentials_refl].
      - exists u. split; [apply in_or_app; now left
                         |apply same_credentials_refl].
      - eexists. split; [apply in_map; exact Hin|].
        destruct (user_id u =? id); now repeat split. }
    destruct Hstep as [v [Hv Huv]].
    destruct (IH _ v Hv) as [w [Hw Hvw]].
    exists w. split; [assumption|].
    now apply same_credentials_trans with v.
Qed.

(** X9. PUT /profile leaves every other account's row, every refresh token and
    every todo exactly as they were, and in the caller's row changes at
    most the name, the bio, the preferences and the update time. *)
Theorem put_profile_touches_only_the_caller (c : Context) (body : ProfileBody)
    (now : Z) (db : Database) :
  let db' := snd (put_profile c body now db) in
  (forall v, In v (users db) -> user_id v <> ctx_userId c ->
             In v (users db'))
  /\ (forall v', In v' (users db') ->
        In v' (users db)
        \/ exists v, In v (users db) /\ user_id v = ctx_userId c
                     /\ same_credentials v v')
  /\ refreshTokens db' = refreshTokens db /\ todos db' = todos db.
Proof.
  intros db'. split; [|split; [|split]].
  - intros v Hv Hne. unfold db'.
    destruct (put_profile_users c body now db) as [->|[stored ->]];
      [assumption|].
    apply in_map_iff. exists v. split; [|assumption].
    apply String.eqb_neq in Hne. now rewrite Hne.
  - intros v' Hv'. unfold db' in Hv'.
    destruct (put_profile_users c body now db) as [Heq|[stored Heq]];
      rewrite Heq in Hv'; [now left|].
    apply in_map_iff in Hv'. destruct Hv' as [v [Hchange Hv]].
    destruct (String.eqb_spec (user_id v) (ctx_userId c)) as [Hid|Hid].
    + right. exists v. subst v'. now repeat split.
    + left. now subst v'.
  - apply put_profile_keeps_tokens.
  - unfold db', put_profile, update_user, update_where, set_users.
    route_steps. split_cases; reflexivity.
Qed.

End Accounts.

Section Responses.
Context `{Platform} (env : Env).

Ltac no_password :=
  split;
  [reflexivity
  |cbn; let prof := fresh "prof" in
        let Hprof := fresh "Hprof" in
        intros prof Hprof; try discriminate;
        try (injection Hprof as <-; reflexivity)].

Lemma guarded_hides_password authHeader now next db :
  (forall c, hides_password (data (fst (next c db)))) ->
  hides_password (data (fst (requireAuth env authHeader now next db))).
Proof.
  intros Hnext.
  destruct (requireAuth_answers env authHeader now next db)
    as [[m ->]|[->|[t [payload [_ [_ ->]]]]]]; [no_password|no_password|].
  apply Hnext.
Qed.

(** X10. No response carries the password hash as a member: not at the top of
    its data and not in the profile it returns. *)
Theorem responses_hide_password (q : Request) (db : Database) :
  hides_password (data (fst (app env q db))).
Proof.
  destruct q; simpl.
  - unfold register. route_steps. split_cases; no_password.
  - unfold token. route_steps. split_cases; no_password.
  - unfold refresh. route_steps. split_cases; no_password.
  - unfold revoke. route_steps. split_cases; no_password.
  - apply guarded_hides_password. intros c.
    unfold get_profile. route_steps. split_cases; no_password.
  - apply guarded_hides_password. intros c.
    unfold put_profile. route_steps. split_cases; no_password.
  - apply guarded_hides_password. intros c.
    unfold list_todos. route_steps. no_password.
  - apply guarded_hides_password. intros c.
    unfold create_todo. route_steps. split_cases; no_password.
  - apply guarded_hides_password. intros c.
    unfold get_todo. route_steps. split_cases; no_password.
  - apply guarded_hides_password. intros c.
    unfold put_todo. route_steps. split_cases; no_password.
  - apply guarded_hides_password. intros c.
    unfold delete_todo_route. route_steps. split_cases; no_password.
Qed.

End Responses.

Section Todos.
Context `{Platform}.

Lemma distinct_key_eq {A} (key : A -> string) (rows : list A) (a b : A) :
  distinct (map key rows) = true -> In a rows -> In b rows ->
  key a = key b -> a = b.
Proof.
  intros Hd Ha Hb Hk.
  assert (Hin : In b (filter (fun x => key x =? key a) rows)).
  { apply filter_In. split; [assumption|]. rewrite Hk. apply String.eqb_refl. }
  rewrite (filter_unique key rows a Hd Ha) in Hin.
  destruct Hin as [Heq|[]]. exact Heq.
Qed.

Lemma filter_map_keep {A} (hit : A -> bool) (f : A -> A) (rows : list A) :
  (forall r, hit (f r) = hit r) ->
  filter hit (map f rows) = map f (filter hit rows).
Proof.
  intros Hkeep. induction rows as [|r rows IH]; simpl; [reflexivity|].
  rewrite Hkeep. destruct (hit r); simpl; now rewrite IH.
Qed.

(** X11. POST /todos with a title that is a string, a description that is
    one if it is given, a fresh id and an existing caller stores the todo
    for the caller, not completed, and GET /todos/:id then returns it. *)
Theorem create_todo_then_get (c : Context) (body : NewTodoBody)
    (uuid : string) (db_now : Z) (db : Database) :
  falsy (new_title body) = false -> isValidUUID uuid = true ->
  (forall t, In t (todos db) -> todo_id t <> uuid) ->
  has_user (ctx_userId c) db = true ->
  let todo := new_todo c body uuid db_now in
  let db' := snd (create_todo c body uuid db_now db) in
  fst (create_todo c body uuid db_now db) =
  formatResponse
    (success "Todo created successfully" [("todo", todo_json todo)]) 201
  /\ todos db' = (todos db ++ [todo])%list
  /\ users db' = users db /\ refreshTokens db' = refreshTokens db
  /\ get_todo c uuid db' = (formatResponse (todo_json todo) 200, db').
Proof.
  intros Htitle Hvalid Hfresh Huser todo db'.
  assert (Hstep : create_todo c body uuid db_now db =
                  (formatResponse
                     (success "Todo created successfully"
                        [("todo", todo_json todo)]) 201,
                   set_todos (todos db ++ [todo])%list db)).
  { unfold create_todo. route_steps. rewrite Htitle.
    unfold insert_todo. cbn [todo_id todo_userId].
    rewrite (existsb_none (fun v => todo_id v =? uuid)).
    2:{ intros t Ht. apply String.eqb_neq. now apply Hfresh. }
    unfold has_user in Huser. rewrite Huser. reflexivity. }
  unfold db'. rewrite Hstep. cbn [fst snd].
  repeat split.
  unfold get_todo. route_steps. rewrite Hvalid. cbn [negb].
  assert (Hfind : todos_by_id_and_user uuid (ctx_userId c)
                    (set_todos (todos db ++ [todo])%list db) = [todo]).
  { unfold todos_by_id_and_user, set_todos. cbn [todos].
    rewrite filter_app, filter_none.
    2:{ intros t Ht. apply andb_false_iff. left. apply String.eqb_neq.
        now apply Hfresh. }
    simpl. now rewrite !String.eqb_refl. }
  rewrite Hfind. reflexivity.
Qed.

(** X12. PUT /todos/:id on a todo of the caller, with a body whose title
    and description are strings where they are given, rewrites that row
    with the fields the body gives, keeps its id, owner and creation time,
    leaves every other todo as it was, and GET then returns the new row. *)
Theorem put_todo_updates_in_place (c : Context) (id : string)
    (body : TodoBody) (now : Z) (db : Database) (old : Todo) :
  isValidUUID id = true -> distinct (map todo_id (todos db)) = true ->
  In old (todos db) -> todo_id old = id -> todo_userId old = ctx_userId c ->
  let new := todo_updates (seconds_of_ms now) (upd_title body)
               (option_map Some (upd_description body))
               (upd_completed body) old in
  let db' := snd (put_todo c id body now db) in
  fst (put_todo c id body now db) =
  formatResponse
    (success "Todo updated successfully" [("todo", todo_json new)]) 200
  /\ todo_id new = id /\ todo_userId new = ctx_userId c
  /\ todo_createdAt new = todo_createdAt old
  /\ (forall t, In t (todos db) -> t <> old -> In t (todos db'))
  /\ In new (todos db')
  /\ List.length (todos db') = List.length (todos db)
  /\ get_todo c id db' = (formatResponse (todo_json new) 200, db').
Proof.
  intros Hvalid Hd Hold Hid Howner new db'.
  assert (Hsel : filter (fun t => todo_id t =? id) (todos db) = [old]).
  { rewrite <- Hid. now apply (filter_unique todo_id). }
  assert (Hown : todos_by_id_and_user id (ctx_userId c) db = [old]).
  { unfold todos_by_id_and_user.
    assert (Hsame : forall t, In t (todos db) ->
               ((todo_id t =? id) && (todo_userId t =? ctx_userId c))
               = (todo_id t =? id)).
    { intros t Ht. destruct (String.eqb_spec (todo_id t) id) as [Ht'|];
        [|reflexivity].
      assert (t = old) by (apply (distinct_key_eq todo_id (todos db));
                           congruence).
      subst t. rewrite Howner. apply String.eqb_refl. }
    rewrite (filter_ext_in _ _ _ Hsame). exact Hsel. }
  set (change := todo_updates (seconds_of_ms now) (upd_title body)
                   (option_map Some (upd_description body))
                   (upd_completed body)).
  assert (Hstep : put_todo c id body now db =
                  (formatResponse
                     (success "Todo updated successfully"
                        [("todo", todo_json new)]) 200,
                   snd (update_todo id change db))).
  { unfold put_todo. route_steps. rewrite Hvalid. cbn [negb].
    rewrite Hown. cbn [get hd_error]. fold change.
    unfold update_todo, update_where. rewrite Hsel. reflexivity. }
  assert (Hrows : todos (snd (update_todo id change db))
                  = map (fun t => if todo_id t =? id then change t else t)
                        (todos db)) by reflexivity.
  unfold db'. rewrite Hstep. cbn [fst snd].
  split; [reflexivity|]. split; [exact Hid|]. split; [exact Howner|].
  split; [reflexivity|]. split; [|split; [|split]].
  - intros t Ht Hne. rewrite Hrows. apply in_map_iff. exists t.
    split; [|assumption].
    destruct (String.eqb_spec (todo_id t) id) as [Ht'|]; [|reflexivity].
    elim Hne. apply (distinct_key_eq todo_id (todos db)); congruence.
  - rewrite Hrows. apply in_map_iff. exists old. split; [|assumption].
    rewrite Hid, String.eqb_refl. reflexivity.
  - rewrite Hrows. apply length_map.
  - unfold get_todo. route_steps. rewrite Hvalid. cbn [negb].
    assert (Hfind : todos_by_id_and_user id (ctx_userId c)
                      (snd (update_todo id change db)) = [new]).
    { unfold todos_by_id_and_user. rewrite Hrows.
      rewrite filter_map_keep.
      2:{ intros r. destruct (todo_id r =? id) eqn:Hr; [|now rewrite Hr].
          unfold change. cbn [todo_updates todo_id todo_userId].
          now rewrite Hr. }
      fold (todos_by_id_and_user id (ctx_userId c) db). rewrite Hown.
      cbn [map]. rewrite Hid, String.eqb_refl. reflexivity. }
    rewrite Hfind. reflexivity.
Qed.

End Todos.

Section TodoOwnership.
Context `{Platform} (env : Env).

(** X13. DELETE /todos/:id on a todo of the caller removes every row with that
    id and no other; after it, GET and a second DELETE are answered 404. *)
Theorem delete_todo_then_gone (c : Context) (id : string) (db : Database)
    (old : Todo) :
  isValidUUID id = true ->
  In old (todos db) -> todo_id old = id -> todo_userId old = ctx_userId c ->
  let db' := snd (delete_todo_route c id db) in
  let not_found := formatResponse (failure "Not Found" "Todo not found") 404 in
  fst (delete_todo_route c id db) =
  formatResponse
    (JObj [("success", JBool true);
           ("message", JStr "Todo deleted successfully")]) 200
  /\ (forall t, In t (todos db') <-> In t (todos db) /\ todo_id t <> id)
  /\ users db' = users db /\ refreshTokens db' = refreshTokens db
  /\ get_todo c id db' = (not_found, db')
  /\ delete_todo_route c id db' = (not_found, db').
Proof.
  intros Hvalid Hold Hid Howner db' not_found.
  assert (Hget : exists found,
             get (todos_by_id_and_user id (ctx_userId c) db) = Some found).
  { destruct (get (todos_by_id_and_user id (ctx_userId c) db)) as [f|] eqn:Hg;
      [eauto|].
    unfold todos_by_id_and_user in Hg. rewrite get_filter_none in Hg.
    specialize (Hg old Hold). cbn beta in Hg.
    rewrite Hid, Howner, !String.eqb_refl in Hg. discriminate. }
  destruct Hget as [found Hget].
  assert (Hstep : delete_todo_route c id db =
                  (formatResponse
                     (JObj [("success", JBool true);
                            ("message", JStr "Todo deleted successfully")])
                     200, delete_todo id db)).
  { unfold delete_todo_route. route_steps. rewrite Hvalid. cbn [negb].
    rewrite Hget. reflexivity. }
  assert (Hrows : forall t, In t (todos (delete_todo id db)) <->
                            In t (todos db) /\ todo_id t <> id).
  { intros t. unfold delete_todo, set_todos. cbn [todos].
    rewrite filter_In, negb_true_iff. now rewrite String.eqb_neq. }
  assert (Hgone : get (todos_by_id_and_user id (ctx_userId c)
                         (delete_todo id db)) = None).
  { apply no_owned_todo. intros x Hx Hxid. apply Hrows in Hx. tauto. }
  unfold db'. rewrite Hstep. cbn [fst snd].
  split; [reflexivity|]. split; [exact Hrows|].
  split; [reflexivity|]. split; [reflexivity|]. split.
  - unfold get_todo. route_steps. rewrite Hvalid. cbn [negb].
    now rewrite Hgone.
  - unfold delete_todo_route. route_steps. rewrite Hvalid. cbn [negb].
    now rewrite Hgone.
Qed.

Lemma create_todo_keeps_todos c body uuid db_now db t :
  In t (todos db) -> In t (todos (snd (create_todo c body uuid db_now db))).
Proof.
  unfold create_todo, insert_todo, set_todos. route_steps. intros Hin.
  split_cases; cbn [snd todos]; try assumption; apply in_or_app; now left.
Qed.

Lemma put_todo_other c id body now db t :
  distinct (map todo_id (todos db)) = true -> In t (todos db) ->
  In t (todos (snd (put_todo c id body now db)))
  \/ (todo_id t = id /\ todo_userId t = ctx_userId c).
Proof.
  intros Hd Hin. unfold put_todo. route_steps.
  destruct (negb (isValidUUID id)); [now left|].
  destruct (get (todos_by_id_and_user id (ctx_userId c) db)) as [e|] eqn:Hg;
    [|now left].
  apply get_filter_some in Hg. destruct Hg as [He Hhit].
  apply andb_prop in Hhit. destruct Hhit as [Heid Heown].
  apply String.eqb_eq in Heid, Heown.
  destruct (String.eqb_spec (todo_id t) id) as [Htid|Htid].
  - right. assert (t = e)
      by (apply (distinct_key_eq todo_id (todos db)); congruence).
    subst t. now split.
  - left. unfold update_todo, update_where, set_todos.
    destruct (map _ (filter _ (todos db))); cbn [snd todos];
      apply in_map_iff; exists t; (split; [|assumption]);
      apply String.eqb_neq in Htid; now rewrite Htid.
Qed.

Lemma delete_todo_other c id db t :
  distinct (map todo_id (todos db)) = true -> In t (todos db) ->
  In t (todos (snd (delete_todo_route c id db)))
  \/ (todo_id t = id /\ todo_userId t = ctx_userId c).
Proof.
  intros Hd Hin. unfold delete_todo_route. route_steps.
  destruct (negb (isValidUUID id)); [now left|].
  destruct (get (todos_by_id_and_user id (ctx_userId c) db)) as [e|] eqn:Hg;
    [|now left].
  apply get_filter_some in Hg. destruct Hg as [He Hhit].
  apply andb_prop in Hhit. destruct Hhit as [Heid Heown].
  apply String.eqb_eq in Heid, Heown.
  destruct (String.eqb_spec (todo_id t) id) as [Htid|Htid].
  - right. assert (t = e)
      by (apply (distinct_key_eq todo_id (todos db)); congruence).
    subst t. now split.
  - left. unfold delete_todo, set_todos. cbn [snd todos].
    apply filter_In. split; [assumption|].
    now apply negb_true_iff, String.eqb_neq.
Qed.

Lemma register_keeps_todos body uuid salt db_now db :
  todos (snd (register body uuid salt db_now db)) = todos db.
Proof.
  unfold register, insert_user, set_users. route_steps.
  split_cases; reflexivity.
Qed.

Lemma put_profile_keeps_todos c body now db :
  todos (snd (put_profile c body now db)) = todos db.
Proof.
  unfold put_profile, update_user, update_where, set_users. route_steps.
  split_cases; reflexivity.
Qed.

(** X14. A todo in the store is still there, unchanged, after any request that
    is not a PUT or DELETE on its id carrying a token that verifies for
    its owner. *)
Theorem todo_changed_only_by_owner (q : Request) (db : Database) (t : Todo) :
  constraints db = true -> In t (todos db) ->
  In t (todos (snd (app env q db)))
  \/ exists authHeader now,
       authenticated_as env authHeader now (todo_userId t)
       /\ ((exists body, q = PutTodo authHeader (todo_id t) body now)
           \/ q = DeleteTodo authHeader (todo_id t) now).
Proof.
  intros Hc Hin. apply constraints_split in Hc.
  destruct Hc as (_ & _ & _ & _ & Hd & _).
  destruct q; simpl.
  - left. now rewrite register_keeps_todos.
  - left. destruct (token_store env body random now db_now db)
      as [->|[uid ->]]; assumption.
  - left. destruct (refresh_store env body now db) as [->| ->]; assumption.
  - left. destruct (revoke_store body db) as [->| ->]; assumption.
  - left. destruct (requireAuth_cases env authorization now get_profile db)
      as [->|[c ->]]; [assumption|now rewrite get_profile_keeps_store].
  - left. destruct (requireAuth_cases env authorization now
                      (fun c => put_profile c body now) db)
      as [->|[c ->]]; [assumption|now rewrite put_profile_keeps_todos].
  - left. destruct (requireAuth_cases env authorization now list_todos db)
      as [->|[c ->]]; [assumption|now rewrite list_todos_keeps_store].
  - left. destruct (requireAuth_cases env authorization now
                      (fun c => create_todo c body uuid db_now) db)
      as [->|[c ->]]; [assumption|now apply create_todo_keeps_todos].
  - left. destruct (requireAuth_cases env authorization now
                      (fun c => get_todo c id) db)
      as [->|[c ->]]; [assumption|now rewrite get_todo_keeps_store].
  - destruct (requireAuth_answers env authorization now
                (fun c => put_todo c id body now) db)
      as [[m ->]|[->|[tok [payload [Hx [Hv ->]]]]]]; [now left|now left|].
    destruct (put_todo_other
                {| ctx_userId := tp_userId payload;
                   ctx_userEmail := tp_email payload |} id body now db t
                Hd Hin) as [Hkept|[Hid Howner]]; [now left|].
    right. exists authorization, now. split.
    + exists tok, payload. auto.
    + left. exists body. now rewrite Hid.
  - destruct (requireAuth_answers env authorization now
                (fun c => delete_todo_route c id) db)
      as [[m ->]|[->|[tok [payload [Hx [Hv ->]]]]]]; [now left|now left|].
    destruct (delete_todo_other
                {| ctx_userId := tp_userId payload;
                   ctx_userEmail := tp_email payload |} id db t
                Hd Hin) as [Hkept|[Hid Howner]]; [now left|].
    right. exists authorization, now. split.
    + exists tok, payload. auto.
    + right. now rewrite Hid.
Qed.

End TodoOwnership.

Section Identifiers.

Lemma matches_at (pattern : list CharClass) (s : string) :
  matches pattern s = true ->
  String.length s = List.length pattern
  /\ forall i k, nth_error pattern i = Some k ->
                 exists c, String.get i s = Some c /\ in_class k c = true.
Proof.
  revert s. induction pattern as [|k pattern IH]; intros s Hm.
  - destruct s; [|discriminate]. split; [reflexivity|].
    intros [|i] k' Hk; discriminate.
  - destruct s as [|c s]; [discriminate|]. simpl in Hm.
    apply andb_prop in Hm. destruct Hm as [Hc Hm].
    destruct (IH s Hm) as [Hlen Hat]. split; [simpl; now rewrite Hlen|].
    intros [|i] k' Hk; simpl in *.
    + injection Hk as <-. now exists c.
    + now apply Hat.
Qed.

(** X15. What [isValidUUID] accepts has 36 characters, dashes at the four group
    boundaries, the digit 4 as version and 8, 9, a or b as variant; the
    letters may be in either case. *)
Theorem isValidUUID_shape (uuid : string) :
  isValidUUID uuid = true ->
  String.length uuid = 36%nat
  /\ String.get 8 uuid = Some "-"%char /\ String.get 13 uuid = Some "-"%char
  /\ String.get 14 uuid = Some "4"%char
  /\ String.get 18 uuid = Some "-"%char /\ String.get 23 uuid = Some "-"%char
  /\ (exists v, String.get 19 uuid = Some v
                /\ In v ["8"; "9"; "a"; "b"; "A"; "B"]%char)
  /\ forall i c, String.get i uuid = Some c ->
                 i <> 8%nat -> i <> 13%nat -> i <> 18%nat -> i <> 23%nat ->
                 is_hex c = true.
Proof.
  intros Hv. apply matches_at in Hv. destruct Hv as [Hlen Hat].
  assert (Hdash : forall i, nth_error uuidRegex i = Some Dash ->
                            String.get i uuid = Some "-"%char).
  { intros i Hi. destruct (Hat i Dash Hi) as [c [Hc Hk]].
    simpl in Hk. apply Ascii.eqb_eq in Hk. now subst. }
  split; [exact Hlen|].
  split; [now apply Hdash|]. split; [now apply Hdash|].
  split.
  { destruct (Hat 14%nat Four eq_refl) as [c [Hc Hk]].
    simpl in Hk. apply Ascii.eqb_eq in Hk. now subst. }
  split; [now apply Hdash|]. split; [now apply Hdash|].
  split.
  { destruct (Hat 19%nat Variant eq_refl) as [c [Hc Hk]].
    exists c. split; [assumption|]. simpl in Hk.
    repeat (apply orb_prop in Hk; destruct Hk as [Hk|Hk]);
      apply Ascii.eqb_eq in Hk; subst; simpl; tauto. }
  intros i c Hc H8 H13 H18 H23.
  assert (Hlen36 : String.length uuid = 36%nat) by exact Hlen.
  assert (Hi : (i < 36)%nat).
  { rewrite <- Hlen36. clear - Hc. revert i Hc.
    induction uuid as [|d s IH]; intros [|i] Hc; simpl in *;
      try discriminate; try lia.
    apply IH in Hc. lia. }
  assert (Hk : exists k, nth_error uuidRegex i = Some k
                         /\ (k = Hex \/ k = Four \/ k = Variant)).
  { assert (Hall : forallb
                     (fun j => match nth_error uuidRegex j with
                               | Some Dash =>
                                   Nat.eqb j 8 || Nat.eqb j 13
                                   || Nat.eqb j 18 || Nat.eqb j 23
                               | Some _ => true
                               | None => false
                               end) (seq 0 36) = true) by reflexivity.
    rewrite forallb_forall in Hall.
    assert (Hseq : In i (seq 0 36)) by (apply in_seq; lia).
    specialize (Hall i Hseq).
    destruct (nth_error uuidRegex i) as [[| | |]|]; try discriminate;
      try (eexists; split; [reflexivity|tauto]).
    repeat (apply orb_prop in Hall; destruct Hall as [Hall|Hall]);
      apply Nat.eqb_eq in Hall; contradiction. }
  destruct Hk as [k [Hk Hkind]]. destruct (Hat i k Hk) as [c' [Hc' Hin]].
  rewrite Hc in Hc'. injection Hc' as <-.
  destruct Hkind as [->|[->| ->]]; simpl in Hin.
  - exact Hin.
  - apply Ascii.eqb_eq in Hin. now subst.
  - repeat (apply orb_prop in Hin; destruct Hin as [Hin|Hin]);
      apply Ascii.eqb_eq in Hin; subst; reflexivity.
Qed.

(** X16. An id that does not have 36 characters is answered 400 by GET, PUT and
    DELETE on /todos/:id, with the same answer whatever the store holds,
    and the store is not touched. *)
Theorem malformed_todo_id_is_rejected `{Platform} (c : Context) (id : string)
    (body : TodoBody) (now : Z) (db : Database) :
  String.length id <> 36%nat ->
  let bad_request :=
    formatResponse (failure "Bad Request" "Invalid todo ID format") 400 in
  get_todo c id db = (bad_request, db)
  /\ put_todo c id body now db = (bad_request, db)
  /\ delete_todo_route c id db = (bad_request, db).
Proof.
  intros Hlen bad_request.
  assert (Hbad : isValidUUID id = false).
  { destruct (isValidUUID id) eqn:Hv; [|reflexivity].
    apply matches_at in Hv. now destruct Hv. }
  unfold get_todo, put_todo, delete_todo_route. route_steps.
  rewrite Hbad. auto.
Qed.

Lemma hex_digit_value (k : Z) :
  (0 <= k < 16)%Z ->
  hex_value (hex_digit k) = Some k /\ is_lower_hex (hex_digit k) = true.
Proof.
  intros Hk.
  assert (Hcases : (k = 0 \/ k = 1 \/ k = 2 \/ k = 3 \/ k = 4 \/ k = 5
                    \/ k = 6 \/ k = 7 \/ k = 8 \/ k = 9 \/ k = 10 \/ k = 11
                    \/ k = 12 \/ k = 13 \/ k = 14 \/ k = 15)%Z) by lia.
  repeat (destruct Hcases as [->|Hcases]; [split; reflexivity|]).
  subst. split; reflexivity.
Qed.

Lemma unhex_bytes (bytes : list Z) :
  Forall (fun b => 0 <= b < 256)%Z bytes ->
  unhex (String.concat "" (map hex_byte bytes)) = bytes
  /\ all_chars is_lower_hex (String.concat "" (map hex_byte bytes)) = true
  /\ String.length (String.concat "" (map hex_byte bytes))
     = (2 * List.length bytes)%nat.
Proof.
  induction 1 as [|b bytes Hb Hbytes IH]; [repeat split|].
  destruct IH as [IHu [IHc IHl]].
  assert (Hhi : (0 <= b / 16 < 16)%Z)
    by (split; [apply Z.div_pos; lia|apply Z.div_lt_upper_bound; lia]).
  assert (Hlo : (0 <= b mod 16 < 16)%Z) by (apply Z.mod_pos_bound; lia).
  destruct (hex_digit_value _ Hhi) as [Hv1 Hl1].
  destruct (hex_digit_value _ Hlo) as [Hv2 Hl2].
  assert (Hcat : String.concat "" (map hex_byte (b :: bytes))
                 = String (hex_digit (b / 16))
                     (String (hex_digit (b mod 16))
                        (String.concat "" (map hex_byte bytes)))).
  { destruct bytes; reflexivity. }
  rewrite Hcat. cbn [unhex all_chars String.length].
  rewrite Hv1, Hv2, Hl1, Hl2, IHu, IHc, IHl. repeat split.
  - f_equal. pose proof (Z.div_mod b 16). lia.
  - simpl. lia.
Qed.

Lemma getRandomValues_bytes (n : nat) (random : nat -> Z) :
  Forall (fun b => 0 <= b < 256)%Z (getRandomValues n random).
Proof.
  unfold getRandomValues. apply Forall_forall. intros b Hb.
  apply in_map_iff in Hb. destruct Hb as [i [<- _]].
  apply Z.mod_pos_bound. lia.
Qed.

(** X17. A refresh token is 64 lower-case hexadecimal characters that spell the
    32 random bytes: the bytes can be read back from it, so two draws give
    the same token exactly when they drew the same bytes. *)
Theorem generateRefreshToken_encodes_bytes (random random' : nat -> Z) :
  String.length (generateRefreshToken random) = 64%nat
  /\ all_chars is_lower_hex (generateRefreshToken random) = true
  /\ unhex (generateRefreshToken random) = getRandomValues 32 random
  /\ (generateRefreshToken random = generateRefreshToken random' <->
      forall i, (i < 32)%nat -> (random i mod 256 = random' i mod 256)%Z).
Proof.
  destruct (unhex_bytes _ (getRandomValues_bytes 32 random)) as [Hu [Hc Hl]].
  destruct (unhex_bytes _ (getRandomValues_bytes 32 random')) as [Hu' _].
  fold (generateRefreshToken random) in Hu, Hc, Hl.
  fold (generateRefreshToken random') in Hu'.
  split; [exact Hl|]. split; [exact Hc|]. split; [exact Hu|].
  split.
  - intros Heq i Hi.
    assert (Hbytes : getRandomValues 32 random = getRandomValues 32 random')
      by congruence.
    unfold getRandomValues in Hbytes.
    assert (Hnth : nth_error (map (fun i => random i mod 256) (seq 0 32)) i
                   = nth_error (map (fun i => random' i mod 256) (seq 0 32)) i)
      by now rewrite Hbytes.
    rewrite !nth_error_map, nth_error_seq in Hnth.
    destruct (Nat.ltb_spec i 32) as [_|]; [|lia].
    simpl in Hnth. now injection Hnth.
  - intros Hall. unfold generateRefreshToken, getRandomValues. do 2 f_equal.
    apply map_ext_in. intros i Hi. apply in_seq in Hi. apply Hall. lia.
Qed.

End Identifiers.

(** ** lib/sanitize *)

Lemma replace_all_app (c : ascii) (r a b : string) :
  replace_all c r (a ++ b) = replace_all c r a ++ replace_all c r b.
Proof.
  induction a as [|d a IH]; simpl; [reflexivity|].
  now rewrite IH, append_assoc.
Qed.

Lemma escapeHtml_app (a b : string) :
  escapeHtml (a ++ b) = escapeHtml a ++ escapeHtml b.
Proof. unfold escapeHtml. now rewrite !replace_all_app. Qed.

Lemma escapeHtml_char (c : ascii) :
  escapeHtml (String c "") = escape_char c.
Proof.
  destruct c as [[|] [|] [|] [|] [|] [|] [|] [|]]; reflexivity.
Qed.

Lemma escapeHtml_each (unsafe : string) :
  escapeHtml unsafe = escape_each unsafe.
Proof.
  induction unsafe as [|c s IH]; [reflexivity|].
  change (String c s) with (String c "" ++ s).
  rewrite escapeHtml_app, escapeHtml_char, IH. reflexivity.
Qed.

(** X18. The five chained replacements amount to replacing each character of
    the input once: the ampersand of an entity that a later replacement
    inserts is not escaped again, because ampersands are replaced first. *)
Theorem escapeHtml_escapes_each_character_once (c : ascii) (rest : string) :
  escapeHtml (String c rest) = escape_char c ++ escapeHtml rest.
Proof.
  change (String c rest) with (String c "" ++ rest).
  rewrite escapeHtml_app. f_equal. apply escapeHtml_char.
Qed.

Lemma any_char_app (test : ascii -> bool) (a b : string) :
  any_char test (a ++ b) = any_char test a || any_char test b.
Proof.
  induction a as [|c a IH]; simpl; [reflexivity|].
  now rewrite IH, orb_assoc.
Qed.

Lemma escape_char_cases (c : ascii) :
  (is_special c = false /\ escape_char c = String c "")
  \/ (c = "&"%char /\ escape_char c = "&amp;")
  \/ (c = "<"%char /\ escape_char c = "&lt;")
  \/ (c = ">"%char /\ escape_char c = "&gt;")
  \/ (c = dquote /\ escape_char c = "&quot;")
  \/ (c = squote /\ escape_char c = "&#039;").
Proof.
  unfold escape_char, is_special, is_markup.
  destruct (Ascii.eqb_spec c "&") as [->|_]; [tauto|].
  destruct (Ascii.eqb_spec c "<") as [->|_]; [tauto|].
  destruct (Ascii.eqb_spec c ">") as [->|_]; [tauto|].
  destruct (Ascii.eqb_spec c dquote) as [->|_]; [tauto|].
  destruct (Ascii.eqb_spec c squote) as [->|_]; [tauto|].
  left. now split.
Qed.

(** X19. The output of [escapeHtml] has no angle bracket and no quote of either
    kind, and it is the input itself exactly when the input has none of
    the five characters. *)
Theorem escapeHtml_output_has_no_markup (unsafe : string) :
  any_char is_markup (escapeHtml unsafe) = false
  /\ (escapeHtml unsafe = unsafe <-> any_char is_special unsafe = false)
  /\ (String.length unsafe <= String.length (escapeHtml unsafe))%nat.
Proof.
  rewrite escapeHtml_each.
  induction unsafe as [|c s [IHm [IHid IHlen]]]; [now repeat split|].
  cbn [escape_each any_char]. rewrite any_char_app, length_append.
  destruct (escape_char_cases c)
    as [[Hc ->]|[[-> ->]|[[-> ->]|[[-> ->]|[[-> ->]|[-> ->]]]]]].
  - split; [|split].
    + unfold is_special in Hc. apply orb_false_elim in Hc.
      destruct Hc as [_ Hc]. cbn [any_char]. now rewrite Hc, IHm.
    + rewrite Hc. cbn [orb append]. rewrite <- IHid. split.
      * intros Heq. now injection Heq.
      * intros ->. reflexivity.
    + simpl. lia.
  - split; [now rewrite IHm|]. split; [|simpl; lia].
    split; [|discriminate]. intros Heq. exfalso.
    apply (f_equal String.length) in Heq. simpl in Heq. lia.
  - split; [now rewrite IHm|]. split; [|simpl; lia].
    split; [|discriminate]. intros Heq. discriminate.
  - split; [now rewrite IHm|]. split; [|simpl; lia].
    split; [|discriminate]. intros Heq. discriminate.
  - split; [now rewrite IHm|]. split; [|simpl; lia].
    split; [|discriminate]. intros Heq. discriminate.
  - split; [now rewrite IHm|]. split; [|simpl; lia].
    split; [|discriminate]. intros Heq. discriminate.
Qed.

Lemma escape_char_prefix_free (c d : ascii) (x y : string) :
  escape_char c ++ x = escape_char d ++ y -> c = d /\ x = y.
Proof.
  destruct (escape_char_cases c)
    as [[Hc ->]|[[-> ->]|[[-> ->]|[[-> ->]|[[-> ->]|[-> ->]]]]]];
  destruct (escape_char_cases d)
    as [[Hd ->]|[[-> ->]|[[-> ->]|[[-> ->]|[[-> ->]|[-> ->]]]]]];
  simpl; intros Heq;
  try (split; congruence);
  injection Heq; intros; subst;
  first [ cbv in Hc; discriminate | cbv in Hd; discriminate ].
Qed.

(** X20. Different inputs have different escaped forms: the input can be read
    back from the output. *)
Theorem escapeHtml_injective (a b : string) :
  escapeHtml a = escapeHtml b <-> a = b.
Proof.
  split; [|now intros ->].
  rewrite !escapeHtml_each.
  revert b. induction a as [|c a IH]; intros [|d b]; simpl.
  - reflexivity.
  - intros Heq. exfalso. destruct (escape_char_cases d)
      as [[_ Hd]|[[_ Hd]|[[_ Hd]|[[_ Hd]|[[_ Hd]|[_ Hd]]]]]];
      rewrite Hd in Heq; discriminate.
  - intros Heq. exfalso. destruct (escape_char_cases c)
      as [[_ Hc]|[[_ Hc]|[[_ Hc]|[[_ Hc]|[[_ Hc]|[_ Hc]]]]]];
      rewrite Hc in Heq; discriminate.
  - intros Heq. apply escape_char_prefix_free in Heq.
    destruct Heq as [-> Heq]. f_equal. now apply IH.
Qed.

Lemma escapeHtml_markup_free (unsafe : string) :
  any_char is_markup (escapeHtml unsafe) = false.
Proof.
  rewrite escapeHtml_each.
  induction unsafe as [|c s IH]; [reflexivity|].
  cbn [escape_each]. rewrite any_char_app, IH, orb_false_r.
  destruct (escape_char_cases c)
    as [[Hc ->]|[[-> ->]|[[-> ->]|[[-> ->]|[[-> ->]|[-> ->]]]]]];
    try reflexivity.
  unfold is_special in Hc. apply orb_false_elim in Hc.
  cbn [any_char]. now rewrite (proj2 Hc).
Qed.

(** X21. Every string value of [sanitizeObject]'s result, at any depth, is free
    of angle brackets and quotes. *)
Theorem sanitizeObject_escapes_every_string_value (obj : Json) :
  Forall (fun s => any_char is_markup s = false)
    (string_values (sanitizeObject obj)).
Proof.
  induction obj as [ |b|n|s|items Hitems|members Hmembers]
    using Json_induction; cbn [sanitizeObject string_values];
    try (now constructor).
  - constructor; [apply escapeHtml_markup_free | constructor].
  - induction Hitems as [|x items Hx _ IH]; [constructor|].
    cbn [map flat_map]. apply Forall_app. now split.
  - induction Hmembers as [|[k x] members Hx _ IH]; [constructor|].
    cbn [flat_map fst snd]. destruct (String.eqb k "__proto__").
    + exact IH.
    + cbn [app flat_map snd]. apply Forall_app. now split.
Qed.

Lemma toLowerCase_app (a b : string) :
  toLowerCase (a ++ b) = toLowerCase a ++ toLowerCase b.
Proof. induction a as [|c a IH]; simpl; [reflexivity | now rewrite IH]. Qed.

Lemma toLowerCase_escape_char (c : ascii) :
  toLowerCase (escape_char c) = escape_char (to_lower c).
Proof.
  destruct c as [[|] [|] [|] [|] [|] [|] [|] [|]]; reflexivity.
Qed.

Lemma toLowerCase_escapeHtml (s : string) :
  toLowerCase (escapeHtml s) = escapeHtml (toLowerCase s).
Proof.
  rewrite !escapeHtml_each.
  induction s as [|c s IH]; [reflexivity|].
  cbn [escape_each toLowerCase].
  now rewrite toLowerCase_app, toLowerCase_escape_char, IH.
Qed.

Lemma to_lower_white_space (c : ascii) :
  is_white_space (to_lower c) = is_white_space c.
Proof.
  destruct c as [[|] [|] [|] [|] [|] [|] [|] [|]]; reflexivity.
Qed.

Lemma toLowerCase_trimEnd (s : string) :
  toLowerCase (trimEnd s) = trimEnd (toLowerCase s).
Proof.
  induction s as [|c s IH]; [reflexivity|].
  cbn [trimEnd toLowerCase]. rewrite <- IH.
  destruct (trimEnd s) as [|d kept]; cbn [toLowerCase].
  - rewrite to_lower_white_space. now destruct (is_white_space c).
  - reflexivity.
Qed.

Lemma white_space_not_special (c : ascii) :
  is_white_space c = true -> escape_char c = String c "".
Proof.
  destruct c as [[|] [|] [|] [|] [|] [|] [|] [|]];
    first [reflexivity | discriminate].
Qed.

Lemma escape_char_head (c : ascii) :
  is_white_space c = false ->
  exists d rest, escape_char c = String d rest /\ is_white_space d = false.
Proof.
  intros Hc. destruct (escape_char_cases c)
    as [[_ ->]|[[_ ->]|[[_ ->]|[[_ ->]|[[_ ->]|[_ ->]]]]]];
    eexists; eexists; (split; [reflexivity|]); first [exact Hc | reflexivity].
Qed.

Lemma trimStart_escapeHtml (s : string) :
  trimStart (escapeHtml s) = escapeHtml (trimStart s).
Proof.
  rewrite !escapeHtml_each.
  induction s as [|c s IH]; [reflexivity|].
  cbn [escape_each trimStart].
  destruct (is_white_space c) eqn:Hc.
  - rewrite (white_space_not_special c Hc). cbn [append trimStart].
    now rewrite Hc.
  - destruct (escape_char_head c Hc) as [d [rest [Heq Hd]]].
    cbn [escape_each]. rewrite Heq. cbn [append trimStart]. now rewrite Hd.
Qed.


Lemma prefix_trimEnd (p t : string) :
  none_char is_white_space p ->
  String.prefix p (trimEnd t) = String.prefix p t.
Proof.
  unfold none_char. revert p.
  induction t as [|c r IH]; intros p Hp; [reflexivity|].
  destruct p as [|a p]; [cbn [trimEnd]; now destruct (trimEnd r), (is_white_space c)|].
  cbn [any_char] in Hp. apply orb_false_elim in Hp. destruct Hp as [Ha Hp].
  specialize (IH p Hp). cbn [trimEnd].
  destruct (trimEnd r) as [|d kept] eqn:Hr.
  - destruct (is_white_space c) eqn:Hc.
    + cbn [String.prefix]. destruct (ascii_dec a c) as [->|_]; [congruence|].
      reflexivity.
    + cbn [String.prefix]. destruct (ascii_dec a c); [|reflexivity].
      exact IH.
  - cbn [String.prefix]. destruct (ascii_dec a c); [|reflexivity].
    exact IH.
Qed.

Lemma prefix_escapeHtml (p t : string) :
  none_char is_special p ->
  String.prefix p (escapeHtml t) = String.prefix p t.
Proof.
  unfold none_char. rewrite escapeHtml_each. revert p.
  induction t as [|c r IH]; intros p Hp; [reflexivity|].
  destruct p as [|a p]; [cbn [escape_each]; now destruct (escape_char c ++ escape_each r)|].
  cbn [any_char] in Hp. apply orb_false_elim in Hp. destruct Hp as [Ha Hp].
  specialize (IH p Hp). cbn [escape_each].
  destruct (escape_char_cases c)
    as [[Hc ->]|[[-> ->]|[[-> ->]|[[-> ->]|[[-> ->]|[-> ->]]]]]];
    cbn [append String.prefix].
  - destruct (ascii_dec a c); [exact IH | reflexivity].
  - destruct (ascii_dec a "&") as [->|_]; [discriminate|].
    reflexivity.
  - destruct (ascii_dec a "&") as [->|_]; [discriminate|].
    destruct (ascii_dec a "<") as [->|_]; [discriminate|]. reflexivity.
  - destruct (ascii_dec a "&") as [->|_]; [discriminate|].
    destruct (ascii_dec a ">") as [->|_]; [discriminate|]. reflexivity.
  - destruct (ascii_dec a "&") as [->|_]; [discriminate|].
    destruct (ascii_dec a dquote) as [->|_]; [discriminate|]. reflexivity.
  - destruct (ascii_dec a "&") as [->|_]; [discriminate|].
    destruct (ascii_dec a squote) as [->|_]; [discriminate|]. reflexivity.
Qed.

Lemma startsWith_escaped (p url : string) :
  none_char is_white_space p -> none_char is_special p ->
  startsWith (toLowerCase (trim (escapeHtml url))) p
  = startsWith (toLowerCase (trim url)) p.
Proof.
  intros Hw Hs. unfold startsWith, trim.
  rewrite trimStart_escapeHtml, !toLowerCase_trimEnd, !prefix_trimEnd by exact Hw.
  rewrite toLowerCase_escapeHtml. now apply prefix_escapeHtml.
Qed.

(** X22. What [sanitizeUrl] returns never begins, once trimmed and in any letter
    case, with one of the blocked protocols. *)
Theorem sanitizeUrl_result_has_no_blocked_protocol (url protocol : string) :
  In protocol dangerousProtocols ->
  startsWith (toLowerCase (trim (sanitizeUrl url))) protocol = false.
Proof.
  intros Hin. unfold sanitizeUrl.
  destruct (existsb _ dangerousProtocols) eqn:Hany.
  - cbn [In dangerousProtocols] in Hin.
    destruct Hin as [<-|[<-|[<-|[<-|[]]]]]; reflexivity.
  - assert (Hno : startsWith (toLowerCase (trim url)) protocol = false).
    { destruct (startsWith (toLowerCase (trim url)) protocol) eqn:Hp;
        [|reflexivity].
      assert (Hex : existsb (startsWith (toLowerCase (trim url)))
                      dangerousProtocols = true)
        by (apply existsb_exists; eauto).
      congruence. }
    rewrite startsWith_escaped; [exact Hno| |];
      cbn [In dangerousProtocols] in Hin;
      destruct Hin as [<-|[<-|[<-|[<-|[]]]]]; reflexivity.
Qed.

(** ** lib/formatters *)

(** X23. The rendering is chosen from the Accept header alone whenever it names
    one of the two media types, whatever the User-Agent; otherwise the
    User-Agent counts only up to letter case. *)
Theorem detectClientType_reads_user_agent_last
    (accept : option string) (agent agent' : string) :
  (includes_text (str accept) "application/json" = true
   \/ includes_text (str accept) "text/html" = true
   \/ toLowerCase agent = toLowerCase agent') ->
  detectClientType (Some agent) accept = detectClientType (Some agent') accept.
Proof.
  unfold detectClientType.
  assert (Hd : forall s, or_default s "" = s) by (now intros [|c s]).
  rewrite !Hd. cbn [str].
  intros [Hjson|[Hhtml|Hcase]].
  - now rewrite Hjson.
  - rewrite Hhtml. now destruct (includes_text (str accept) "application/json").
  - now rewrite Hcase.
Qed.

(** ** terraform-provider-apibasics: internal/client *)

Section ClientFacts.
Import client.
Context `{Network}.

(** X24. [DoRequest] never hands a 401 to its caller: what it returns is an
    error or a response with another status. *)
Theorem DoRequest_never_returns_unauthorized (fuel : nat)
    (method path : string) (body : option Json) (c c' : Client)
    (w w' : World) (resp : HttpResponse) :
  DoRequest fuel method path body c w = Some (Return resp, c', w') ->
  StatusCode resp <> 401%Z.
Proof.
  revert c w. induction fuel as [|fuel IH]; intros c w; [discriminate|].
  cbn [DoRequest].
  destruct (NewRequest method (BaseURL c ++ path)); [|discriminate].
  destruct (Do (authorized c method path body) w) as [[r|err] w1];
    [|discriminate].
  destruct (Z.eqb_spec (StatusCode r) 401) as [Heq|Hne].
  - destruct (Authenticate c w1) as [[[u|err] c1] w2]; [apply IH|discriminate].
  - intros Hret. injection Hret as <- _ _. exact Hne.
Qed.

(** X25. On a network where every login is answered 200 with a token pair and
    every request that carries an Authorization header is answered 401,
    [DoRequest] does not return, however many calls it is given. *)
Theorem DoRequest_retries_without_bound (method path : string)
    (body : option Json) (c : Client) (w : World) :
  (forall method url, NewRequest method url = Return tt) ->
  (forall req w,
     Authorization req <> None ->
     exists resp, fst (Do req w) = Return resp /\ StatusCode resp = 401%Z) ->
  (forall req w,
     Authorization req = None ->
     exists resp t,
       fst (Do req w) = Return resp /\ StatusCode resp = 200%Z
       /\ Unmarshal TokenResponse_fields TokenResponse_set
            TokenResponse_zero (Body resp) = Return t) ->
  forall fuel, DoRequest fuel method path body c w = None.
Proof.
  intros Hnew Hdenied Hlogin fuel. revert c w.
  induction fuel as [|fuel IH]; intros c w; [reflexivity|].
  cbn [DoRequest]. rewrite Hnew.
  destruct (Hdenied (authorized c method path body) w) as [r [Hdo Hcode]];
    [discriminate|].
  destruct (Do (authorized c method path body) w) as [o w1].
  cbn [fst] in Hdo. subst o. rewrite Hcode. cbn [Z.eqb Pos.eqb].
  unfold Authenticate. rewrite Hnew.
  match goal with
  | |- context [Do ?req w1] =>
      destruct (Hlogin req w1) as [r' [t [Hdo' [Hcode' Hbody]]]];
        [reflexivity|];
      destruct (Do req w1) as [o' w2]
  end.
  cbn [fst] in Hdo'. subst o'. rewrite Hcode', Hbody. cbn [Z.eqb Pos.eqb negb].
  apply IH.
Qed.

End ClientFacts.

(** A todo in an answer is read by the client as the worker wrote it. *)
Lemma todo_json_as_written `{Platform} (t : Todo) :
  as_written (todo_json t) = true /\ reread (todo_json t) = todo_json t.
Proof.
  unfold todo_json, date_json, text_json, as_written.
  destruct (todo_description t), (date_text (todo_createdAt t * 1000)),
    (date_text (todo_updatedAt t * 1000)); split; reflexivity.
Qed.

Section ClientAndWorker.
Import client.
Context `{Platform} `{Network} (env : Env).

Lemma ParseInt_digits (n : Z) :
  (- 2 ^ 63 <= n < 2 ^ 63)%Z -> ParseInt (digits n) = Some n.
Proof.
  intros Hn. unfold ParseInt. rewrite int_of_digits, (DecimalZ.of_to n).
  cbv zeta.
  destruct (Z.leb_spec (- 2 ^ 63) n) as [_|Hlt]; [|lia].
  destruct (Z.ltb_spec n (2 ^ 63)) as [_|Hge]; [reflexivity|lia].
Qed.

Lemma Unmarshal_stringify {T} (fields : list (string * Kind))
    (set : string -> Json -> T -> T) (zero : T) (v : Json) :
  as_written v = true ->
  Unmarshal fields set zero (JSON_stringify v)
  = decode_struct fields set zero (reread v).
Proof.
  intros Hv. unfold Unmarshal, scan.
  rewrite (parse_text_stringify _ _ (fun _ => true)); auto.
Qed.

Lemma Decode_stringify {T} (fields : list (string * Kind))
    (set : string -> Json -> T -> T) (zero : T) (v : Json) :
  as_written v = true ->
  Decode fields set zero (JSON_stringify v)
  = decode_struct fields set zero (reread v).
Proof.
  intros Hv. unfold Decode.
  rewrite <- (append_empty (JSON_stringify v)) at 2.
  rewrite (parse_value_stringify _ _ (fun _ => true));
    [reflexivity|auto|exact Hv| |split; reflexivity].
  pose proof (size_le_length _ _ v Hv). lia.
Qed.

(** X26. The client against the worker, for an access-token lifetime that
    JavaScript holds exactly (at most 2^53 in magnitude), so that the
    worker writes it in digits: when the login request is answered with
    what POST /token answers for the client's email and password, a 200
    leaves the client holding the two tokens the worker issued, and any
    other status is an error that leaves the client as it was. *)
Theorem Authenticate_keeps_the_issued_tokens (c : Client)
    (random : nat -> Z) (now db_now : Z) (db : Database) (w w' : World) :
  let answer :=
    fst (token env {| tok_email := Some (Email c);
                      tok_password := Some (Password c) |}
           random now db_now db) in
  NewRequest "POST" (BaseURL c ++ "/token") = Return tt ->
  Do (login_request c) w = (Return (wire answer), w') ->
  (Z.abs (JWT_ACCESS_EXPIRY env) <= 2 ^ 53)%Z ->
  (status answer = 200%Z ->
   exists accessToken,
     field "access_token" (data answer) = Some (JStr accessToken)
     /\ Authenticate c w =
        (Return tt,
         {| BaseURL := BaseURL c; Email := Email c; Password := Password c;
            AccessToken := accessToken;
            RefreshToken := generateRefreshToken random |}, w'))
  /\ (status answer <> 200%Z ->
      exists err, Authenticate c w = (Throw err, c, w')).
Proof.
  intros answer Hnew Hdo Hint.
  unfold Authenticate. rewrite Hnew.
  change {| Method := "POST"; URL := BaseURL c ++ "/token";
            Authorization := None; ContentType := Some "application/json";
            Payload := Some (JObj [("email", JStr (Email c));
                                   ("password", JStr (Password c))]) |}
    with (login_request c).
  rewrite Hdo. cbn [wire StatusCode Body].
  assert (Hshape : status answer = 200%Z ->
                   exists a, data answer = login_data env a
                                             (generateRefreshToken random)).
  { unfold answer, token. route_steps.
    split_cases; cbn [fst status data]; try discriminate.
    intros _. eexists. reflexivity. }
  split.
  - intros H200. rewrite H200. cbn [Z.eqb Pos.eqb negb].
    destruct (Hshape H200) as [a Ha]. rewrite Ha. exists a.
    split; [reflexivity|].
    unfold login_data. rewrite (number_digits _ Hint).
    rewrite Unmarshal_stringify.
    2:{ unfold as_written. cbn [canonical map fst snd forallb andb].
        now rewrite literal_text_digits. }
    cbn [reread map fst snd]. rewrite digits_not_null.
    assert (Hfit : fits KInt (JNum (digits (JWT_ACCESS_EXPIRY env))) = true).
    { cbn [fits]. rewrite ParseInt_digits; [reflexivity|].
      assert (2 ^ 53 < 2 ^ 63)%Z by reflexivity. lia. }
    unfold decode_struct.
    cbn [store_members find_field find TokenResponse_fields fst snd
         String.eqb Ascii.eqb Bool.eqb toLowerCase to_lower].
    cbn -[fits generateRefreshToken digits ParseInt].
    rewrite Hfit. reflexivity.
  - intros Hne. destruct (Z.eqb_spec (status answer) 200) as [Heq|_];
      [contradiction|].
    cbn [negb]. eexists. reflexivity.
Qed.

(** X27. The client against the worker: when the create request is answered
    with what POST /todos answers after storing the todo, [CreateTodo]
    returns a todo with every field empty, the id too: the worker nests
    the row under the key todo, and the client reads the top level. *)
Theorem CreateTodo_returns_an_empty_todo (fuel : nat)
    (title description : string) (completed : bool) (c : Client)
    (ctx : Context) (uuid : string) (db_now : Z) (db : Database)
    (w w' : World) :
  let sent := JObj [("completed", JBool completed);
                    ("description", JStr description);
                    ("title", JStr title)] in
  let answer :=
    fst (create_todo ctx {| new_title := Some title;
                            new_description := Some description |}
           uuid db_now db) in
  NewRequest "POST" (BaseURL c ++ "/todos") = Return tt ->
  Do (authorized c "POST" "/todos" (Some sent)) w
  = (Return (wire answer), w') ->
  status answer = 201%Z ->
  CreateTodo (S fuel) title description completed c w
  = Some (Return Todo_zero, c, w').
Proof.
  intros sent answer Hnew Hdo H201.
  unfold CreateTodo. cbn [DoRequest]. rewrite Hnew.
  fold sent. rewrite Hdo. cbn [wire StatusCode Body]. rewrite H201.
  cbn [Z.eqb Pos.eqb negb andb wire StatusCode Body]. rewrite H201.
  cbn [Z.eqb Pos.eqb negb andb].
  assert (Hshape : exists t, data answer
                             = success "Todo created successfully"
                                 [("todo", todo_json t)]).
  { revert H201. unfold answer, create_todo. route_steps.
    split_cases; cbn [fst status data]; try discriminate.
    all: intros _; eexists; reflexivity. }
  destruct Hshape as [t ->].
  destruct (todo_json_as_written t) as [Hwritten Hread].
  rewrite Decode_stringify.
  - unfold success. cbn [reread map fst snd]. rewrite Hread. reflexivity.
  - unfold as_written, success in *.
    cbn [canonical map fst snd forallb andb]. now rewrite Hwritten.
Qed.

End ClientAndWorker.

(** ** terraform-provider-apibasics: internal/provider *)

Section ProviderFacts.
Import client provider.
Context `{Network}.

Lemma Authenticate_keeps_settings (c c' : Client) (w w' : World)
    (result : Outcome unit) :
  Authenticate c w = (result, c', w') ->
  BaseURL c' = BaseURL c /\ Email c' = Email c /\ Password c' = Password c.
Proof.
  unfold Authenticate.
  destruct (NewRequest "POST" (BaseURL c ++ "/token")).
  2:{ intros Heq. injection Heq as _ <- _. auto. }
  match goal with |- context [Do ?req w] => destruct (Do req w) as [[r|e] w1] end.
  2:{ intros Heq. injection Heq as _ <- _. auto. }
  destruct (negb (StatusCode r =? 200)%Z).
  { intros Heq. injection Heq as _ <- _. auto. }
  destruct (Unmarshal _ _ _ (Body r)); intros Heq; injection Heq as _ <- _;
    auto.
Qed.

(** X28. [Configure] hands a client to the resources only after a login that
    succeeded, with no diagnostic, and that client has an email, a password
    and an endpoint that are not empty. *)
Theorem Configure_hands_out_a_logged_in_client
    (config : apibasicsProviderModel) (Getenv : string -> string)
    (w : World) (c : Client) :
  ResourceData (fst (Configure config Getenv w)) = Some c ->
  Diagnostics (fst (Configure config Getenv w)) = []
  /\ DataSourceData (fst (Configure config Getenv w)) = Some c
  /\ Email c <> "" /\ Password c <> "" /\ BaseURL c <> ""
  /\ Authenticate (NewClient (BaseURL c) (Email c) (Password c)) w
     = (Return tt, c, snd (Configure config Getenv w)).
Proof.
  unfold Configure.
  set (endpoint0 := if negb (IsNull (cfg_Endpoint config))
                    then ValueString (cfg_Endpoint config)
                    else Getenv "APIBASICS_ENDPOINT").
  set (email := if negb (IsNull (cfg_Email config))
                then ValueString (cfg_Email config)
                else Getenv "APIBASICS_EMAIL").
  set (password := if negb (IsNull (cfg_Password config))
                   then ValueString (cfg_Password config)
                   else Getenv "APIBASICS_PASSWORD").
  set (endpoint := if endpoint0 =? ""
                   then "https://api-basics.sharted.workers.dev"
                   else endpoint0).
  assert (Hend : endpoint <> "").
  { unfold endpoint. destruct (String.eqb_spec endpoint0 ""); [discriminate|].
    assumption. }
  destruct (String.eqb_spec email "") as [He|He]; [discriminate|].
  destruct (String.eqb_spec password "") as [Hp|Hp]; [discriminate|].
  cbn [app].
  destruct (Authenticate (NewClient endpoint email password) w)
    as [[[[]|err] c1] w1] eqn:Hauth; cbn [fst snd ResourceData Diagnostics
                                           DataSourceData];
    [|discriminate].
  intros Hc. injection Hc as ->.
  destruct (Authenticate_keeps_settings _ _ _ _ _ Hauth) as [Hb [Hm Hpw]].
  cbn [NewClient BaseURL Email Password] in Hb, Hm, Hpw.
  rewrite Hb, Hm, Hpw. repeat split; assumption.
Qed.

(** X29. A setting written in the configuration hides its environment
    variable even when what is written is empty or not yet known: an
    email or a password so written is reported missing whatever the
    environment holds, and no request is sent. *)
Theorem Configure_written_setting_hides_environment
    (config : apibasicsProviderModel) (Getenv : string -> string)
    (w : World) :
  (IsNull (cfg_Email config) = false
   /\ ValueString (cfg_Email config) = "")
  \/ (IsNull (cfg_Password config) = false
      /\ ValueString (cfg_Password config) = "") ->
  snd (Configure config Getenv w) = w
  /\ ResourceData (fst (Configure config Getenv w)) = None
  /\ Diagnostics (fst (Configure config Getenv w)) <> [].
Proof.
  unfold Configure. intros [[Hnull Hval]|[Hnull Hval]];
    rewrite Hnull, Hval; cbn [negb String.eqb app].
  - repeat split. discriminate.
  - destruct (_ =? "")%string; cbn [app]; repeat split; discriminate.
Qed.

End ProviderFacts.

(** ** Instances of the theorems above *)

Ltac each_row :=
  let r := fresh "r" in
  let Hr := fresh "Hr" in
  intros r Hr; vm_compute in Hr;
  repeat (destruct Hr as [<-|Hr]); try contradiction; vm_compute; discriminate.

Lemma bob_valid : ~ register_invalid bob.
Proof. intros [Hf|[Hf|[Hf|[Hf|Hf]]]]; vm_compute in Hf; discriminate. Qed.

Lemma register_creates_account_witness :
  ~ register_invalid bob
  /\ users_by_email "b@c.org"
       (snd (@register fixture bob bob_id "pepper" 1700000150 scenario_db))
     = [@new_account fixture bob bob_id "pepper" 1700000150].
Proof.
  split; [exact bob_valid|].
  refine (proj1 (proj2 (proj2 (proj2 (proj2
            (@register_creates_account fixture bob bob_id "pepper"
               1700000150 scenario_db bob_valid _ _)))))); each_row.
Defined.

Lemma register_then_login_witness :
  status (fst (@token fixture scenario_env
                 {| tok_email := reg_email bob;
                    tok_password := reg_password bob |}
                 counting_from_one 1700000300000 1700000300
                 (snd (@register fixture bob bob_id "pepper" 1700000150
                         scenario_db)))) = 200%Z.
Proof.
  rewrite (@register_then_login fixture scenario_env bob bob_id "pepper"
             1700000150 counting_from_one 1700000300000 1700000300
             scenario_db bob_valid).
  - reflexivity.
  - each_row.
  - each_row.
  - reflexivity.
  - discriminate.
  - each_row.
Defined.

Lemma refresh_succeeds_only_for_live_token_witness :
  exists r, In r (refreshTokens scenario_db)
            /\ rt_token r = scenario_refresh_token
            /\ ~ past_expiry r 1700000200000.
Proof.
  destruct (@refresh_succeeds_only_for_live_token fixture scenario_env
              {| refresh_token := Some scenario_refresh_token |}
              1700000200000 scenario_db eq_refl)
    as [r [u [Hr [Ht [Hlive _]]]]].
  exists r. repeat split; assumption.
Defined.

Lemma revoke_then_refresh_is_refused_witness :
  status (fst (@refresh fixture scenario_env
                 {| refresh_token := Some scenario_refresh_token |}
                 1700000200000
                 (@serve fixture scenario_env
                    [PostRegister bob bob_id "pepper" 1700000150]
                    (snd (revoke
                            {| refresh_token := Some scenario_refresh_token |}
                            scenario_db))))) = 401%Z.
Proof.
  rewrite (@revoke_then_refresh_is_refused fixture scenario_env
             scenario_refresh_token scenario_db
             [PostRegister bob bob_id "pepper" 1700000150] 1700000200000).
  - reflexivity.
  - vm_compute. discriminate.
  - constructor; [|constructor]. intros Hq. exact Hq.
Defined.

Lemma access_token_verifies_until_expiry_witness :
  @verifyAccessToken fixture
    (fixture_encode
       (access_payload alice_id "a@b.com" 3600 1700000100000)
       "signing-secret")
    "signing-secret" 1700003700000 = Return None.
Proof.
  refine (proj2 (proj2 (@access_token_verifies_until_expiry fixture alice_id
                          "a@b.com" "signing-secret" 3600 1700000100000
                          _ _ _ _)) 1700003700000 _).
  - discriminate.
  - vm_compute. discriminate.
  - reflexivity.
  - reflexivity.
  - vm_compute. discriminate.
Defined.

Lemma issued_token_passes_guard_witness :
  @requireAuth fixture scenario_env alice_header 1700000200000 (@get_profile fixture)
    scenario_db = (@get_profile fixture) alice_context scenario_db.
Proof.
  refine (proj1 (@issued_token_passes_guard fixture scenario_env alice_id
                   "a@b.com" 1700000100000 1700000200000 (@get_profile fixture)
                   scenario_db _ _ _ _ _) _).
  - discriminate.
  - vm_compute. discriminate.
  - reflexivity.
  - reflexivity.
  - reflexivity.
  - vm_compute. reflexivity.
Defined.

Lemma accounts_persist_witness :
  In alice_row (users scenario_db)
  /\ exists u', In u' (users two_accounts_db) /\ same_credentials alice_row u'.
Proof.
  assert (Hin : In alice_row (users scenario_db))
    by (vm_compute; left; reflexivity).
  split; [exact Hin|].
  exact (@accounts_persist fixture scenario_env
           [PostRegister bob bob_id "pepper" 1700000150;
            PostTodos bob_header
              {| new_title := Some "Buy milk"; new_description := None |}
              bob_todo_id 1700000200000 1700000200]
           scenario_db alice_row Hin).
Defined.

Lemma create_todo_then_get_witness :
  (@get_todo fixture) alice_context bob_todo_id
    (snd (@create_todo fixture alice_context
            {| new_title := Some "Buy milk"; new_description := None |}
            bob_todo_id 1700000400 scenario_db))
  = (formatResponse
       (@todo_json fixture
          (new_todo alice_context
             {| new_title := Some "Buy milk"; new_description := None |}
             bob_todo_id 1700000400)) 200,
     snd (@create_todo fixture alice_context
            {| new_title := Some "Buy milk"; new_description := None |}
            bob_todo_id 1700000400 scenario_db)).
Proof.
  refine (proj2 (proj2 (proj2 (proj2
            (create_todo_then_get alice_context
               {| new_title := Some "Buy milk"; new_description := None |}
               bob_todo_id 1700000400 scenario_db _ _ _ _))))).
  - reflexivity.
  - reflexivity.
  - each_row.
  - reflexivity.
Defined.

Lemma put_todo_updates_in_place_witness :
  In bob_todo (todos two_accounts_db)
  /\ status (fst (@put_todo fixture bob_context bob_todo_id
                    {| upd_title := Some "Buy oat milk";
                       upd_description := None;
                       upd_completed := Some (JBool true) |}
                    1700000500000 two_accounts_db)) = 200%Z.
Proof.
  assert (Hin : In bob_todo (todos two_accounts_db))
    by (vm_compute; left; reflexivity).
  split; [exact Hin|].
  rewrite (proj1 (put_todo_updates_in_place bob_context bob_todo_id
                    {| upd_title := Some "Buy oat milk";
                       upd_description := None;
                       upd_completed := Some (JBool true) |}
                    1700000500000 two_accounts_db bob_todo
                    eq_refl eq_refl Hin eq_refl eq_refl)).
  reflexivity.
Defined.

Lemma delete_todo_then_gone_witness :
  In bob_todo (todos two_accounts_db)
  /\ todos (snd (delete_todo_route bob_context bob_todo_id two_accounts_db))
     = [].
Proof.
  assert (Hin : In bob_todo (todos two_accounts_db))
    by (vm_compute; left; reflexivity).
  split; [exact Hin|].
  pose proof (proj1 (proj2 (@delete_todo_then_gone fixture bob_context bob_todo_id
                              two_accounts_db bob_todo
                              eq_refl Hin eq_refl eq_refl))) as Hrows.
  cbv zeta in Hrows.
  destruct (todos (snd (delete_todo_route bob_context bob_todo_id
                          two_accounts_db))) as [|t rest]; [reflexivity|].
  destruct (proj1 (Hrows t) (or_introl eq_refl)) as [Ht Hid].
  vm_compute in Ht. destruct Ht as [<-|[]]. now elim Hid.
Defined.

Lemma todo_changed_only_by_owner_witness :
  In bob_todo (todos two_accounts_db)
  /\ In bob_todo
       (todos (snd (@app fixture scenario_env
                      (DeleteTodo alice_header bob_todo_id 1700000300000)
                      two_accounts_db))).
Proof.
  assert (Hin : In bob_todo (todos two_accounts_db))
    by (vm_compute; left; reflexivity).
  split; [exact Hin|].
  destruct (@todo_changed_only_by_owner fixture scenario_env
              (DeleteTodo alice_header bob_todo_id 1700000300000)
              two_accounts_db bob_todo eq_refl Hin)
    as [Hkept|[h [now [[t [p [Hx [Hv Hid]]]] [[body Hq]|Hq]]]]].
  - exact Hkept.
  - discriminate.
  - injection Hq as <- <-. vm_compute in Hx. injection Hx as <-.
    vm_compute in Hv. injection Hv as <-. vm_compute in Hid. discriminate.
Defined.

Lemma isValidUUID_shape_witness :
  String.length alice_id = 36%nat /\ String.get 14 alice_id = Some "4"%char.
Proof.
  destruct (isValidUUID_shape alice_id eq_refl) as [Hlen [_ [_ [Hfour _]]]].
  split; assumption.
Defined.

Lemma malformed_todo_id_is_rejected_witness :
  (@get_todo fixture) alice_context "1" two_accounts_db
  = (formatResponse (failure "Bad Request" "Invalid todo ID format") 400,
     two_accounts_db).
Proof.
  refine (proj1 (malformed_todo_id_is_rejected alice_context "1"
                   {| upd_title := None; upd_description := None;
                      upd_completed := None |}
                   1700000300000 two_accounts_db _)).
  vm_compute. discriminate.
Defined.

Lemma sanitizeUrl_result_has_no_blocked_protocol_witness :
  In "javascript:" dangerousProtocols
  /\ startsWith (toLowerCase (trim (sanitizeUrl "  JavaScript:alert(1)")))
       "javascript:" = false
  /\ startsWith (toLowerCase (trim (sanitizeUrl "https://a.example/?q=<b>")))
       "javascript:" = false.
Proof.
  assert (Hin : In "javascript:" dangerousProtocols) by (left; reflexivity).
  split; [exact Hin|]. split.
  - exact (sanitizeUrl_result_has_no_blocked_protocol
             "  JavaScript:alert(1)" "javascript:" Hin).
  - exact (sanitizeUrl_result_has_no_blocked_protocol
             "https://a.example/?q=<b>" "javascript:" Hin).
Defined.

Lemma detectClientType_reads_user_agent_last_witness :
  detectClientType (Some "CURL/8.4") None
  = detectClientType (Some "curl/8.4") None
  /\ detectClientType (Some "curl/8.4") (Some "text/html")
     = detectClientType (Some "Mozilla/5.0") (Some "text/html").
Proof.
  split.
  - apply detectClientType_reads_user_agent_last. right. right. reflexivity.
  - apply detectClientType_reads_user_agent_last. right. left. reflexivity.
Defined.

Lemma DoRequest_never_returns_unauthorized_witness :
  exists resp c' w',
    @client.DoRequest (scripted expired_once) 2 "GET" "/todos" None
      alice_client O = Some (Return resp, c', w')
    /\ client.AccessToken c' = "first"
    /\ client.StatusCode resp <> 401%Z.
Proof.
  eexists. eexists. eexists.
  assert (Hrun : @client.DoRequest (scripted expired_once) 2 "GET" "/todos"
                   None alice_client O
                 = Some (Return {| client.StatusCode := 200;
                                   client.Body := "[]" |},
                         {| client.BaseURL := "https://api.example";
                            client.Email := "a@b.com";
                            client.Password := "password123";
                            client.AccessToken := "first";
                            client.RefreshToken := "second" |}, 3%nat))
    by (vm_compute; reflexivity).
  split; [exact Hrun|]. split; [reflexivity|].
  exact (@DoRequest_never_returns_unauthorized (scripted expired_once) 2
           "GET" "/todos" None alice_client _ O _ _ Hrun).
Defined.

Lemma DoRequest_retries_without_bound_witness :
  @client.DoRequest (scripted always_expired) 1000 "GET" "/todos" None
    alice_client O = None.
Proof.
  apply (@DoRequest_retries_without_bound (scripted always_expired)).
  - reflexivity.
  - intros req n Hreq. cbn [client.Do scripted fst]. unfold always_expired.
    destruct (client.Authorization req); [|contradiction].
    eexists. split; reflexivity.
  - intros req n Hreq. cbn [client.Do scripted fst]. unfold always_expired.
    rewrite Hreq. eexists. eexists. split; [reflexivity|].
    split; [reflexivity|]. vm_compute. reflexivity.
Defined.

Lemma Authenticate_keeps_the_issued_tokens_witness :
  status (fst (@token fixture scenario_env alice_login counting_from_one
                 1700000300000 1700000300 scenario_db)) = 200%Z
  /\ exists accessToken,
       @client.Authenticate (scripted login_answer) alice_client O
       = (Return tt,
          {| client.BaseURL := "https://api.example";
             client.Email := "a@b.com";
             client.Password := "password123";
             client.AccessToken := accessToken;
             client.RefreshToken := generateRefreshToken counting_from_one |},
          1%nat).
Proof.
  split; [reflexivity|].
  assert (Hrange : (Z.abs (JWT_ACCESS_EXPIRY scenario_env) <= 2 ^ 53)%Z)
    by (cbn; lia).
  destruct (proj1 (@Authenticate_keeps_the_issued_tokens fixture
                     (scripted login_answer) scenario_env alice_client
                     counting_from_one 1700000300000 1700000300 scenario_db
                     O 1%nat eq_refl eq_refl Hrange) eq_refl) as [a [_ Ha]].
  exists a. exact Ha.
Defined.

Lemma CreateTodo_returns_an_empty_todo_witness :
  todos (snd (@create_todo fixture alice_context
                {| new_title := Some "Buy milk";
                   new_description := Some "two litres" |}
                bob_todo_id 1700000400 scenario_db))
  = [new_todo alice_context
       {| new_title := Some "Buy milk";
          new_description := Some "two litres" |}
       bob_todo_id 1700000400]
  /\ @client.CreateTodo (scripted create_answer) 1 "Buy milk" "two litres"
       false alice_client O
     = Some (Return client.Todo_zero, alice_client, 1%nat).
Proof.
  split; [reflexivity|].
  exact (@CreateTodo_returns_an_empty_todo fixture (scripted create_answer) O
           "Buy milk" "two litres" false alice_client alice_context
           bob_todo_id 1700000400 scenario_db O 1%nat eq_refl eq_refl
           eq_refl).
Defined.

Lemma Configure_hands_out_a_logged_in_client_witness :
  exists c,
    provider.ResourceData
      (fst (@provider.Configure (scripted always_expired)
              {| provider.cfg_Endpoint := provider.TfNull;
                 provider.cfg_Email := provider.TfNull;
                 provider.cfg_Password := provider.TfNull |}
              environment O)) = Some c
    /\ client.Email c = "a@b.com"
    /\ client.BaseURL c = "https://api-basics.sharted.workers.dev"
    /\ client.Email c <> "".
Proof.
  eexists.
  assert (Hc : provider.ResourceData
                 (fst (@provider.Configure (scripted always_expired)
                         {| provider.cfg_Endpoint := provider.TfNull;
                            provider.cfg_Email := provider.TfNull;
                            provider.cfg_Password := provider.TfNull |}
                         environment O))
               = Some {| client.BaseURL :=
                           "https://api-basics.sharted.workers.dev";
                         client.Email := "a@b.com";
                         client.Password := "password123";
                         client.AccessToken := "first";
                         client.RefreshToken := "second" |})
    by (vm_compute; reflexivity).
  split; [exact Hc|]. split; [reflexivity|]. split; [reflexivity|].
  exact (proj1 (proj2 (proj2
           (@Configure_hands_out_a_logged_in_client (scripted always_expired)
              _ environment O _ Hc)))).
Defined.

Lemma Configure_written_setting_hides_environment_witness :
  environment "APIBASICS_EMAIL" = "a@b.com"
  /\ provider.ResourceData
       (fst (@provider.Configure (scripted always_expired)
               {| provider.cfg_Endpoint := provider.TfNull;
                  provider.cfg_Email := provider.TfUnknown;
                  provider.cfg_Password := provider.TfNull |}
               environment O)) = None.
Proof.
  split; [reflexivity|].
  refine (proj1 (proj2
            (@Configure_written_setting_hides_environment
               (scripted always_expired)
               {| provider.cfg_Endpoint := provider.TfNull;
                  provider.cfg_Email := provider.TfUnknown;
                  provider.cfg_Password := provider.TfNull |}
               environment O _))).
  left. split; reflexivity.
Defined.
